(** * Biblical quotation detector: the detection pipeline, embedded and verified

    The development follows the Python sources:
    - [src/search/detector.py]   QuotationDetector (detect, _vector_search,
                                 _llm_verify, _heuristic_classify, detect_batch)
    - [src/llm/claude_client.py] ClaudeClient (constructor, verify_quotation,
                                 _parse_verification_response)
    - [scripts/process_greek.py] GreekProcessor (normalize, simple_lemmatize)
    - [src/api/models.py], [src/api/routes/detection.py]
                                 the response model, result_to_response and
                                 the handler of POST /detect

    The word overlap that tests/test_word_overlap.py expects in detector.py
    is not defined there; [WordOverlap] models it from the specification, and
    [Spec] holds the classification table of the specification.

    Python values are modelled as follows.  A [str] is the list of its code
    points.  A [float] is a binary64 number (Rocq's primitive floats), so that
    comparisons against the literals 0.95, 0.85, ... round and treat NaN the
    way Python does.  An [int] is a [Z].  Exceptions are values of a sum type,
    and the stateful parts (lazy initialisation of the clients, the clock, the
    requests sent to the completion service) run in a state-and-exception
    monad. *)

From Stdlib Require Import ZArith NArith List String Ascii Bool Lia.
From Stdlib Require Import Floats DecimalString.
Import ListNotations.

Set Implicit Arguments.
Set Warnings "-inexact-float".
Local Open Scope list_scope.

(* ================================================================== *)
(** * Python strings *)
(* ================================================================== *)

Module Py.

Definition codepoint := N.
Definition str := list codepoint.

(** String literals of the development are written as UTF-8 text and decoded
    to code points. *)
Fixpoint utf8_decode (bs : list N) : str :=
  match bs with
  | [] => []
  | b0 :: r0 =>
    if (b0 <? 0x80)%N then b0 :: utf8_decode r0
    else if (b0 <? 0xE0)%N then
      match r0 with
      | b1 :: r1 =>
        N.lor (N.shiftl (N.land b0 0x1F) 6) (N.land b1 0x3F) :: utf8_decode r1
      | [] => [b0]
      end
    else if (b0 <? 0xF0)%N then
      match r0 with
      | b1 :: b2 :: r2 =>
        N.lor (N.shiftl (N.land b0 0x0F) 12)
              (N.lor (N.shiftl (N.land b1 0x3F) 6) (N.land b2 0x3F))
          :: utf8_decode r2
      | _ => [b0]
      end
    else
      match r0 with
      | b1 :: b2 :: b3 :: r3 =>
        N.lor (N.shiftl (N.land b0 0x07) 18)
              (N.lor (N.shiftl (N.land b1 0x3F) 12)
                     (N.lor (N.shiftl (N.land b2 0x3F) 6) (N.land b3 0x3F)))
          :: utf8_decode r3
      | _ => [b0]
      end
  end.

Definition lit (s : string) : str :=
  utf8_decode (map N_of_ascii (list_ascii_of_string s)).

Definition eqb (a b : str) : bool :=
  if list_eq_dec N.eq_dec a b then true else false.

(** Truth value of a string: [bool(s)] is false exactly for the empty one. *)
Definition truthy (s : str) : bool :=
  match s with [] => false | _ :: _ => true end.

(** [x in s] for a one-character [x]. *)
Definition contains (c : codepoint) (s : str) : bool :=
  existsb (N.eqb c) s.

(** [s.split(sep)] for a one-character separator: every occurrence splits,
    empty fields are kept, and the result is never empty. *)
Fixpoint split_on (sep : codepoint) (s : str) : list str :=
  match s with
  | [] => [[]]
  | c :: r =>
    if N.eqb c sep then [] :: split_on sep r
    else match split_on sep r with
         | [] => [[c]]
         | w :: ws => (c :: w) :: ws
         end
  end.

(** [s.split(sep, 1)] on a string known to contain [sep]: the text before
    the first occurrence and the text after it.  Without an occurrence the
    whole string is the first component. *)
Fixpoint split_once (sep : codepoint) (s : str) : str * str :=
  match s with
  | [] => ([], [])
  | c :: r =>
    if N.eqb c sep then ([], r)
    else let '(a, b) := split_once sep r in (c :: a, b)
  end.

Section Whitespace.
(** [str.isspace] on a single code point; it comes from the Unicode
    database (see [Unicode.UCD] below). *)
Variable isspace : codepoint -> bool.

Fixpoint lstrip (s : str) : str :=
  match s with
  | [] => []
  | c :: r => if isspace c then lstrip r else s
  end.

Definition rstrip (s : str) : str := rev (lstrip (rev s)).

(** [s.strip()] *)
Definition strip (s : str) : str := rstrip (lstrip s).

(** [s.split()]: split on runs of whitespace, no empty words. *)
Fixpoint split_ws_aux (cur : str) (s : str) : list str :=
  match s with
  | [] => match cur with [] => [] | _ => [rev cur] end
  | c :: r =>
    if isspace c
    then match cur with
         | [] => split_ws_aux [] r
         | _ => rev cur :: split_ws_aux [] r
         end
    else split_ws_aux (c :: cur) r
  end.

Definition split_ws (s : str) : list str := split_ws_aux [] s.
End Whitespace.

(** ** Numbers *)

Definition str_of_N (n : N) : str :=
  lit (NilZero.string_of_uint (N.to_uint n)).

(** Left padding with zeros to a width, as in the fractional digits of a
    fixed-point rendering. *)
Definition zfill (width : nat) (s : str) : str :=
  repeat 0x30%N (width - List.length s) ++ s.

(** Round to nearest, ties to even, of the non-negative rational
    [num / den]. *)
Definition round_half_even (num den : Z) : Z :=
  let q := (num / den)%Z in
  let r := (num mod den)%Z in
  match (2 * r ?= den)%Z with
  | Lt => q
  | Gt => (q + 1)%Z
  | Eq => if Z.even q then q else (q + 1)%Z
  end.

(** [format(x, '.3f')]: the correctly rounded rendering of a binary64 with
    three fractional digits; non-finite values print as [nan], [inf] and
    [-inf], and the sign of a negative value is kept even when it rounds to
    zero. *)
Definition format_3f (x : float) : str :=
  match Prim2SF x with
  | S754_nan => lit "nan"
  | S754_infinity s => if s then lit "-inf" else lit "inf"
  | S754_zero s => (if s then lit "-" else []) ++ lit "0.000"
  | S754_finite s m e =>
    let thousandths :=
      if (0 <=? e)%Z then (Z.pos m * 2 ^ e * 1000)%Z
      else round_half_even (Z.pos m * 1000) (2 ^ (- e)) in
    (if s then lit "-" else [])
      ++ str_of_N (Z.to_N (thousandths / 1000))
      ++ lit "."
      ++ zfill 3 (str_of_N (Z.to_N (thousandths mod 1000)))
  end.

(** [int(x)] for a float: truncation toward zero.  Python raises on NaN and
    on the infinities; the only floats converted in this program are
    differences of two readings of the system clock scaled by 1000, which are
    finite, and the model returns 0 on the non-finite ones. *)
Definition int_of_float (x : float) : Z :=
  match Prim2SF x with
  | S754_finite s m e =>
    let mag := if (0 <=? e)%Z then (Z.pos m * 2 ^ e)%Z
               else (Z.pos m / 2 ^ (- e))%Z in
    if s then (- mag)%Z else mag
  | _ => 0%Z
  end.

End Py.

Notation "'u' s" := (Py.lit s%string) (at level 1, only parsing).

Definition py (s : string) : Py.str := Py.lit s.
Arguments py s%_string.

(* ================================================================== *)
(** * The Unicode operations of the Python runtime *)
(* ================================================================== *)

(** [unicodedata], [str.lower], [str.upper], [str.isspace] and the classes
    [\w] and [\s] of [re] are driven by the Unicode Character Database.  The
    database is a parameter of the functions below; [GreekUCD] further down
    instantiates it on the code points of Greek text. *)

Module Unicode.
Import Py.

Record UCD := {
  (** full canonical decomposition of a code point ([[c]] when it has none) *)
  decomposition : codepoint -> list codepoint;
  (** [unicodedata.combining]: the canonical combining class *)
  combining : codepoint -> N;
  (** full lower-case and upper-case mappings of a single code point *)
  tolower : codepoint -> list codepoint;
  toupper : codepoint -> list codepoint;
  (** the properties Cased and Case_Ignorable *)
  iscased : codepoint -> bool;
  iscaseignorable : codepoint -> bool;
  (** the general category is a combining mark (Mn, Mc or Me) *)
  ismark : codepoint -> bool;
  (** [str.isalpha], [str.isalnum] and [str.isspace] on one code point *)
  isalpha : codepoint -> bool;
  isalnum : codepoint -> bool;
  isspace : codepoint -> bool;
  (** value of a decimal digit, for [int()] *)
  decimal : codepoint -> option N
}.

Section WithUCD.
Variable db : UCD.

(** Canonical ordering: a combining mark moves in front of the marks before
    it that have a strictly greater combining class. *)
Fixpoint insert_mark (c : codepoint) (rev_prefix : str) : str :=
  match rev_prefix with
  | p :: r =>
    if (0 <? combining db p)%N && (combining db c <? combining db p)%N
    then p :: insert_mark c r
    else c :: rev_prefix
  | [] => [c]
  end.

Definition canonical_order (s : str) : str :=
  rev (fold_left
         (fun acc c => if (combining db c =? 0)%N then c :: acc
                       else insert_mark c acc)
         s []).

(** [unicodedata.normalize('NFD', s)] *)
Definition normalize_NFD (s : str) : str :=
  canonical_order (flat_map (decomposition db) s).

(** The first code point of [s] that is not case-ignorable. *)
Fixpoint skip_ignorable (s : str) : option codepoint :=
  match s with
  | [] => None
  | c :: r => if iscaseignorable db c then skip_ignorable r else Some c
  end.

(** Lower-casing of capital sigma (U+03A3): final sigma (U+03C2) when a
    cased letter precedes it and none follows, case-ignorable code points
    being skipped on both sides; medial sigma (U+03C3) otherwise. *)
Definition handle_capital_sigma (before_rev after : str) : codepoint :=
  let final_sigma :=
    match skip_ignorable before_rev with
    | Some p =>
      iscased db p &&
      match skip_ignorable after with
      | Some n => negb (iscased db n)
      | None => true
      end
    | None => false
    end in
  if final_sigma then 0x3C2%N else 0x3C3%N.

Fixpoint lower_from (before_rev : str) (s : str) : str :=
  match s with
  | [] => []
  | c :: r =>
    (if (c =? 0x3A3)%N then [handle_capital_sigma before_rev r]
     else tolower db c)
      ++ lower_from (c :: before_rev) r
  end.

(** [s.lower()] *)
Definition lower (s : str) : str := lower_from [] s.

(** [s.upper()] *)
Definition upper (s : str) : str := flat_map (toupper db) s.

(** The classes [\w] and [\s] of [re] on [str] patterns. *)
Definition re_word (c : codepoint) : bool := isalnum db c || (c =? 0x5F)%N.
Definition re_space (c : codepoint) : bool := isspace db c.

(** [int(s)] for a string, base 10: surrounding whitespace is stripped, one
    sign is allowed, and single underscores may separate digits. *)
Fixpoint digits_value (acc : Z) (prev_digit : bool) (s : str) : option Z :=
  match s with
  | [] => if prev_digit then Some acc else None
  | c :: r =>
    match decimal db c with
    | Some d => digits_value (acc * 10 + Z.of_N d) true r
    | None =>
      if (c =? 0x5F)%N && prev_digit then digits_value acc false r else None
    end
  end.

Definition int_of_str (s : str) : option Z :=
  match strip (isspace db) s with
  | [] => None
  | c :: r =>
    if (c =? 0x2D)%N then option_map Z.opp (digits_value 0 false r)
    else if (c =? 0x2B)%N then digits_value 0 false r
    else digits_value 0 false (c :: r)
  end.
End WithUCD.

End Unicode.

(* ================================================================== *)
(** * scripts/process_greek.py: GreekProcessor *)
(* ================================================================== *)

Module GreekProcessor.
Import Py Unicode.

Section WithUCD.
Variable db : UCD.

(** [GreekProcessor.normalize]: decompose, drop the code points with a
    non-zero combining class, lower-case, delete what is neither a word
    character nor whitespace, strip. *)
Definition normalize (text : str) : str :=
  let nfd := normalize_NFD db text in
  let text := filter (fun char => (combining db char =? 0)%N) nfd in
  let text := lower db text in
  let text := filter (fun c => re_word db c || re_space db c) text in
  strip (isspace db) text.

(** [word.endswith(ending)] and [word[:-len(ending)]] *)
Definition endswith (word ending : str) : bool :=
  (List.length ending <=? List.length word)%nat
  && eqb (skipn (List.length word - List.length ending) word) ending.

Definition drop_last (n : nat) (word : str) : str :=
  firstn (List.length word - n) word.

(** The endings [simple_lemmatize] strips; three of them end in final
    sigma, as they occur in normalized text. *)
Definition endings : list str :=
  [py "ος"; py "ον"; py "ου"; py "ων"; py "ας"; py "αι"; py "ης"; py "ει"].

Fixpoint strip_first_ending (es : list str) (word : str) : str :=
  match es with
  | [] => word
  | ending :: es' =>
    if endswith word ending then drop_last (List.length ending) word
    else strip_first_ending es' word
  end.

Fixpoint join_space (ws : list str) : str :=
  match ws with
  | [] => []
  | [w] => w
  | w :: rest => w ++ 0x20%N :: join_space rest
  end.

(** [GreekProcessor.simple_lemmatize] *)
Definition simple_lemmatize (text : str) : str :=
  let words := split_ws (isspace db) text in
  join_space
    (map (fun word =>
            if (4 <? List.length word)%nat
            then strip_first_ending endings word else word)
         words).
End WithUCD.

End GreekProcessor.

(* ================================================================== *)
(** * The word overlap of the specification *)
(* ================================================================== *)

(** tests/test_word_overlap.py imports [_normalize_greek] and
    [_count_shared_words] from src/search/detector.py, which defines
    neither. *)

Module WordOverlap.
Import Py Unicode.

Section WithUCD.
Variable db : UCD.

(** Modelled from the spec: the normalizer of the word overlap
    ([_normalize_greek], missing from detector.py), after the six steps of
    section 4.1: canonical decomposition; removal of the combining marks;
    lower-casing with the full mappings; final sigma to medial sigma;
    removal of what is neither a letter nor whitespace; runs of whitespace
    collapsed to one space, none at the ends. *)
Definition normalize (text : str) : str :=
  let step1 := normalize_NFD db text in
  let step2 := filter (fun c => negb (ismark db c)) step1 in
  let step3 := lower db step2 in
  let step4 := map (fun c => if (c =? 0x3C2)%N then 0x3C3%N else c) step3 in
  let step5 := filter (fun c => isalpha db c || isspace db c) step4 in
  GreekProcessor.join_space (split_ws (isspace db) step5).

(** The set of the words of a text that have at least [min_len] letters. *)
Definition tokens (min_len : nat) (text : str) : list str :=
  nodup (list_eq_dec N.eq_dec)
        (filter (fun t => (min_len <=? List.length t)%nat)
                (split_ws (isspace db) (normalize text))).

(** Modelled from the spec: [count_shared_words(a, b, min_len)]
    ([_count_shared_words], missing from detector.py), after section 4.2:
    both texts are normalized and split on whitespace, and the result is the
    number of words of at least [min_len] letters that occur in both. *)
Definition count_shared_words (a b : str) (min_len : nat) : nat :=
  List.length
    (filter (fun t => existsb (eqb t) (tokens min_len b)) (tokens min_len a)).
End WithUCD.

End WordOverlap.

(* ================================================================== *)
(** * Data model *)
(* ================================================================== *)

Open Scope Z_scope.

(** A Python exception: its class name and [str(e)].  Every exception met
    in this program derives from [Exception], so [except Exception] catches
    all of them. *)
Record Exception := { exc_class : Py.str; exc_message : Py.str }.

Definition ValueError (msg : Py.str) : Exception :=
  {| exc_class := py "ValueError"; exc_message := msg |}.
Definition AttributeError (msg : Py.str) : Exception :=
  {| exc_class := py "AttributeError"; exc_message := msg |}.

(** A candidate as [QdrantManager.search] formats it: a dict with exactly
    the keys [id], [score], [text], [reference], [book], [chapter], [verse]
    and [source]; [chapter] and [verse] come from [payload.get] without a
    default and may be [None].  The key [greek_original] is never set, so
    [c.get("greek_original")] is [None]. *)
Record Candidate := {
  c_id : Z;
  c_score : float;
  c_text : Py.str;
  c_reference : Py.str;
  c_book : Py.str;
  c_chapter : option Z;
  c_verse : option Z;
  c_source : Py.str
}.

(** src/llm/claude_client.py *)
Inductive MatchType :=
| EXACT | CLOSE_PARAPHRASE | LOOSE_PARAPHRASE | ALLUSION | NON_BIBLICAL
| UNCERTAIN.

Record VerificationResult := {
  v_is_quotation : bool;
  v_match_type : MatchType;
  v_confidence : Z;
  v_explanation : Py.str;
  v_best_match_reference : option Py.str;
  v_best_match_text : option Py.str
}.

Record ClaudeClient := {
  api_key : Py.str;
  model : Py.str;
  max_tokens : Z;
  temperature : float
}.

(** The prompt sent to the completion service.  Its fixed prose is left out;
    what is kept is what the f-string interpolates: the input text and, for
    each of the first five candidates, the reference, the text and the score
    rendered with three decimals. *)
Record Prompt := {
  prompt_input_text : Py.str;
  prompt_candidates : list (Py.str * Py.str * Py.str)
}.

(** src/memory/qdrant_manager.py: the handle of the vector store. *)
Record QdrantManager := { collection_name : Py.str }.

(** src/search/detector.py *)
Record DetectionSource := {
  reference : Py.str;
  book : Py.str;
  chapter : option Z;
  verse : option Z;
  greek_text : Py.str;
  greek_original : option Py.str;
  similarity_score : float;
  source_edition : Py.str
}.

Record DetectionResult := {
  input_text : Py.str;
  is_quotation : bool;
  confidence : Z;
  match_type : Py.str;
  sources : list DetectionSource;
  best_match : option DetectionSource;
  explanation : Py.str;
  processing_time_ms : Z
}.

Definition set_is_quotation (b : bool) (r : DetectionResult) :=
  {| input_text := input_text r; is_quotation := b;
     confidence := confidence r; match_type := match_type r;
     sources := sources r; best_match := best_match r;
     explanation := explanation r;
     processing_time_ms := processing_time_ms r |}.

Definition set_sources (l : list DetectionSource) (r : DetectionResult) :=
  {| input_text := input_text r; is_quotation := is_quotation r;
     confidence := confidence r; match_type := match_type r;
     sources := l; best_match := best_match r;
     explanation := explanation r;
     processing_time_ms := processing_time_ms r |}.

Definition set_processing_time_ms (t : Z) (r : DetectionResult) :=
  {| input_text := input_text r; is_quotation := is_quotation r;
     confidence := confidence r; match_type := match_type r;
     sources := sources r; best_match := best_match r;
     explanation := explanation r;
     processing_time_ms := t |}.

Record QuotationDetector := {
  use_llm : bool;
  min_similarity : float;
  top_k : Z;
  db_path : Py.str;
  _qdrant_manager : option QdrantManager;
  _claude_client : option ClaudeClient
}.

Definition set_qdrant_manager (m : QdrantManager) (d : QuotationDetector) :=
  {| use_llm := use_llm d; min_similarity := min_similarity d;
     top_k := top_k d; db_path := db_path d;
     _qdrant_manager := Some m; _claude_client := _claude_client d |}.

Definition set_claude_client (c : ClaudeClient) (d : QuotationDetector) :=
  {| use_llm := use_llm d; min_similarity := min_similarity d;
     top_k := top_k d; db_path := db_path d;
     _qdrant_manager := _qdrant_manager d; _claude_client := Some c |}.

(** ** The world outside the program *)

(** What the program asks of its environment.  The vector store and the
    environment variable are fixed; the clock and the completion service
    answer by the number of the request, so that two readings of the clock,
    or two completions of one prompt, may differ. *)
Record World := {
  (** [os.getenv("ANTHROPIC_API_KEY")] *)
  getenv_ANTHROPIC_API_KEY : option Py.str;
  (** [QdrantManager()] *)
  QdrantManager_new : Exception + QdrantManager;
  (** [QdrantManager.search(query, limit, score_threshold)]: embedding,
      nearest-neighbour query and formatting; any failure is re-raised *)
  QdrantManager_search : Py.str -> Z -> float -> Exception + list Candidate;
  (** [client.messages.create(...)] followed by [response.content[0].text] *)
  messages_create : nat -> Prompt -> Exception + Py.str;
  (** [time.time()] *)
  clock : nat -> float
}.

(** The mutable state of a run: the detector object and the numbers of
    clock readings and completion requests made so far. *)
Record State := {
  self : QuotationDetector;
  clock_reads : nat;
  llm_requests : nat
}.

(** ** State and exceptions *)

Definition M (A : Type) : Type := State -> (Exception + A) * State.

Definition ret {A} (a : A) : M A := fun s => (inr a, s).

Definition raise {A} (e : Exception) : M A := fun s => (inl e, s).

Definition bind {A B} (m : M A) (k : A -> M B) : M B :=
  fun s => match m s with
           | (inr a, s') => k a s'
           | (inl e, s') => (inl e, s')
           end.

(** [try: m except Exception as e: h e]; what [m] did to the state before
    it raised stays done. *)
Definition try_except {A} (m : M A) (h : Exception -> M A) : M A :=
  fun s => match m s with
           | (inr a, s') => (inr a, s')
           | (inl e, s') => h e s'
           end.

Definition lift {A} (r : Exception + A) : M A :=
  match r with inl e => raise e | inr a => ret a end.

Definition get_self : M QuotationDetector := fun s => (inr (self s), s).

Definition put_self (d : QuotationDetector) : M unit :=
  fun s => (inr tt, {| self := d; clock_reads := clock_reads s;
                       llm_requests := llm_requests s |}).

Notation "x <- m ;; k" := (bind m (fun x => k))
  (at level 61, m at next level, right associativity).

(** The list comprehension [[f(x) for x in xs]]: the calls run in order, and
    the first exception ends the evaluation. *)
Fixpoint mapM {A B} (f : A -> M B) (xs : list A) : M (list B) :=
  match xs with
  | [] => ret []
  | x :: xs' => y <- f x ;; ys <- mapM f xs' ;; ret (y :: ys)
  end.

(* ================================================================== *)
(** * src/llm/claude_client.py *)
(* ================================================================== *)

Module Claude.
Import Py Unicode.

(** [MatchType.value] *)
Definition value (m : MatchType) : str :=
  match m with
  | EXACT => py "exact"
  | CLOSE_PARAPHRASE => py "close_paraphrase"
  | LOOSE_PARAPHRASE => py "loose_paraphrase"
  | ALLUSION => py "allusion"
  | NON_BIBLICAL => py "non_biblical"
  | UNCERTAIN => py "uncertain"
  end.

Definition members : list MatchType :=
  [EXACT; CLOSE_PARAPHRASE; LOOSE_PARAPHRASE; ALLUSION; NON_BIBLICAL;
   UNCERTAIN].

(** [MatchType(s)]: the member whose value is [s]; [None] stands for the
    [ValueError] of a string that is no member's value. *)
Definition MatchType_of_value (s : str) : option MatchType :=
  find (fun m => eqb (value m) s) members.

(** A [dict] with string keys, the latest binding of a key first. *)
Definition dict := list (str * str).

Definition dict_set (k v : str) (d : dict) : dict := (k, v) :: d.

(** [d.get(k, default)] *)
Definition dict_get (d : dict) (k : str) (default : str) : str :=
  match find (fun kv => eqb (fst kv) k) d with
  | Some kv => snd kv
  | None => default
  end.

Section WithEnvironment.
Variable db : UCD.
Variable w : World.

(** [ClaudeClient.__init__] with its default arguments *)
Definition __init__ : M ClaudeClient :=
  let api_key := getenv_ANTHROPIC_API_KEY w in
  match api_key with
  | None => raise (ValueError (py "ANTHROPIC_API_KEY not set in environment"))
  | Some key =>
    if negb (truthy key) || eqb key (py "your_key_here")
    then raise (ValueError (py "ANTHROPIC_API_KEY not set in environment"))
    else ret {| api_key := key;
                model := py "claude-sonnet-4-20250514";
                max_tokens := 1024;
                temperature := 0.1%float |}
  end.

(** [_build_verification_prompt] *)
Definition _build_verification_prompt
           (input_text : str) (candidates : list Candidate) : Prompt :=
  {| prompt_input_text := input_text;
     prompt_candidates :=
       map (fun c => (c_reference c, c_text c, format_3f (c_score c)))
           (firstn 5 candidates) |}.

(** [_parse_verification_response] *)
Definition parse_lines (lines : list str) : dict :=
  fold_left
    (fun result_dict line =>
       if contains 0x3A%N line then
         let '(key, value) := split_once 0x3A%N line in
         dict_set (upper db (strip (isspace db) key))
                  (strip (isspace db) value) result_dict
       else result_dict)
    lines [].

Definition _parse_verification_response
           (response_text : str) (candidates : list Candidate)
  : VerificationResult :=
  let lines := split_on 0x0A%N (strip (isspace db) response_text) in
  let result_dict := parse_lines lines in
  let is_quotation :=
    eqb (lower db (dict_get result_dict (py "IS_QUOTATION") (py "no")))
        (py "yes") in
  let match_type_str :=
    lower db (dict_get result_dict (py "MATCH_TYPE") (py "non_biblical")) in
  let match_type :=
    match MatchType_of_value match_type_str with
    | Some m => m
    | None => UNCERTAIN
    end in
  let confidence :=
    match int_of_str db (dict_get result_dict (py "CONFIDENCE") (py "50")) with
    | Some n => Z.max 0 (Z.min 100 n)
    | None => 50
    end in
  let explanation :=
    dict_get result_dict (py "EXPLANATION") (py "No explanation provided.") in
  let best_reference :=
    let r := dict_get result_dict (py "BEST_REFERENCE") (py "none") in
    if eqb (lower db r) (py "none") then None else Some r in
  let best_match_text :=
    match best_reference with
    | Some r =>
      if truthy r
      then option_map c_text (find (fun c => eqb (c_reference c) r) candidates)
      else None
    | None => None
    end in
  {| v_is_quotation := is_quotation;
     v_match_type := match_type;
     v_confidence := confidence;
     v_explanation := explanation;
     v_best_match_reference := best_reference;
     v_best_match_text := best_match_text |}.

(** The request to the completion service; the requests are counted. *)
Definition create (prompt : Prompt) : M str :=
  fun s =>
    (messages_create w (llm_requests s) prompt,
     {| self := self s; clock_reads := clock_reads s;
        llm_requests := S (llm_requests s) |}).

(** [ClaudeClient.verify_quotation] *)
Definition verify_quotation (client : ClaudeClient)
           (input_text : str) (candidates : list Candidate)
  : M VerificationResult :=
  match candidates with
  | [] =>
    ret {| v_is_quotation := false;
           v_match_type := NON_BIBLICAL;
           v_confidence := 90;
           v_explanation := py "No candidate matches found in vector search.";
           v_best_match_reference := None;
           v_best_match_text := None |}
  | _ :: _ =>
    let prompt := _build_verification_prompt input_text candidates in
    try_except
      (response_text <- create prompt ;;
       ret (_parse_verification_response response_text candidates))
      (fun e =>
         ret {| v_is_quotation := false;
                v_match_type := UNCERTAIN;
                v_confidence := 0;
                v_explanation :=
                  py "Error during verification: " ++ exc_message e;
                v_best_match_reference := None;
                v_best_match_text := None |})
  end.
End WithEnvironment.

End Claude.

(* ================================================================== *)
(** * src/search/detector.py *)
(* ================================================================== *)

Module Detector.
Import Py.

(** [QuotationDetector.__init__]: the configuration is stored and both
    clients are left for lazy initialisation. *)
Definition __init__ (use_llm : bool) (db_path : str)
           (min_similarity : float) (top_k : Z) : QuotationDetector :=
  {| use_llm := use_llm; min_similarity := min_similarity; top_k := top_k;
     db_path := db_path; _qdrant_manager := None; _claude_client := None |}.

(** The conversion of a candidate in [detect]. *)
Definition source_of (c : Candidate) : DetectionSource :=
  {| reference := c_reference c;
     book := c_book c;
     chapter := c_chapter c;
     verse := c_verse c;
     greek_text := c_text c;
     greek_original := None;
     similarity_score := c_score c;
     source_edition := c_source c |}.

(** [_heuristic_classify] *)
Definition _heuristic_classify (text : str) (candidates : list Candidate)
           (sources : list DetectionSource) : DetectionResult :=
  match candidates with
  | [] =>
    {| input_text := text;
       is_quotation := false;
       confidence := 90;
       match_type := py "non_biblical";
       sources := [];
       best_match := None;
       explanation := py "No candidates found.";
       processing_time_ms := 0 |}
  | c0 :: _ =>
    let top_score := c_score c0 in
    let best_match := hd_error sources in
    let '(match_type, confidence, is_quotation) :=
      if (0.95 <=? top_score)%float then (py "exact", 95, true)
      else if (0.85 <=? top_score)%float then (py "close_paraphrase", 85, true)
      else if (0.75 <=? top_score)%float then (py "loose_paraphrase", 70, true)
      else if (0.65 <=? top_score)%float then (py "allusion", 55, true)
      else (py "non_biblical", 60, false) in
    let explanation :=
      py "Heuristic classification based on similarity score ("
         ++ format_3f top_score ++ py "). Top match: "
         ++ match best_match with
            | Some b => reference b
            | None => py "none"
            end
         ++ py "." in
    {| input_text := text;
       is_quotation := is_quotation;
       confidence := confidence;
       match_type := match_type;
       sources := firstn 3 sources;
       best_match := best_match;
       explanation := explanation;
       processing_time_ms := 0 |}
  end.

Section WithEnvironment.
Variable db : Unicode.UCD.
Variable w : World.

(** [time.time()] *)
Definition time_time : M float :=
  fun s =>
    (inr (clock w (clock_reads s)),
     {| self := self s; clock_reads := S (clock_reads s);
        llm_requests := llm_requests s |}).

(** [int((time.time() - start_time) * 1000)] *)
Definition elapsed_ms (start_time : float) : M Z :=
  now <- time_time ;;
  ret (int_of_float ((now - start_time) * 1000)%float).

(** The property [qdrant_manager] *)
Definition qdrant_manager : M QdrantManager :=
  d <- get_self ;;
  match _qdrant_manager d with
  | None =>
    m <- lift (QdrantManager_new w) ;;
    _ <- put_self (set_qdrant_manager m d) ;;
    ret m
  | Some m => ret m
  end.

(** The property [claude_client] *)
Definition claude_client : M (option ClaudeClient) :=
  d <- get_self ;;
  match _claude_client d with
  | None =>
    if use_llm d then
      c <- Claude.__init__ w ;;
      _ <- put_self (set_claude_client c d) ;;
      ret (Some c)
    else ret None
  | Some c => ret (Some c)
  end.

(** [_vector_search] *)
Definition _vector_search (text : str) : M (list Candidate) :=
  try_except
    (_ <- qdrant_manager ;;
     d <- get_self ;;
     lift (QdrantManager_search w text (top_k d) (min_similarity d)))
    (fun e => ret []).

(** The search for the best match in [_llm_verify]. *)
Definition find_best_match (verification : VerificationResult)
           (sources : list DetectionSource) : option DetectionSource :=
  let best_match :=
    match v_best_match_reference verification with
    | Some r =>
      if truthy r then find (fun source => eqb (reference source) r) sources
      else None
    | None => None
    end in
  match best_match with
  | None =>
    if v_is_quotation verification then hd_error sources else None
  | Some b => Some b
  end.

(** [_llm_verify] *)
Definition _llm_verify (text : str) (candidates : list Candidate)
           (sources : list DetectionSource) : M DetectionResult :=
  try_except
    (client <- claude_client ;;
     match client with
     | None =>
       raise (AttributeError
                (py "'NoneType' object has no attribute 'verify_quotation'"))
     | Some client =>
       verification <- Claude.verify_quotation db w client text candidates ;;
       ret {| input_text := text;
              is_quotation := v_is_quotation verification;
              confidence := v_confidence verification;
              match_type := Claude.value (v_match_type verification);
              sources := firstn 3 sources;
              best_match := find_best_match verification sources;
              explanation := v_explanation verification;
              processing_time_ms := 0 |}
     end)
    (fun e => ret (_heuristic_classify text candidates sources)).

(** [detect] *)
Definition detect (text : str) (min_confidence : Z)
           (include_all_candidates : bool) : M DetectionResult :=
  start_time <- time_time ;;
  candidates <- _vector_search text ;;
  match candidates with
  | [] =>
    t <- elapsed_ms start_time ;;
    ret {| input_text := text;
           is_quotation := false;
           confidence := 90;
           match_type := py "non_biblical";
           sources := [];
           best_match := None;
           explanation :=
             py "No similar biblical texts found in vector search.";
           processing_time_ms := t |}
  | _ :: _ =>
    let sources := map source_of candidates in
    d <- get_self ;;
    result <- (if use_llm d then _llm_verify text candidates sources
               else ret (_heuristic_classify text candidates sources)) ;;
    let result :=
      if confidence result <? min_confidence
      then set_is_quotation false result else result in
    let result :=
      if include_all_candidates then set_sources sources result
      else set_sources (firstn 3 sources) result in
    t <- elapsed_ms start_time ;;
    ret (set_processing_time_ms t result)
  end.

(** [detect_batch]: the loop appends each result to [results]. *)
Fixpoint detect_batch_loop (results : list DetectionResult)
         (texts : list str) (min_confidence : Z) : M (list DetectionResult) :=
  match texts with
  | [] => ret results
  | text :: texts' =>
    result <- detect text min_confidence false ;;
    detect_batch_loop (results ++ [result]) texts' min_confidence
  end.

Definition detect_batch (texts : list str) (min_confidence : Z)
  : M (list DetectionResult) :=
  detect_batch_loop [] texts min_confidence.

(** [search_similar]: the search without a score floor and without a
    handler, so a failure of the vector store is raised to the caller; the
    conversion leaves [greek_original] at its default [None]. *)
Definition search_similar (text : str) (limit : Z) : M (list DetectionSource) :=
  _ <- qdrant_manager ;;
  candidates <- lift (QdrantManager_search w text limit 0.0%float) ;;
  ret (map source_of candidates).
End WithEnvironment.

End Detector.

(* ================================================================== *)
(** * src/api/models.py and src/api/routes/detection.py *)
(* ================================================================== *)

Module Api.
Import Py.

(** [MatchType] of the API: five members, [uncertain] is not one. *)
Inductive MatchType :=
| MT_exact | MT_close_paraphrase | MT_loose_paraphrase | MT_allusion
| MT_non_biblical.

Definition value (m : MatchType) : str :=
  match m with
  | MT_exact => py "exact"
  | MT_close_paraphrase => py "close_paraphrase"
  | MT_loose_paraphrase => py "loose_paraphrase"
  | MT_allusion => py "allusion"
  | MT_non_biblical => py "non_biblical"
  end.

Definition members : list MatchType :=
  [MT_exact; MT_close_paraphrase; MT_loose_paraphrase; MT_allusion;
   MT_non_biblical].

(** [MatchType(s)]; a string that is no member's value raises
    [ValueError]. *)
Definition MatchType_of_value (s : str) : Exception + MatchType :=
  match find (fun m => eqb (value m) s) members with
  | Some m => inr m
  | None => inl (ValueError (py "'" ++ s ++ py "' is not a valid MatchType"))
  end.

Inductive DetectionMode := llm | heuristic.

Record DetectRequest := {
  text : str;
  min_confidence : Z;
  mode : DetectionMode;
  include_all_candidates : bool
}.

Record SourceMatch := {
  sm_reference : str;
  sm_book : str;
  sm_chapter : Z;
  sm_verse : Z;
  sm_greek_text : str;
  sm_similarity_score : float;
  sm_source_edition : option str
}.

Record DetectResponse := {
  r_input_text : str;
  r_is_quotation : bool;
  r_confidence : Z;
  r_match_type : MatchType;
  r_sources : list SourceMatch;
  r_best_match : option SourceMatch;
  r_explanation : str;
  r_processing_time_ms : Z
}.

Record HTTPException := { status_code : Z; detail : str }.

(** The error of the model validation; the text of its message is not
    modelled. *)
Definition ValidationError : Exception :=
  {| exc_class := py "ValidationError"; exc_message := py "validation error" |}.

(** The construction of a [SourceMatch] from a source: [chapter] and
    [verse] are required integers, so [None] is refused; an empty
    [source_edition] becomes [None]. *)
Definition SourceMatch_of (s : DetectionSource) : Exception + SourceMatch :=
  match chapter s, verse s with
  | Some ch, Some vs =>
    inr {| sm_reference := reference s;
           sm_book := book s;
           sm_chapter := ch;
           sm_verse := vs;
           sm_greek_text := greek_text s;
           sm_similarity_score := similarity_score s;
           sm_source_edition :=
             if truthy (source_edition s) then Some (source_edition s)
             else None |}
  | _, _ => inl ValidationError
  end.

(** The list comprehension over the sources: the first refusal ends it. *)
Fixpoint SourceMatches_of (l : list DetectionSource)
  : Exception + list SourceMatch :=
  match l with
  | [] => inr []
  | s :: l' =>
    match SourceMatch_of s with
    | inl e => inl e
    | inr m =>
      match SourceMatches_of l' with
      | inl e => inl e
      | inr ms => inr (m :: ms)
      end
    end
  end.

(** [result_to_response]: the sources, then the best match, then the match
    type, then the validation of the response, whose [confidence] must lie
    between 0 and 100. *)
Definition result_to_response (result : DetectionResult)
  : Exception + DetectResponse :=
  match SourceMatches_of (sources result) with
  | inl e => inl e
  | inr sources =>
    match match best_match result with
          | Some b => match SourceMatch_of b with
                      | inl e => inl e
                      | inr m => inr (Some m)
                      end
          | None => inr None
          end with
    | inl e => inl e
    | inr best_match =>
      match MatchType_of_value (match_type result) with
      | inl e => inl e
      | inr match_type =>
        if (0 <=? confidence result) && (confidence result <=? 100)
        then inr {| r_input_text := input_text result;
                    r_is_quotation := is_quotation result;
                    r_confidence := confidence result;
                    r_match_type := match_type;
                    r_sources := sources;
                    r_best_match := best_match;
                    r_explanation := explanation result;
                    r_processing_time_ms := processing_time_ms result |}
        else inl ValidationError
      end
    end
  end.

(** The two module-level detectors of the routes and the counters of the
    run. *)
Record ApiState := {
  _detector_llm : option QuotationDetector;
  _detector_heuristic : option QuotationDetector;
  api_clock_reads : nat;
  api_llm_requests : nat
}.

(** [get_detector]: the detector of the mode, created with the default
    configuration at its first use. *)
Definition get_detector (use_llm : bool) (st : ApiState) : QuotationDetector :=
  match (if use_llm then _detector_llm st else _detector_heuristic st) with
  | Some d => d
  | None =>
    Detector.__init__ use_llm (py "data/processed/bible.db") 0.7%float 10
  end.

(** The detector of the mode after a call; it is one object, so what the
    call did to it stays. *)
Definition put_detector (use_llm : bool) (s : State) (st : ApiState)
  : ApiState :=
  {| _detector_llm := if use_llm then Some (self s) else _detector_llm st;
     _detector_heuristic :=
       if use_llm then _detector_heuristic st else Some (self s);
     api_clock_reads := clock_reads s;
     api_llm_requests := llm_requests s |}.

Section WithEnvironment.
Variable db : Unicode.UCD.
Variable w : World.

(** [detect_quotation], the handler of [POST /detect]: any exception
    becomes the HTTP error 500 with its message. *)
Definition detect_quotation (request : DetectRequest) (st : ApiState)
  : (HTTPException + DetectResponse) * ApiState :=
  let use_llm := match mode request with llm => true | heuristic => false end in
  let detector := get_detector use_llm st in
  let '(outcome, s') :=
    Detector.detect db w (text request) (min_confidence request)
                    (include_all_candidates request)
                    {| self := detector;
                       clock_reads := api_clock_reads st;
                       llm_requests := api_llm_requests st |} in
  let st' := put_detector use_llm s' st in
  match outcome with
  | inl e => (inl {| status_code := 500; detail := exc_message e |}, st')
  | inr result =>
    match result_to_response result with
    | inl e => (inl {| status_code := 500; detail := exc_message e |}, st')
    | inr response => (inr response, st')
    end
  end.
End WithEnvironment.

End Api.

(* ================================================================== *)
(** * The Unicode database on Greek text *)
(* ================================================================== *)

(** The Unicode Character Database (version 14.0) on the code points of
    Greek text: ASCII, the blocks U+0300-U+03FF (combining diacritical marks,
    Greek and Coptic) and U+1F00-U+1FFF (Greek Extended), which are the
    ranges [GreekProcessor.__init__] names, and the four code points U+00A8,
    U+00B4, U+00B7 and U+02B9 their decompositions lead to.  The set is closed
    under decomposition and under both case mappings.  A code point without
    an entry in a table decomposes and maps to itself, has combining class 0
    and has none of the properties; outside the set above this is not the
    Unicode database, and the examples stay inside it. *)

Module GreekUCD.
Import Py Unicode.
Local Open Scope N_scope.

(** Full canonical decompositions ([unicodedata.normalize('NFD', c)]). *)
Definition decomposition_table : list (codepoint * list codepoint) :=
  [(0x340, [0x300]); (0x341, [0x301]); (0x343, [0x313]);
   (0x344, [0x308; 0x301]); (0x374, [0x2B9]); (0x37E, [0x3B]);
   (0x385, [0xA8; 0x301]); (0x386, [0x391; 0x301]); (0x387, [0xB7]);
   (0x388, [0x395; 0x301]); (0x389, [0x397; 0x301]); (0x38A, [0x399; 0x301]);
   (0x38C, [0x39F; 0x301]); (0x38E, [0x3A5; 0x301]); (0x38F, [0x3A9; 0x301]);
   (0x390, [0x3B9; 0x308; 0x301]); (0x3AA, [0x399; 0x308]);
   (0x3AB, [0x3A5; 0x308]); (0x3AC, [0x3B1; 0x301]); (0x3AD, [0x3B5; 0x301]);
   (0x3AE, [0x3B7; 0x301]); (0x3AF, [0x3B9; 0x301]);
   (0x3B0, [0x3C5; 0x308; 0x301]); (0x3CA, [0x3B9; 0x308]);
   (0x3CB, [0x3C5; 0x308]); (0x3CC, [0x3BF; 0x301]); (0x3CD, [0x3C5; 0x301]);
   (0x3CE, [0x3C9; 0x301]); (0x3D3, [0x3D2; 0x301]); (0x3D4, [0x3D2; 0x308]);
   (0x1F00, [0x3B1; 0x313]); (0x1F01, [0x3B1; 0x314]);
   (0x1F02, [0x3B1; 0x313; 0x300]); (0x1F03, [0x3B1; 0x314; 0x300]);
   (0x1F04, [0x3B1; 0x313; 0x301]); (0x1F05, [0x3B1; 0x314; 0x301]);
   (0x1F06, [0x3B1; 0x313; 0x342]); (0x1F07, [0x3B1; 0x314; 0x342]);
   (0x1F08, [0x391; 0x313]); (0x1F09, [0x391; 0x314]);
   (0x1F0A, [0x391; 0x313; 0x300]); (0x1F0B, [0x391; 0x314; 0x300]);
   (0x1F0C, [0x391; 0x313; 0x301]); (0x1F0D, [0x391; 0x314; 0x301]);
   (0x1F0E, [0x391; 0x313; 0x342]); (0x1F0F, [0x391; 0x314; 0x342]);
   (0x1F10, [0x3B5; 0x313]); (0x1F11, [0x3B5; 0x314]);
   (0x1F12, [0x3B5; 0x313; 0x300]); (0x1F13, [0x3B5; 0x314; 0x300]);
   (0x1F14, [0x3B5; 0x313; 0x301]); (0x1F15, [0x3B5; 0x314; 0x301]);
   (0x1F18, [0x395; 0x313]); (0x1F19, [0x395; 0x314]);
   (0x1F1A, [0x395; 0x313; 0x300]); (0x1F1B, [0x395; 0x314; 0x300]);
   (0x1F1C, [0x395; 0x313; 0x301]); (0x1F1D, [0x395; 0x314; 0x301]);
   (0x1F20, [0x3B7; 0x313]); (0x1F21, [0x3B7; 0x314]);
   (0x1F22, [0x3B7; 0x313; 0x300]); (0x1F23, [0x3B7; 0x314; 0x300]);
   (0x1F24, [0x3B7; 0x313; 0x301]); (0x1F25, [0x3B7; 0x314; 0x301]);
   (0x1F26, [0x3B7; 0x313; 0x342]); (0x1F27, [0x3B7; 0x314; 0x342]);
   (0x1F28, [0x397; 0x313]); (0x1F29, [0x397; 0x314]);
   (0x1F2A, [0x397; 0x313; 0x300]); (0x1F2B, [0x397; 0x314; 0x300]);
   (0x1F2C, [0x397; 0x313; 0x301]); (0x1F2D, [0x397; 0x314; 0x301]);
   (0x1F2E, [0x397; 0x313; 0x342]); (0x1F2F, [0x397; 0x314; 0x342]);
   (0x1F30, [0x3B9; 0x313]); (0x1F31, [0x3B9; 0x314]);
   (0x1F32, [0x3B9; 0x313; 0x300]); (0x1F33, [0x3B9; 0x314; 0x300]);
   (0x1F34, [0x3B9; 0x313; 0x301]); (0x1F35, [0x3B9; 0x314; 0x301]);
   (0x1F36, [0x3B9; 0x313; 0x342]); (0x1F37, [0x3B9; 0x314; 0x342]);
   (0x1F38, [0x399; 0x313]); (0x1F39, [0x399; 0x314]);
   (0x1F3A, [0x399; 0x313; 0x300]); (0x1F3B, [0x399; 0x314; 0x300]);
   (0x1F3C, [0x399; 0x313; 0x301]); (0x1F3D, [0x399; 0x314; 0x301]);
   (0x1F3E, [0x399; 0x313; 0x342]); (0x1F3F, [0x399; 0x314; 0x342]);
   (0x1F40, [0x3BF; 0x313]); (0x1F41, [0x3BF; 0x314]);
   (0x1F42, [0x3BF; 0x313; 0x300]); (0x1F43, [0x3BF; 0x314; 0x300]);
   (0x1F44, [0x3BF; 0x313; 0x301]); (0x1F45, [0x3BF; 0x314; 0x301]);
   (0x1F48, [0x39F; 0x313]); (0x1F49, [0x39F; 0x314]);
   (0x1F4A, [0x39F; 0x313; 0x300]); (0x1F4B, [0x39F; 0x314; 0x300]);
   (0x1F4C, [0x39F; 0x313; 0x301]); (0x1F4D, [0x39F; 0x314; 0x301]);
   (0x1F50, [0x3C5; 0x313]); (0x1F51, [0x3C5; 0x314]);
   (0x1F52, [0x3C5; 0x313; 0x300]); (0x1F53, [0x3C5; 0x314; 0x300]);
   (0x1F54, [0x3C5; 0x313; 0x301]); (0x1F55, [0x3C5; 0x314; 0x301]);
   (0x1F56, [0x3C5; 0x313; 0x342]); (0x1F57, [0x3C5; 0x314; 0x342]);
   (0x1F59, [0x3A5; 0x314]); (0x1F5B, [0x3A5; 0x314; 0x300]);
   (0x1F5D, [0x3A5; 0x314; 0x301]); (0x1F5F, [0x3A5; 0x314; 0x342]);
   (0x1F60, [0x3C9; 0x313]); (0x1F61, [0x3C9; 0x314]);
   (0x1F62, [0x3C9; 0x313; 0x300]); (0x1F63, [0x3C9; 0x314; 0x300]);
   (0x1F64, [0x3C9; 0x313; 0x301]); (0x1F65, [0x3C9; 0x314; 0x301]);
   (0x1F66, [0x3C9; 0x313; 0x342]); (0x1F67, [0x3C9; 0x314; 0x342]);
   (0x1F68, [0x3A9; 0x313]); (0x1F69, [0x3A9; 0x314]);
   (0x1F6A, [0x3A9; 0x313; 0x300]); (0x1F6B, [0x3A9; 0x314; 0x300]);
   (0x1F6C, [0x3A9; 0x313; 0x301]); (0x1F6D, [0x3A9; 0x314; 0x301]);
   (0x1F6E, [0x3A9; 0x313; 0x342]); (0x1F6F, [0x3A9; 0x314; 0x342]);
   (0x1F70, [0x3B1; 0x300]); (0x1F71, [0x3B1; 0x301]);
   (0x1F72, [0x3B5; 0x300]); (0x1F73, [0x3B5; 0x301]);
   (0x1F74, [0x3B7; 0x300]); (0x1F75, [0x3B7; 0x301]);
   (0x1F76, [0x3B9; 0x300]); (0x1F77, [0x3B9; 0x301]);
   (0x1F78, [0x3BF; 0x300]); (0x1F79, [0x3BF; 0x301]);
   (0x1F7A, [0x3C5; 0x300]); (0x1F7B, [0x3C5; 0x301]);
   (0x1F7C, [0x3C9; 0x300]); (0x1F7D, [0x3C9; 0x301]);
   (0x1F80, [0x3B1; 0x313; 0x345]); (0x1F81, [0x3B1; 0x314; 0x345]);
   (0x1F82, [0x3B1; 0x313; 0x300; 0x345]);
   (0x1F83, [0x3B1; 0x314; 0x300; 0x345]);
   (0x1F84, [0x3B1; 0x313; 0x301; 0x345]);
   (0x1F85, [0x3B1; 0x314; 0x301; 0x345]);
   (0x1F86, [0x3B1; 0x313; 0x342; 0x345]);
   (0x1F87, [0x3B1; 0x314; 0x342; 0x345]); (0x1F88, [0x391; 0x313; 0x345]);
   (0x1F89, [0x391; 0x314; 0x345]); (0x1F8A, [0x391; 0x313; 0x300; 0x345]);
   (0x1F8B, [0x391; 0x314; 0x300; 0x345]);
   (0x1F8C, [0x391; 0x313; 0x301; 0x345]);
   (0x1F8D, [0x391; 0x314; 0x301; 0x345]);
   (0x1F8E, [0x391; 0x313; 0x342; 0x345]);
   (0x1F8F, [0x391; 0x314; 0x342; 0x345]); (0x1F90, [0x3B7; 0x313; 0x345]);
   (0x1F91, [0x3B7; 0x314; 0x345]); (0x1F92, [0x3B7; 0x313; 0x300; 0x345]);
   (0x1F93, [0x3B7; 0x314; 0x300; 0x345]);
   (0x1F94, [0x3B7; 0x313; 0x301; 0x345]);
   (0x1F95, [0x3B7; 0x314; 0x301; 0x345]);
   (0x1F96, [0x3B7; 0x313; 0x342; 0x345]);
   (0x1F97, [0x3B7; 0x314; 0x342; 0x345]); (0x1F98, [0x397; 0x313; 0x345]);
   (0x1F99, [0x397; 0x314; 0x345]); (0x1F9A, [0x397; 0x313; 0x300; 0x345]);
   (0x1F9B, [0x397; 0x314; 0x300; 0x345]);
   (0x1F9C, [0x397; 0x313; 0x301; 0x345]);
   (0x1F9D, [0x397; 0x314; 0x301; 0x345]);
   (0x1F9E, [0x397; 0x313; 0x342; 0x345]);
   (0x1F9F, [0x397; 0x314; 0x342; 0x345]); (0x1FA0, [0x3C9; 0x313; 0x345]);
   (0x1FA1, [0x3C9; 0x314; 0x345]); (0x1FA2, [0x3C9; 0x313; 0x300; 0x345]);
   (0x1FA3, [0x3C9; 0x314; 0x300; 0x345]);
   (0x1FA4, [0x3C9; 0x313; 0x301; 0x345]);
   (0x1FA5, [0x3C9; 0x314; 0x301; 0x345]);
   (0x1FA6, [0x3C9; 0x313; 0x342; 0x345]);
   (0x1FA7, [0x3C9; 0x314; 0x342; 0x345]); (0x1FA8, [0x3A9; 0x313; 0x345]);
   (0x1FA9, [0x3A9; 0x314; 0x345]); (0x1FAA, [0x3A9; 0x313; 0x300; 0x345]);
   (0x1FAB, [0x3A9; 0x314; 0x300; 0x345]);
   (0x1FAC, [0x3A9; 0x313; 0x301; 0x345]);
   (0x1FAD, [0x3A9; 0x314; 0x301; 0x345]);
   (0x1FAE, [0x3A9; 0x313; 0x342; 0x345]);
   (0x1FAF, [0x3A9; 0x314; 0x342; 0x345]); (0x1FB0, [0x3B1; 0x306]);
   (0x1FB1, [0x3B1; 0x304]); (0x1FB2, [0x3B1; 0x300; 0x345]);
   (0x1FB3, [0x3B1; 0x345]); (0x1FB4, [0x3B1; 0x301; 0x345]);
   (0x1FB6, [0x3B1; 0x342]); (0x1FB7, [0x3B1; 0x342; 0x345]);
   (0x1FB8, [0x391; 0x306]); (0x1FB9, [0x391; 0x304]);
   (0x1FBA, [0x391; 0x300]); (0x1FBB, [0x391; 0x301]);
   (0x1FBC, [0x391; 0x345]); (0x1FBE, [0x3B9]); (0x1FC1, [0xA8; 0x342]);
   (0x1FC2, [0x3B7; 0x300; 0x345]); (0x1FC3, [0x3B7; 0x345]);
   (0x1FC4, [0x3B7; 0x301; 0x345]); (0x1FC6, [0x3B7; 0x342]);
   (0x1FC7, [0x3B7; 0x342; 0x345]); (0x1FC8, [0x395; 0x300]);
   (0x1FC9, [0x395; 0x301]); (0x1FCA, [0x397; 0x300]);
   (0x1FCB, [0x397; 0x301]); (0x1FCC, [0x397; 0x345]);
   (0x1FCD, [0x1FBF; 0x300]); (0x1FCE, [0x1FBF; 0x301]);
   (0x1FCF, [0x1FBF; 0x342]); (0x1FD0, [0x3B9; 0x306]);
   (0x1FD1, [0x3B9; 0x304]); (0x1FD2, [0x3B9; 0x308; 0x300]);
   (0x1FD3, [0x3B9; 0x308; 0x301]); (0x1FD6, [0x3B9; 0x342]);
   (0x1FD7, [0x3B9; 0x308; 0x342]); (0x1FD8, [0x399; 0x306]);
   (0x1FD9, [0x399; 0x304]); (0x1FDA, [0x399; 0x300]);
   (0x1FDB, [0x399; 0x301]); (0x1FDD, [0x1FFE; 0x300]);
   (0x1FDE, [0x1FFE; 0x301]); (0x1FDF, [0x1FFE; 0x342]);
   (0x1FE0, [0x3C5; 0x306]); (0x1FE1, [0x3C5; 0x304]);
   (0x1FE2, [0x3C5; 0x308; 0x300]); (0x1FE3, [0x3C5; 0x308; 0x301]);
   (0x1FE4, [0x3C1; 0x313]); (0x1FE5, [0x3C1; 0x314]);
   (0x1FE6, [0x3C5; 0x342]); (0x1FE7, [0x3C5; 0x308; 0x342]);
   (0x1FE8, [0x3A5; 0x306]); (0x1FE9, [0x3A5; 0x304]);
   (0x1FEA, [0x3A5; 0x300]); (0x1FEB, [0x3A5; 0x301]);
   (0x1FEC, [0x3A1; 0x314]); (0x1FED, [0xA8; 0x300]); (0x1FEE, [0xA8; 0x301]);
   (0x1FEF, [0x60]); (0x1FF2, [0x3C9; 0x300; 0x345]);
   (0x1FF3, [0x3C9; 0x345]); (0x1FF4, [0x3C9; 0x301; 0x345]);
   (0x1FF6, [0x3C9; 0x342]); (0x1FF7, [0x3C9; 0x342; 0x345]);
   (0x1FF8, [0x39F; 0x300]); (0x1FF9, [0x39F; 0x301]);
   (0x1FFA, [0x3A9; 0x300]); (0x1FFB, [0x3A9; 0x301]);
   (0x1FFC, [0x3A9; 0x345]); (0x1FFD, [0xB4])]%N.

(** Canonical combining classes by range ([unicodedata.combining]). *)
Definition combining_table : list (codepoint * codepoint * N) :=
  [(0x300, 0x314, 230); (0x315, 0x315, 232); (0x316, 0x319, 220);
   (0x31A, 0x31A, 232); (0x31B, 0x31B, 216); (0x31C, 0x320, 220);
   (0x321, 0x322, 202); (0x323, 0x326, 220); (0x327, 0x328, 202);
   (0x329, 0x333, 220); (0x334, 0x338, 1); (0x339, 0x33C, 220);
   (0x33D, 0x344, 230); (0x345, 0x345, 240); (0x346, 0x346, 230);
   (0x347, 0x349, 220); (0x34A, 0x34C, 230); (0x34D, 0x34E, 220);
   (0x350, 0x352, 230); (0x353, 0x356, 220); (0x357, 0x357, 230);
   (0x358, 0x358, 232); (0x359, 0x35A, 220); (0x35B, 0x35B, 230);
   (0x35C, 0x35C, 233); (0x35D, 0x35E, 234); (0x35F, 0x35F, 233);
   (0x360, 0x361, 234); (0x362, 0x362, 233); (0x363, 0x36F, 230)]%N.

(** Lower-case mappings ([c.lower()]) of the code points that have one. *)
Definition tolower_table : list (codepoint * list codepoint) :=
  [(0x41, [0x61]); (0x42, [0x62]); (0x43, [0x63]); (0x44, [0x64]);
   (0x45, [0x65]); (0x46, [0x66]); (0x47, [0x67]); (0x48, [0x68]);
   (0x49, [0x69]); (0x4A, [0x6A]); (0x4B, [0x6B]); (0x4C, [0x6C]);
   (0x4D, [0x6D]); (0x4E, [0x6E]); (0x4F, [0x6F]); (0x50, [0x70]);
   (0x51, [0x71]); (0x52, [0x72]); (0x53, [0x73]); (0x54, [0x74]);
   (0x55, [0x75]); (0x56, [0x76]); (0x57, [0x77]); (0x58, [0x78]);
   (0x59, [0x79]); (0x5A, [0x7A]); (0x370, [0x371]); (0x372, [0x373]);
   (0x376, [0x377]); (0x37F, [0x3F3]); (0x386, [0x3AC]); (0x388, [0x3AD]);
   (0x389, [0x3AE]); (0x38A, [0x3AF]); (0x38C, [0x3CC]); (0x38E, [0x3CD]);
   (0x38F, [0x3CE]); (0x391, [0x3B1]); (0x392, [0x3B2]); (0x393, [0x3B3]);
   (0x394, [0x3B4]); (0x395, [0x3B5]); (0x396, [0x3B6]); (0x397, [0x3B7]);
   (0x398, [0x3B8]); (0x399, [0x3B9]); (0x39A, [0x3BA]); (0x39B, [0x3BB]);
   (0x39C, [0x3BC]); (0x39D, [0x3BD]); (0x39E, [0x3BE]); (0x39F, [0x3BF]);
   (0x3A0, [0x3C0]); (0x3A1, [0x3C1]); (0x3A3, [0x3C3]); (0x3A4, [0x3C4]);
   (0x3A5, [0x3C5]); (0x3A6, [0x3C6]); (0x3A7, [0x3C7]); (0x3A8, [0x3C8]);
   (0x3A9, [0x3C9]); (0x3AA, [0x3CA]); (0x3AB, [0x3CB]); (0x3CF, [0x3D7]);
   (0x3D8, [0x3D9]); (0x3DA, [0x3DB]); (0x3DC, [0x3DD]); (0x3DE, [0x3DF]);
   (0x3E0, [0x3E1]); (0x3E2, [0x3E3]); (0x3E4, [0x3E5]); (0x3E6, [0x3E7]);
   (0x3E8, [0x3E9]); (0x3EA, [0x3EB]); (0x3EC, [0x3ED]); (0x3EE, [0x3EF]);
   (0x3F4, [0x3B8]); (0x3F7, [0x3F8]); (0x3F9, [0x3F2]); (0x3FA, [0x3FB]);
   (0x3FD, [0x37B]); (0x3FE, [0x37C]); (0x3FF, [0x37D]); (0x1F08, [0x1F00]);
   (0x1F09, [0x1F01]); (0x1F0A, [0x1F02]); (0x1F0B, [0x1F03]);
   (0x1F0C, [0x1F04]); (0x1F0D, [0x1F05]); (0x1F0E, [0x1F06]);
   (0x1F0F, [0x1F07]); (0x1F18, [0x1F10]); (0x1F19, [0x1F11]);
   (0x1F1A, [0x1F12]); (0x1F1B, [0x1F13]); (0x1F1C, [0x1F14]);
   (0x1F1D, [0x1F15]); (0x1F28, [0x1F20]); (0x1F29, [0x1F21]);
   (0x1F2A, [0x1F22]); (0x1F2B, [0x1F23]); (0x1F2C, [0x1F24]);
   (0x1F2D, [0x1F25]); (0x1F2E, [0x1F26]); (0x1F2F, [0x1F27]);
   (0x1F38, [0x1F30]); (0x1F39, [0x1F31]); (0x1F3A, [0x1F32]);
   (0x1F3B, [0x1F33]); (0x1F3C, [0x1F34]); (0x1F3D, [0x1F35]);
   (0x1F3E, [0x1F36]); (0x1F3F, [0x1F37]); (0x1F48, [0x1F40]);
   (0x1F49, [0x1F41]); (0x1F4A, [0x1F42]); (0x1F4B, [0x1F43]);
   (0x1F4C, [0x1F44]); (0x1F4D, [0x1F45]); (0x1F59, [0x1F51]);
   (0x1F5B, [0x1F53]); (0x1F5D, [0x1F55]); (0x1F5F, [0x1F57]);
   (0x1F68, [0x1F60]); (0x1F69, [0x1F61]); (0x1F6A, [0x1F62]);
   (0x1F6B, [0x1F63]); (0x1F6C, [0x1F64]); (0x1F6D, [0x1F65]);
   (0x1F6E, [0x1F66]); (0x1F6F, [0x1F67]); (0x1F88, [0x1F80]);
   (0x1F89, [0x1F81]); (0x1F8A, [0x1F82]); (0x1F8B, [0x1F83]);
   (0x1F8C, [0x1F84]); (0x1F8D, [0x1F85]); (0x1F8E, [0x1F86]);
   (0x1F8F, [0x1F87]); (0x1F98, [0x1F90]); (0x1F99, [0x1F91]);
   (0x1F9A, [0x1F92]); (0x1F9B, [0x1F93]); (0x1F9C, [0x1F94]);
   (0x1F9D, [0x1F95]); (0x1F9E, [0x1F96]); (0x1F9F, [0x1F97]);
   (0x1FA8, [0x1FA0]); (0x1FA9, [0x1FA1]); (0x1FAA, [0x1FA2]);
   (0x1FAB, [0x1FA3]); (0x1FAC, [0x1FA4]); (0x1FAD, [0x1FA5]);
   (0x1FAE, [0x1FA6]); (0x1FAF, [0x1FA7]); (0x1FB8, [0x1FB0]);
   (0x1FB9, [0x1FB1]); (0x1FBA, [0x1F70]); (0x1FBB, [0x1F71]);
   (0x1FBC, [0x1FB3]); (0x1FC8, [0x1F72]); (0x1FC9, [0x1F73]);
   (0x1FCA, [0x1F74]); (0x1FCB, [0x1F75]); (0x1FCC, [0x1FC3]);
   (0x1FD8, [0x1FD0]); (0x1FD9, [0x1FD1]); (0x1FDA, [0x1F76]);
   (0x1FDB, [0x1F77]); (0x1FE8, [0x1FE0]); (0x1FE9, [0x1FE1]);
   (0x1FEA, [0x1F7A]); (0x1FEB, [0x1F7B]); (0x1FEC, [0x1FE5]);
   (0x1FF8, [0x1F78]); (0x1FF9, [0x1F79]); (0x1FFA, [0x1F7C]);
   (0x1FFB, [0x1F7D]); (0x1FFC, [0x1FF3])]%N.

(** Upper-case mappings ([c.upper()]) of the code points that have one. *)
Definition toupper_table : list (codepoint * list codepoint) :=
  [(0x61, [0x41]); (0x62, [0x42]); (0x63, [0x43]); (0x64, [0x44]);
   (0x65, [0x45]); (0x66, [0x46]); (0x67, [0x47]); (0x68, [0x48]);
   (0x69, [0x49]); (0x6A, [0x4A]); (0x6B, [0x4B]); (0x6C, [0x4C]);
   (0x6D, [0x4D]); (0x6E, [0x4E]); (0x6F, [0x4F]); (0x70, [0x50]);
   (0x71, [0x51]); (0x72, [0x52]); (0x73, [0x53]); (0x74, [0x54]);
   (0x75, [0x55]); (0x76, [0x56]); (0x77, [0x57]); (0x78, [0x58]);
   (0x79, [0x59]); (0x7A, [0x5A]); (0x345, [0x399]); (0x371, [0x370]);
   (0x373, [0x372]); (0x377, [0x376]); (0x37B, [0x3FD]); (0x37C, [0x3FE]);
   (0x37D, [0x3FF]); (0x390, [0x399; 0x308; 0x301]); (0x3AC, [0x386]);
   (0x3AD, [0x388]); (0x3AE, [0x389]); (0x3AF, [0x38A]);
   (0x3B0, [0x3A5; 0x308; 0x301]); (0x3B1, [0x391]); (0x3B2, [0x392]);
   (0x3B3, [0x393]); (0x3B4, [0x394]); (0x3B5, [0x395]); (0x3B6, [0x396]);
   (0x3B7, [0x397]); (0x3B8, [0x398]); (0x3B9, [0x399]); (0x3BA, [0x39A]);
   (0x3BB, [0x39B]); (0x3BC, [0x39C]); (0x3BD, [0x39D]); (0x3BE, [0x39E]);
   (0x3BF, [0x39F]); (0x3C0, [0x3A0]); (0x3C1, [0x3A1]); (0x3C2, [0x3A3]);
   (0x3C3, [0x3A3]); (0x3C4, [0x3A4]); (0x3C5, [0x3A5]); (0x3C6, [0x3A6]);
   (0x3C7, [0x3A7]); (0x3C8, [0x3A8]); (0x3C9, [0x3A9]); (0x3CA, [0x3AA]);
   (0x3CB, [0x3AB]); (0x3CC, [0x38C]); (0x3CD, [0x38E]); (0x3CE, [0x38F]);
   (0x3D0, [0x392]); (0x3D1, [0x398]); (0x3D5, [0x3A6]); (0x3D6, [0x3A0]);
   (0x3D7, [0x3CF]); (0x3D9, [0x3D8]); (0x3DB, [0x3DA]); (0x3DD, [0x3DC]);
   (0x3DF, [0x3DE]); (0x3E1, [0x3E0]); (0x3E3, [0x3E2]); (0x3E5, [0x3E4]);
   (0x3E7, [0x3E6]); (0x3E9, [0x3E8]); (0x3EB, [0x3EA]); (0x3ED, [0x3EC]);
   (0x3EF, [0x3EE]); (0x3F0, [0x39A]); (0x3F1, [0x3A1]); (0x3F2, [0x3F9]);
   (0x3F3, [0x37F]); (0x3F5, [0x395]); (0x3F8, [0x3F7]); (0x3FB, [0x3FA]);
   (0x1F00, [0x1F08]); (0x1F01, [0x1F09]); (0x1F02, [0x1F0A]);
   (0x1F03, [0x1F0B]); (0x1F04, [0x1F0C]); (0x1F05, [0x1F0D]);
   (0x1F06, [0x1F0E]); (0x1F07, [0x1F0F]); (0x1F10, [0x1F18]);
   (0x1F11, [0x1F19]); (0x1F12, [0x1F1A]); (0x1F13, [0x1F1B]);
   (0x1F14, [0x1F1C]); (0x1F15, [0x1F1D]); (0x1F20, [0x1F28]);
   (0x1F21, [0x1F29]); (0x1F22, [0x1F2A]); (0x1F23, [0x1F2B]);
   (0x1F24, [0x1F2C]); (0x1F25, [0x1F2D]); (0x1F26, [0x1F2E]);
   (0x1F27, [0x1F2F]); (0x1F30, [0x1F38]); (0x1F31, [0x1F39]);
   (0x1F32, [0x1F3A]); (0x1F33, [0x1F3B]); (0x1F34, [0x1F3C]);
   (0x1F35, [0x1F3D]); (0x1F36, [0x1F3E]); (0x1F37, [0x1F3F]);
   (0x1F40, [0x1F48]); (0x1F41, [0x1F49]); (0x1F42, [0x1F4A]);
   (0x1F43, [0x1F4B]); (0x1F44, [0x1F4C]); (0x1F45, [0x1F4D]);
   (0x1F50, [0x3A5; 0x313]); (0x1F51, [0x1F59]);
   (0x1F52, [0x3A5; 0x313; 0x300]); (0x1F53, [0x1F5B]);
   (0x1F54, [0x3A5; 0x313; 0x301]); (0x1F55, [0x1F5D]);
   (0x1F56, [0x3A5; 0x313; 0x342]); (0x1F57, [0x1F5F]); (0x1F60, [0x1F68]);
   (0x1F61, [0x1F69]); (0x1F62, [0x1F6A]); (0x1F63, [0x1F6B]);
   (0x1F64, [0x1F6C]); (0x1F65, [0x1F6D]); (0x1F66, [0x1F6E]);
   (0x1F67, [0x1F6F]); (0x1F70, [0x1FBA]); (0x1F71, [0x1FBB]);
   (0x1F72, [0x1FC8]); (0x1F73, [0x1FC9]); (0x1F74, [0x1FCA]);
   (0x1F75, [0x1FCB]); (0x1F76, [0x1FDA]); (0x1F77, [0x1FDB]);
   (0x1F78, [0x1FF8]); (0x1F79, [0x1FF9]); (0x1F7A, [0x1FEA]);
   (0x1F7B, [0x1FEB]); (0x1F7C, [0x1FFA]); (0x1F7D, [0x1FFB]);
   (0x1F80, [0x1F08; 0x399]); (0x1F81, [0x1F09; 0x399]);
   (0x1F82, [0x1F0A; 0x399]); (0x1F83, [0x1F0B; 0x399]);
   (0x1F84, [0x1F0C; 0x399]); (0x1F85, [0x1F0D; 0x399]);
   (0x1F86, [0x1F0E; 0x399]); (0x1F87, [0x1F0F; 0x399]);
   (0x1F88, [0x1F08; 0x399]); (0x1F89, [0x1F09; 0x399]);
   (0x1F8A, [0x1F0A; 0x399]); (0x1F8B, [0x1F0B; 0x399]);
   (0x1F8C, [0x1F0C; 0x399]); (0x1F8D, [0x1F0D; 0x399]);
   (0x1F8E, [0x1F0E; 0x399]); (0x1F8F, [0x1F0F; 0x399]);
   (0x1F90, [0x1F28; 0x399]); (0x1F91, [0x1F29; 0x399]);
   (0x1F92, [0x1F2A; 0x399]); (0x1F93, [0x1F2B; 0x399]);
   (0x1F94, [0x1F2C; 0x399]); (0x1F95, [0x1F2D; 0x399]);
   (0x1F96, [0x1F2E; 0x399]); (0x1F97, [0x1F2F; 0x399]);
   (0x1F98, [0x1F28; 0x399]); (0x1F99, [0x1F29; 0x399]);
   (0x1F9A, [0x1F2A; 0x399]); (0x1F9B, [0x1F2B; 0x399]);
   (0x1F9C, [0x1F2C; 0x399]); (0x1F9D, [0x1F2D; 0x399]);
   (0x1F9E, [0x1F2E; 0x399]); (0x1F9F, [0x1F2F; 0x399]);
   (0x1FA0, [0x1F68; 0x399]); (0x1FA1, [0x1F69; 0x399]);
   (0x1FA2, [0x1F6A; 0x399]); (0x1FA3, [0x1F6B; 0x399]);
   (0x1FA4, [0x1F6C; 0x399]); (0x1FA5, [0x1F6D; 0x399]);
   (0x1FA6, [0x1F6E; 0x399]); (0x1FA7, [0x1F6F; 0x399]);
   (0x1FA8, [0x1F68; 0x399]); (0x1FA9, [0x1F69; 0x399]);
   (0x1FAA, [0x1F6A; 0x399]); (0x1FAB, [0x1F6B; 0x399]);
   (0x1FAC, [0x1F6C; 0x399]); (0x1FAD, [0x1F6D; 0x399]);
   (0x1FAE, [0x1F6E; 0x399]); (0x1FAF, [0x1F6F; 0x399]); (0x1FB0, [0x1FB8]);
   (0x1FB1, [0x1FB9]); (0x1FB2, [0x1FBA; 0x399]); (0x1FB3, [0x391; 0x399]);
   (0x1FB4, [0x386; 0x399]); (0x1FB6, [0x391; 0x342]);
   (0x1FB7, [0x391; 0x342; 0x399]); (0x1FBC, [0x391; 0x399]);
   (0x1FBE, [0x399]); (0x1FC2, [0x1FCA; 0x399]); (0x1FC3, [0x397; 0x399]);
   (0x1FC4, [0x389; 0x399]); (0x1FC6, [0x397; 0x342]);
   (0x1FC7, [0x397; 0x342; 0x399]); (0x1FCC, [0x397; 0x399]);
   (0x1FD0, [0x1FD8]); (0x1FD1, [0x1FD9]); (0x1FD2, [0x399; 0x308; 0x300]);
   (0x1FD3, [0x399; 0x308; 0x301]); (0x1FD6, [0x399; 0x342]);
   (0x1FD7, [0x399; 0x308; 0x342]); (0x1FE0, [0x1FE8]); (0x1FE1, [0x1FE9]);
   (0x1FE2, [0x3A5; 0x308; 0x300]); (0x1FE3, [0x3A5; 0x308; 0x301]);
   (0x1FE4, [0x3A1; 0x313]); (0x1FE5, [0x1FEC]); (0x1FE6, [0x3A5; 0x342]);
   (0x1FE7, [0x3A5; 0x308; 0x342]); (0x1FF2, [0x1FFA; 0x399]);
   (0x1FF3, [0x3A9; 0x399]); (0x1FF4, [0x38F; 0x399]);
   (0x1FF6, [0x3A9; 0x342]); (0x1FF7, [0x3A9; 0x342; 0x399]);
   (0x1FFC, [0x3A9; 0x399])]%N.

(** The property Cased. *)
Definition cased_ranges : list (codepoint * codepoint) :=
  [(0x41, 0x5A); (0x61, 0x7A); (0x345, 0x345); (0x370, 0x373); (0x376, 0x377);
   (0x37A, 0x37D); (0x37F, 0x37F); (0x386, 0x386); (0x388, 0x38A);
   (0x38C, 0x38C); (0x38E, 0x3A1); (0x3A3, 0x3F5); (0x3F7, 0x3FF);
   (0x1F00, 0x1F15); (0x1F18, 0x1F1D); (0x1F20, 0x1F45); (0x1F48, 0x1F4D);
   (0x1F50, 0x1F57); (0x1F59, 0x1F59); (0x1F5B, 0x1F5B); (0x1F5D, 0x1F5D);
   (0x1F5F, 0x1F7D); (0x1F80, 0x1FB4); (0x1FB6, 0x1FBC); (0x1FBE, 0x1FBE);
   (0x1FC2, 0x1FC4); (0x1FC6, 0x1FCC); (0x1FD0, 0x1FD3); (0x1FD6, 0x1FDB);
   (0x1FE0, 0x1FEC); (0x1FF2, 0x1FF4); (0x1FF6, 0x1FFC)]%N.

(** The property Case_Ignorable. *)
Definition case_ignorable_ranges : list (codepoint * codepoint) :=
  [(0x27, 0x27); (0x2E, 0x2E); (0x3A, 0x3A); (0x5E, 0x5E); (0x60, 0x60);
   (0xA8, 0xA8); (0xB4, 0xB4); (0xB7, 0xB7); (0x2B9, 0x2B9); (0x300, 0x36F);
   (0x374, 0x375); (0x37A, 0x37A); (0x384, 0x385); (0x387, 0x387);
   (0x1FBD, 0x1FBD); (0x1FBF, 0x1FC1); (0x1FCD, 0x1FCF); (0x1FDD, 0x1FDF);
   (0x1FED, 0x1FEF); (0x1FFD, 0x1FFE)]%N.

(** The general categories Mn, Mc and Me (combining marks). *)
Definition mark_ranges : list (codepoint * codepoint) :=
  [(0x300, 0x36F)]%N.

(** [c.isalpha()] *)
Definition alpha_ranges : list (codepoint * codepoint) :=
  [(0x41, 0x5A); (0x61, 0x7A); (0x2B9, 0x2B9); (0x370, 0x374); (0x376, 0x377);
   (0x37A, 0x37D); (0x37F, 0x37F); (0x386, 0x386); (0x388, 0x38A);
   (0x38C, 0x38C); (0x38E, 0x3A1); (0x3A3, 0x3F5); (0x3F7, 0x3FF);
   (0x1F00, 0x1F15); (0x1F18, 0x1F1D); (0x1F20, 0x1F45); (0x1F48, 0x1F4D);
   (0x1F50, 0x1F57); (0x1F59, 0x1F59); (0x1F5B, 0x1F5B); (0x1F5D, 0x1F5D);
   (0x1F5F, 0x1F7D); (0x1F80, 0x1FB4); (0x1FB6, 0x1FBC); (0x1FBE, 0x1FBE);
   (0x1FC2, 0x1FC4); (0x1FC6, 0x1FCC); (0x1FD0, 0x1FD3); (0x1FD6, 0x1FDB);
   (0x1FE0, 0x1FEC); (0x1FF2, 0x1FF4); (0x1FF6, 0x1FFC)]%N.

(** [c.isalnum()] *)
Definition alnum_ranges : list (codepoint * codepoint) :=
  [(0x30, 0x39); (0x41, 0x5A); (0x61, 0x7A); (0x2B9, 0x2B9); (0x370, 0x374);
   (0x376, 0x377); (0x37A, 0x37D); (0x37F, 0x37F); (0x386, 0x386);
   (0x388, 0x38A); (0x38C, 0x38C); (0x38E, 0x3A1); (0x3A3, 0x3F5);
   (0x3F7, 0x3FF); (0x1F00, 0x1F15); (0x1F18, 0x1F1D); (0x1F20, 0x1F45);
   (0x1F48, 0x1F4D); (0x1F50, 0x1F57); (0x1F59, 0x1F59); (0x1F5B, 0x1F5B);
   (0x1F5D, 0x1F5D); (0x1F5F, 0x1F7D); (0x1F80, 0x1FB4); (0x1FB6, 0x1FBC);
   (0x1FBE, 0x1FBE); (0x1FC2, 0x1FC4); (0x1FC6, 0x1FCC); (0x1FD0, 0x1FD3);
   (0x1FD6, 0x1FDB); (0x1FE0, 0x1FEC); (0x1FF2, 0x1FF4); (0x1FF6, 0x1FFC)]%N.

(** [c.isspace()] *)
Definition space_ranges : list (codepoint * codepoint) :=
  [(0x9, 0xD); (0x1C, 0x20)]%N.

Definition lookup (t : list (codepoint * list codepoint)) (c : codepoint)
  : list codepoint :=
  match find (fun e => fst e =? c) t with
  | Some e => snd e
  | None => [c]
  end.

Definition in_ranges (rs : list (codepoint * codepoint)) (c : codepoint)
  : bool :=
  existsb (fun r => (fst r <=? c) && (c <=? snd r)) rs.

Definition combining_class (c : codepoint) : N :=
  match find (fun e => (fst (fst e) <=? c) && (c <=? snd (fst e)))
             combining_table with
  | Some e => snd e
  | None => 0
  end.

Definition decimal_value (c : codepoint) : option N :=
  if (0x30 <=? c) && (c <=? 0x39) then Some (c - 0x30) else None.

Definition db : UCD :=
  {| decomposition := lookup decomposition_table;
     combining := combining_class;
     tolower := lookup tolower_table;
     toupper := lookup toupper_table;
     iscased := in_ranges cased_ranges;
     iscaseignorable := in_ranges case_ignorable_ranges;
     ismark := in_ranges mark_ranges;
     isalpha := in_ranges alpha_ranges;
     isalnum := in_ranges alnum_ranges;
     isspace := in_ranges space_ranges;
     decimal := decimal_value |}.

End GreekUCD.

(* ================================================================== *)
(** * The classification table of the specification *)
(* ================================================================== *)

Module Spec.

(** The threshold table as the specification words it, over the top score
    and the number of shared words: the first row whose score bound and
    overlap bound both hold decides, and everything else is [non_biblical]
    with confidence 60. *)
Definition classification_table (score : float) (overlap : nat)
  : Py.str * Z :=
  if (0.95 <=? score)%float && (5 <=? overlap)%nat then (py "exact", 95)
  else if (0.90 <=? score)%float && (3 <=? overlap)%nat
       then (py "close_paraphrase", 85)
  else if (0.80 <=? score)%float && (3 <=? overlap)%nat
       then (py "loose_paraphrase", 70)
  else if (0.70 <=? score)%float && (2 <=? overlap)%nat
       then (py "allusion", 55)
  else (py "non_biblical", 60).

(** The heuristic classification of the specification on a non-empty
    candidate list: the table at the top candidate's score and at the number
    of words of at least three letters the text shares with the top
    candidate's normalized verse; confidence 90 and [non_biblical] on the
    empty list. *)
Definition classify (db : Unicode.UCD) (text : Py.str)
           (candidates : list Candidate) : Py.str * Z :=
  match candidates with
  | [] => (py "non_biblical", 90)
  | top :: _ =>
    classification_table
      (c_score top)
      (WordOverlap.count_shared_words db text (c_text top) 3)
  end.

(** The five match types of a detection result. *)
Definition match_types : list Py.str :=
  [py "exact"; py "close_paraphrase"; py "loose_paraphrase"; py "allusion";
   py "non_biblical"].

End Spec.

(* ================================================================== *)
(** * Derived notions used in the statements *)
(* ================================================================== *)

Definition with_self (d : QuotationDetector) (s : State) : State :=
  {| self := d; clock_reads := clock_reads s; llm_requests := llm_requests s |}.

(** The detector switched to heuristic mode, everything else unchanged. *)
Definition heuristic_mode (d : QuotationDetector) : QuotationDetector :=
  {| use_llm := false; min_similarity := min_similarity d; top_k := top_k d;
     db_path := db_path d; _qdrant_manager := _qdrant_manager d;
     _claude_client := _claude_client d |}.

(** What the vector search of detector [d] yields in world [w], and the
    detector after it: the candidates of the store, or the empty list when
    the manager cannot be created or the search raises. *)
Definition search_or_empty (w : World) (d : QuotationDetector)
           (text : Py.str) : list Candidate :=
  match QdrantManager_search w text (top_k d) (min_similarity d) with
  | inr l => l
  | inl _ => []
  end.

Definition retrieved (w : World) (d : QuotationDetector) (text : Py.str)
  : list Candidate * QuotationDetector :=
  match _qdrant_manager d with
  | Some _ => (search_or_empty w d text, d)
  | None =>
    match QdrantManager_new w with
    | inl _ => ([], d)
    | inr m => (search_or_empty w d text, set_qdrant_manager m d)
    end
  end.

(** The retrieval fails: the manager is missing and cannot be created, or
    the search raises. *)
Definition retrieval_fails (w : World) (d : QuotationDetector)
           (text : Py.str) : Prop :=
  (_qdrant_manager d = None /\ exists e, QdrantManager_new w = inl e)
  \/ (exists e, QdrantManager_search w text (top_k d) (min_similarity d)
                = inl e).

(** The result [detect] builds when there is no candidate. *)
Definition no_candidates_result (text : Py.str) (t : Z) : DetectionResult :=
  {| input_text := text;
     is_quotation := false;
     confidence := 90;
     match_type := py "non_biblical";
     sources := [];
     best_match := None;
     explanation := py "No similar biblical texts found in vector search.";
     processing_time_ms := t |}.

(** The last steps of [detect] on a classified result: the confidence
    floor, the choice of the sources and the elapsed time. *)
Definition shape (min_confidence : Z) (include_all_candidates : bool)
           (srcs : list DetectionSource) (t : Z) (result : DetectionResult)
  : DetectionResult :=
  set_processing_time_ms t
    (set_sources (if include_all_candidates then srcs else firstn 3 srcs)
       (if confidence result <? min_confidence
        then set_is_quotation false result else result)).

(** The result of [detect] in heuristic mode on the retrieved candidates. *)
Definition heuristic_outcome (text : Py.str) (min_confidence : Z)
           (include_all_candidates : bool) (cands : list Candidate) (t : Z)
  : DetectionResult :=
  match cands with
  | [] => no_candidates_result text t
  | _ :: _ =>
    shape min_confidence include_all_candidates
          (map Detector.source_of cands) t
          (Detector._heuristic_classify text cands
                                        (map Detector.source_of cands))
  end.

(** The elapsed time [detect] reports when it starts in state [s]: it reads
    the clock twice. *)
Definition elapsed (w : World) (s : State) : Z :=
  Py.int_of_float
    ((clock w (S (clock_reads s)) - clock w (clock_reads s)) * 1000)%float.

(** The constructor of [ClaudeClient] refuses the key: it is unset, empty or
    the placeholder. *)
Definition key_refused (key : option Py.str) : Prop :=
  key = None \/ key = Some [] \/ key = Some (py "your_key_here").

(** The lower-case sigmas, final (U+03C2) and medial (U+03C3), and the
    three sigmas, capital sigma (U+03A3) included. *)
Definition is_sigma (c : Py.codepoint) : bool :=
  (c =? 0x3C2)%N || (c =? 0x3C3)%N.

Definition any_sigma (c : Py.codepoint) : bool :=
  (c =? 0x3A3)%N || is_sigma c.

(** The final and medial sigmas of a text, in the order of the text. *)
Definition sigmas (x : Py.str) : Py.str := filter is_sigma x.

(** What [normalize] makes of a sigma [a] of its input: a final or medial
    sigma stays what it is, a capital sigma becomes one of the two. *)
Definition kept_sigma (a b : Py.codepoint) : Prop :=
  if (a =? 0x3A3)%N then is_sigma b = true else b = a.

(** Four facts of the Unicode database about sigma: no decomposition
    produces or consumes a sigma; the sigmas have combining class 0; the
    lower case of a code point other than capital sigma holds a final or
    medial sigma only when it is that sigma; final and medial sigma are
    alphanumeric and no whitespace. *)
Definition sigma_database (db : Unicode.UCD) : Prop :=
  (forall c, filter any_sigma (Unicode.decomposition db c)
             = filter any_sigma [c])
  /\ (forall c, any_sigma c = true -> Unicode.combining db c = 0%N)
  /\ (forall c, c <> 0x3A3%N ->
                filter is_sigma (Unicode.tolower db c) = filter is_sigma [c])
  /\ (forall c, is_sigma c = true ->
                Unicode.isalnum db c = true /\ Unicode.isspace db c = false).

(** The first and the third fact as checks over the tables of
    [GreekUCD]. *)
Definition decompositions_keep_sigma : bool :=
  forallb (fun e => Py.eqb (filter any_sigma (snd e))
                           (filter any_sigma [fst e]))
          GreekUCD.decomposition_table.

Definition lower_cases_keep_sigma : bool :=
  forallb (fun e => (fst e =? 0x3A3)%N
                    || Py.eqb (filter is_sigma (snd e))
                              (filter is_sigma [fst e]))
          GreekUCD.tolower_table.

(** The constructor of [ClaudeClient] accepts the key. *)
Definition key_usable (key : option Py.str) : Prop :=
  exists k, key = Some k /\ k <> [] /\ k <> py "your_key_here".

(** The detector has a client of the completion service, or creates one at
    the first use: it is in LLM mode and the key is accepted. *)
Definition client_available (w : World) (d : QuotationDetector) : Prop :=
  _claude_client d <> None
  \/ (use_llm d = true /\ key_usable (getenv_ANTHROPIC_API_KEY w)).

(** The detector has no client and gets none: it is in heuristic mode, or
    the key is refused. *)
Definition no_client (w : World) (d : QuotationDetector) : Prop :=
  _claude_client d = None
  /\ (use_llm d = false \/ key_refused (getenv_ANTHROPIC_API_KEY w)).

(** [b] is the first of [srcs] whose reference is [r]. *)
Definition first_with_reference (r : Py.str) (srcs : list DetectionSource)
           (b : DetectionSource) : Prop :=
  exists before after,
    srcs = before ++ b :: after
    /\ reference b = r
    /\ Forall (fun x => reference x <> r) before.

(** The verdict names no source: it has no reference, an empty one, or one
    that no source carries. *)
Definition names_no_source (v : VerificationResult)
           (srcs : list DetectionSource) : Prop :=
  match v_best_match_reference v with
  | None => True
  | Some r => r = [] \/ Forall (fun x => reference x <> r) srcs
  end.

(** The verdict [verify_quotation] returns when the request raises [e]. *)
Definition verdict_on_error (e : Exception) : VerificationResult :=
  {| v_is_quotation := false;
     v_match_type := UNCERTAIN;
     v_confidence := 0;
     v_explanation := py "Error during verification: " ++ exc_message e;
     v_best_match_reference := None;
     v_best_match_text := None |}.

(** The verdict on a non-empty candidate list when the completion service
    answers the request number [n]. *)
Definition verdict (db : Unicode.UCD) (w : World) (n : nat)
           (text : Py.str) (cands : list Candidate) : VerificationResult :=
  match messages_create w n (Claude._build_verification_prompt text cands)
  with
  | inr reply => Claude._parse_verification_response db reply cands
  | inl e => verdict_on_error e
  end.

(** The result [_llm_verify] builds from a verdict. *)
Definition result_of_verdict (text : Py.str) (srcs : list DetectionSource)
           (v : VerificationResult) : DetectionResult :=
  {| input_text := text;
     is_quotation := v_is_quotation v;
     confidence := v_confidence v;
     match_type := Claude.value (v_match_type v);
     sources := firstn 3 srcs;
     best_match := Detector.find_best_match v srcs;
     explanation := v_explanation v;
     processing_time_ms := 0 |}.

(** The verdict when no key of the reply is recognised. *)
Definition default_verdict : VerificationResult :=
  {| v_is_quotation := false;
     v_match_type := NON_BIBLICAL;
     v_confidence := 50;
     v_explanation := py "No explanation provided.";
     v_best_match_reference := None;
     v_best_match_text := None |}.

(** The Unicode database treats the ASCII defaults of the reply parser as
    Python does: the four default strings are their own lower case, and
    ["50"] reads as 50. *)
Definition reads_defaults (db : Unicode.UCD) : Prop :=
  Unicode.lower db (py "no") = py "no"
  /\ Unicode.lower db (py "non_biblical") = py "non_biblical"
  /\ Unicode.lower db (py "none") = py "none"
  /\ Unicode.int_of_str db (py "50") = Some 50.

(** Two states of a detector with the same configuration. *)
Definition same_config (d d' : QuotationDetector) : Prop :=
  use_llm d' = use_llm d /\ min_similarity d' = min_similarity d
  /\ top_k d' = top_k d /\ db_path d' = db_path d.

(** The lazily created clients of [d] are still those of [d']. *)
Definition kept_clients (d d' : QuotationDetector) : Prop :=
  (forall m, _qdrant_manager d = Some m -> _qdrant_manager d' = Some m)
  /\ (forall c, _claude_client d = Some c -> _claude_client d' = Some c).

(** The detector has a manager of the vector store, or can create one. *)
Definition manager_available (w : World) (d : QuotationDetector) : Prop :=
  _qdrant_manager d <> None \/ exists m, QdrantManager_new w = inr m.

(** A code point the first three steps of [normalize] leave alone: it has
    no decomposition, is no combining mark, is its own lower case and is
    not capital sigma. *)
Definition settled (db : Unicode.UCD) (c : Py.codepoint) : Prop :=
  Unicode.decomposition db c = [c]
  /\ Unicode.combining db c = 0%N
  /\ Unicode.tolower db c = [c]
  /\ c <> 0x3A3%N.

(** Three facts of the Unicode database that make [normalize] stable: a
    full decomposition cannot be decomposed further; the lower case of a
    decomposed base character is settled; both lower-case sigmas are
    settled. *)
Definition stable_database (db : Unicode.UCD) : Prop :=
  (forall c d, In d (Unicode.decomposition db c) ->
               Unicode.decomposition db d = [d])
  /\ (forall c d, Unicode.decomposition db c = [c] ->
                  Unicode.combining db c = 0%N ->
                  c <> 0x3A3%N ->
                  In d (Unicode.tolower db c) -> settled db d)
  /\ settled db 0x3C2%N
  /\ settled db 0x3C3%N.

(** The facts of [stable_database] as checks over the tables of
    [GreekUCD]. *)
Definition settledb (c : Py.codepoint) : bool :=
  Py.eqb (Unicode.decomposition GreekUCD.db c) [c]
  && (Unicode.combining GreekUCD.db c =? 0)%N
  && Py.eqb (Unicode.tolower GreekUCD.db c) [c]
  && negb (c =? 0x3A3)%N.

Definition decompositions_final : bool :=
  forallb (fun e => forallb (fun d => Py.eqb (Unicode.decomposition GreekUCD.db d) [d])
                            (snd e))
          GreekUCD.decomposition_table.

Definition lower_cases_settled : bool :=
  forallb (fun e =>
             let c := fst e in
             if Py.eqb (Unicode.decomposition GreekUCD.db c) [c]
                && (Unicode.combining GreekUCD.db c =? 0)%N
                && negb (c =? 0x3A3)%N
             then forallb settledb (snd e) else true)
          GreekUCD.tolower_table.

(** A word as [str.split()] yields it: not empty and free of whitespace. *)
Definition is_word (db : Unicode.UCD) (w : Py.str) : Prop :=
  w <> [] /\ Forall (fun c => Unicode.isspace db c = false) w.

(** What [simple_lemmatize] does to one word. *)
Definition lemmatize_word (word : Py.str) : Py.str :=
  if (4 <? List.length word)%nat
  then GreekProcessor.strip_first_ending GreekProcessor.endings word
  else word.

(** A source with a chapter and a verse number. *)
Definition located (s : DetectionSource) : Prop :=
  chapter s <> None /\ verse s <> None.

(** A result the API can render: one of the five match types, a confidence
    between 0 and 100, and a chapter and verse on every source and on the
    best match. *)
Definition presentable (r : DetectionResult) : Prop :=
  In (match_type r) Spec.match_types
  /\ 0 <= confidence r <= 100
  /\ Forall located (sources r)
  /\ (forall b, best_match r = Some b -> located b).

(** The detectors of the routes are in the mode they were created for. *)
Definition api_wf (st : Api.ApiState) : Prop :=
  (forall d, Api._detector_llm st = Some d -> use_llm d = true)
  /\ (forall d, Api._detector_heuristic st = Some d -> use_llm d = false).

(** ** Sample data *)

Module Sample.

Definition candidate (score : float) (ref book : Py.str) (ch vs : Z)
           (text : Py.str) : Candidate :=
  {| c_id := ch * 1000 + vs; c_score := score; c_text := text;
     c_reference := ref; c_book := book; c_chapter := Some ch;
     c_verse := Some vs; c_source := py "SR" |}.

Definition john_3_16 (score : float) : Candidate :=
  candidate score (py "John 3:16") (py "John") 3 16
            (py "ουτως γαρ ηγαπησεν ο θεος τον κοσμον").

Definition first_john_4_9 (score : float) : Candidate :=
  candidate score (py "1 John 4:9") (py "1 John") 4 9
            (py "εν τουτω εφανερωθη η αγαπη του θεου εν ημιν").

(** The verse and the text of the regression test
    [test_no_overlap_regardless_of_score_rejects]. *)
Definition luke_21_14 (score : float) : Candidate :=
  candidate score (py "Luke 21:14") (py "Luke") 21 14
    (py "θεσθε ουν εις τας καρδιας υμων μη προμελεταν απολογηθηναι").

Definition clement_text : Py.str :=
  py "Πάντες τε ἐταπεινοφρονεῖτε μηδὲν ἀλαζονευόμενοι ὑποτασσόμενοι".

Definition query : Py.str := py "οὕτως γὰρ ἠγάπησεν ὁ θεὸς τὸν κόσμον".

(** A world with a given API key, a given answer of the vector store to
    every query and a given answer of the completion service to every
    request; the clock advances by a quarter of a second per reading. *)
Definition world (key : option Py.str)
           (search : Exception + list Candidate)
           (completion : Exception + Py.str) : World :=
  {| getenv_ANTHROPIC_API_KEY := key;
     QdrantManager_new := inr {| collection_name := py "biblical_verses" |};
     QdrantManager_search := fun _ _ _ => search;
     messages_create := fun _ _ => completion;
     clock := fun n => (1700000000 + PrimFloat.of_uint63 (Uint63.of_nat n) * 0.25)%float |}.

Definition connection_refused : Exception :=
  {| exc_class := py "ConnectionError"; exc_message := py "connection refused" |}.

(** A fresh detector with the default configuration, in LLM or in heuristic
    mode. *)
Definition detector (use_llm : bool) : QuotationDetector :=
  Detector.__init__ use_llm (py "data/processed/bible.db") 0.7%float 10.

Definition start (use_llm : bool) : State :=
  {| self := detector use_llm; clock_reads := 0; llm_requests := 0 |}.

End Sample.

(* ================================================================== *)
(** * Properties *)
(* ================================================================== *)

Unset Implicit Arguments.

(** ** The model on concrete inputs *)

(** The normalizer on Greek text: diacritics go, letters are lower-cased,
    punctuation is deleted. *)
Example normalize_strips_diacritics :
  GreekProcessor.normalize GreekUCD.db (py "ἐκκλησία") = py "εκκλησια".
Proof. vm_compute. reflexivity. Qed.

Example normalize_mixed_diacritics_and_case :
  GreekProcessor.normalize GreekUCD.db (py "Ἰησοῦ Χριστοῦ") = py "ιησου χριστου".
Proof. vm_compute. reflexivity. Qed.

Example normalize_latin :
  GreekProcessor.normalize GreekUCD.db (py "Hello World") = py "hello world".
Proof. vm_compute. reflexivity. Qed.

Example normalize_punctuation :
  GreekProcessor.normalize GreekUCD.db
    (py "  Ἐν ἀρχῇ ἦν ὁ λόγος, καὶ ὁ λόγος ἦν πρὸς τὸν θεόν·  ")
  = py "εν αρχη ην ο λογος και ο λογος ην προς τον θεον".
Proof. vm_compute. reflexivity. Qed.

(** [simple_lemmatize] runs on normalized text and strips endings written
    with final sigma; a word written with medial sigma keeps its ending. *)
Example lemmatize_final_sigma :
  GreekProcessor.simple_lemmatize GreekUCD.db (py "ανθρωπος λογος θεου")
  = py "ανθρωπ λογ θεου"
  /\ GreekProcessor.simple_lemmatize GreekUCD.db (py "ανθρωποσ λογοσ θεου")
     = py "ανθρωποσ λογοσ θεου".
Proof. split; vm_compute; reflexivity. Qed.

Example format_3f_rounds :
  Py.format_3f 0.87 = py "0.870" /\ Py.format_3f 0.9995 = py "1.000"
  /\ Py.format_3f 0.0005 = py "0.001" /\ Py.format_3f 2.5 = py "2.500".
Proof. repeat split; vm_compute; reflexivity. Qed.

(** The word overlap on the pairs of tests/test_word_overlap.py. *)
Example overlap_normalize :
  WordOverlap.normalize GreekUCD.db (py "ΘΕΟΣ") = py "θεοσ"
  /\ WordOverlap.normalize GreekUCD.db (py "Ἰησοῦ Χριστοῦ") = py "ιησου χριστου"
  /\ WordOverlap.normalize GreekUCD.db (py "Hello World") = py "hello world".
Proof. repeat split; vm_compute; reflexivity. Qed.

Example overlap_short_text :
  WordOverlap.count_shared_words GreekUCD.db
    (py "θεου κυριου χριστου") (py "θεου κυριου πνευματος") 3 = 2%nat.
Proof. vm_compute. reflexivity. Qed.

Example overlap_short_words_only :
  WordOverlap.count_shared_words GreekUCD.db
    (py "ο η εν τα μεγαλοπρεπες") (py "ο η εν τα ταπεινοφρονειτε") 3 = 0%nat
  /\ WordOverlap.count_shared_words GreekUCD.db (py "εν") (py "εν") 3 = 0%nat
  /\ WordOverlap.count_shared_words GreekUCD.db (py "θεος") (py "θεος") 3
     = 1%nat.
Proof. repeat split; vm_compute; reflexivity. Qed.

Example overlap_acts_7_28 :
  WordOverlap.count_shared_words GreekUCD.db
    (py "μὴ ἀνελεῖν με σὺ θέλεις, ὃν τρόπον ἀνεῖλες ἐχθὲς τὸν Αἰγύπτιον")
    (py "μη ανελειν με συ θελεις ον τροπον ανειλες εχθες τον αιγυπτιον") 3
  = 7%nat.
Proof. vm_compute. reflexivity. Qed.

Example overlap_false_positive :
  WordOverlap.count_shared_words GreekUCD.db
    (py "καὶ τὸ μεγαλοπρεπὲς τῆς φιλοξενίας ὑμῶν ἦθος οὐκ ἐκήρυξεν")
    (py "οτι την μεν παρακλησιν εδεξατο σπουδαιοτεροσ δε υπαρχων αυθαιρετοσ εξηλθεν προσ υμασ")
    3 = 0%nat.
Proof. vm_compute. reflexivity. Qed.

(** A reply of the completion service in the requested format. *)
Example parse_reply :
  Claude._parse_verification_response GreekUCD.db
    (py "IS_QUOTATION: yes
match_type:  Close_Paraphrase
CONFIDENCE: 120
BEST_REFERENCE: John 3:16
EXPLANATION: Same clause: word order differs.")
    [Sample.john_3_16 0.87]
  = {| v_is_quotation := true;
       v_match_type := CLOSE_PARAPHRASE;
       v_confidence := 100;
       v_explanation := py "Same clause: word order differs.";
       v_best_match_reference := Some (py "John 3:16");
       v_best_match_text := Some (py "ουτως γαρ ηγαπησεν ο θεος τον κοσμον") |}.
Proof. vm_compute. reflexivity. Qed.

(** A run of [detect] in heuristic mode on two candidates. *)
Example detect_heuristic_run :
  fst (Detector.detect GreekUCD.db
         (Sample.world None
            (inr [Sample.john_3_16 0.87; Sample.first_john_4_9 0.71])
            (inl Sample.connection_refused))
         Sample.query 90 false (Sample.start false))
  = inr {| input_text := Sample.query;
           is_quotation := false;
           confidence := 85;
           match_type := py "close_paraphrase";
           sources := [Detector.source_of (Sample.john_3_16 0.87);
                       Detector.source_of (Sample.first_john_4_9 0.71)];
           best_match := Some (Detector.source_of (Sample.john_3_16 0.87));
           explanation :=
             py "Heuristic classification based on similarity score (0.870). Top match: John 3:16.";
           processing_time_ms := 250 |}.
Proof. vm_compute. reflexivity. Qed.

(** ** String equality and table lookup *)

Lemma py_eqb_true a b : Py.eqb a b = true -> a = b.
Proof.
  unfold Py.eqb. destruct (list_eq_dec N.eq_dec a b); [auto | discriminate].
Qed.

Lemma py_eqb_refl a : Py.eqb a a = true.
Proof.
  unfold Py.eqb. destruct (list_eq_dec N.eq_dec a a); [reflexivity | congruence].
Qed.

Lemma py_eqb_false a b : a <> b -> Py.eqb a b = false.
Proof.
  intros H. unfold Py.eqb.
  destruct (list_eq_dec N.eq_dec a b); [contradiction | reflexivity].
Qed.

Lemma lookup_in t c :
  GreekUCD.lookup t c = [c] \/ In (c, GreekUCD.lookup t c) t.
Proof.
  unfold GreekUCD.lookup.
  destruct (find (fun e => (fst e =? c)%N) t) as [[k l] |] eqn:F; [| now left].
  right. apply find_some in F. destruct F as [Hin Hk].
  cbn [fst] in Hk. apply N.eqb_eq in Hk. subst k. exact Hin.
Qed.

(** ** The monad *)

Lemma try_except_returns {A} (m : M A) (h : Exception -> M A) (s : State) :
  (forall e s', exists a s'', h e s' = (inr a, s'')) ->
  exists a s', try_except m h s = (inr a, s').
Proof.
  intros Hh. unfold try_except.
  destruct (m s) as [[e | a] s'].
  - apply Hh.
  - now exists a, s'.
Qed.

(** ** The heuristic classifier *)

Section Heuristic.
Import Detector.
Variables (text : Py.str) (c0 : Candidate) (cs : list Candidate).
Variable srcs : list DetectionSource.

Let r := _heuristic_classify text (c0 :: cs) srcs.

(** The five outcomes of the classifier on a non-empty candidate list. *)
Lemma heuristic_cases :
  (match_type r, confidence r, is_quotation r) = (py "exact", 95, true)
  \/ (match_type r, confidence r, is_quotation r)
     = (py "close_paraphrase", 85, true)
  \/ (match_type r, confidence r, is_quotation r)
     = (py "loose_paraphrase", 70, true)
  \/ (match_type r, confidence r, is_quotation r) = (py "allusion", 55, true)
  \/ (match_type r, confidence r, is_quotation r)
     = (py "non_biblical", 60, false).
Proof.
  subst r. unfold _heuristic_classify.
  destruct (0.95 <=? c_score c0)%float; [now left |].
  destruct (0.85 <=? c_score c0)%float; [now right; left |].
  destruct (0.75 <=? c_score c0)%float; [now right; right; left |].
  destruct (0.65 <=? c_score c0)%float; [now right; right; right; left |].
  now right; right; right; right.
Qed.

Lemma heuristic_best_match : best_match r = hd_error srcs.
Proof.
  subst r. unfold _heuristic_classify.
  destruct (0.95 <=? c_score c0)%float; [reflexivity |].
  destruct (0.85 <=? c_score c0)%float; [reflexivity |].
  destruct (0.75 <=? c_score c0)%float; [reflexivity |].
  destruct (0.65 <=? c_score c0)%float; reflexivity.
Qed.

Lemma heuristic_confidence :
  In (confidence r) [55; 60; 70; 85; 95].
Proof.
  destruct heuristic_cases as [H | [H | [H | [H | H]]]];
    injection H as _ -> _; simpl; auto 6.
Qed.
End Heuristic.

(** ** The steps of [detect] *)

Section Detect.
Import Detector.
Variable db : Unicode.UCD.
Variable w : World.

Lemma shape_confidence mc iac srcs t res :
  confidence (shape mc iac srcs t res) = confidence res.
Proof. unfold shape. destruct (confidence res <? mc); reflexivity. Qed.

Lemma shape_floor mc iac srcs t res :
  confidence res < mc -> is_quotation (shape mc iac srcs t res) = false.
Proof.
  intros H. unfold shape.
  destruct (confidence res <? mc) eqn:E; [reflexivity |].
  apply Z.ltb_ge in E. lia.
Qed.

(** The vector search never raises: it returns what [retrieved] says and
    touches nothing but the lazily created manager. *)
Lemma vector_search_retrieved text s :
  _vector_search w text s
  = (inr (fst (retrieved w (self s) text)),
     with_self (snd (retrieved w (self s) text)) s).
Proof.
  unfold _vector_search, try_except, qdrant_manager, retrieved,
    search_or_empty, bind, get_self, put_self, lift, ret, raise.
  destruct s as [d n k]; simpl.
  destruct (_qdrant_manager d) as [m |]; simpl.
  - destruct (QdrantManager_search w text (top_k d) (min_similarity d));
      reflexivity.
  - destruct (QdrantManager_new w) as [e | m]; simpl; [reflexivity |].
    destruct (QdrantManager_search w text (top_k d) (min_similarity d));
      reflexivity.
Qed.

Lemma retrieved_use_llm d text :
  use_llm (snd (retrieved w d text)) = use_llm d.
Proof.
  unfold retrieved. destruct (_qdrant_manager d); [reflexivity |].
  destruct (QdrantManager_new w); reflexivity.
Qed.

Lemma retrieved_claude_client d text :
  _claude_client (snd (retrieved w d text)) = _claude_client d.
Proof.
  unfold retrieved. destruct (_qdrant_manager d); [reflexivity |].
  destruct (QdrantManager_new w); reflexivity.
Qed.

(** A second search finds what the first one found. *)
Lemma retrieved_again d text text' :
  retrieved w (snd (retrieved w d text')) text
  = (fst (retrieved w d text), snd (retrieved w d text')).
Proof.
  unfold retrieved, search_or_empty.
  destruct (_qdrant_manager d) eqn:E; simpl.
  - rewrite E. reflexivity.
  - destruct (QdrantManager_new w) eqn:N; simpl.
    + rewrite E. reflexivity.
    + reflexivity.
Qed.

(** The verification by the LLM never raises. *)
Lemma llm_verify_returns text cands srcs s :
  exists res s', _llm_verify db w text cands srcs s = (inr res, s').
Proof.
  unfold _llm_verify. apply try_except_returns.
  intros e s'. now eexists _, _.
Qed.

(** [detect] in heuristic mode, in closed form. *)
Lemma detect_heuristic text mc iac s :
  use_llm (self s) = false ->
  detect db w text mc iac s
  = (inr (heuristic_outcome text mc iac
                            (fst (retrieved w (self s) text)) (elapsed w s)),
     {| self := snd (retrieved w (self s) text);
        clock_reads := S (S (clock_reads s));
        llm_requests := llm_requests s |}).
Proof.
  intros Hllm. unfold detect, bind at 1, time_time at 1.
  unfold bind at 1. rewrite vector_search_retrieved.
  unfold heuristic_outcome, elapsed. cbn [self clock_reads llm_requests].
  destruct (fst (retrieved w (self s) text)) as [| c cs] eqn:E.
  - reflexivity.
  - unfold bind at 1, get_self. cbn [self with_self].
    rewrite retrieved_use_llm, Hllm.
    destruct iac; reflexivity.
Qed.

(** [detect] always returns, and what it returns is either the result for
    no candidates or a classified result after the final shaping. *)
Lemma detect_returns text mc iac s :
  exists r s',
    detect db w text mc iac s = (inr r, s')
    /\ ((exists t, r = no_candidates_result text t)
        \/ (exists srcs t res, r = shape mc iac srcs t res)).
Proof.
  unfold detect, bind at 1, time_time at 1.
  unfold bind at 1. rewrite vector_search_retrieved.
  cbn [self clock_reads llm_requests].
  destruct (fst (retrieved w (self s) text)) as [| c cs] eqn:E.
  - eexists _, _. split; [reflexivity |]. left. now eexists.
  - unfold bind at 1, get_self. cbn [self with_self].
    match goal with
    | |- context [if ?b then _ else _] => destruct b
    end.
    + unfold bind at 1.
      match goal with
      | |- context [_llm_verify db w text ?cands ?srcs ?s0] =>
        destruct (llm_verify_returns text cands srcs s0) as (res & s1 & ->)
      end.
      eexists _, _. split; [reflexivity |]. right.
      exists (map source_of (c :: cs)). eexists _, res.
      destruct iac; reflexivity.
    + eexists _, _. split; [reflexivity |]. right.
      exists (map source_of (c :: cs)). eexists _, _.
      destruct iac; reflexivity.
Qed.
End Detect.

(* ================================================================== *)
(** * The claims *)
(* ================================================================== *)

Import Detector.

(** ** C1: the heuristic classifier and the overlap-gated table *)

(** C1.  The classifier of the source reads the top score only, against the
    bounds 0.95, 0.85, 0.75 and 0.65; it never looks at the shared words.
    Two runs show it.  On the text and verse of the repository's regression
    test [test_no_overlap_regardless_of_score_rejects], which share no word,
    with a top score of 0.96, the code answers [exact] with confidence 95
    and [is_quotation = true], where the overlap-gated table answers
    [non_biblical] with confidence 60.  On a quotation of John 3:16 that
    shares six words with the verse, with a top score of 0.87, the code
    answers [close_paraphrase] with confidence 85, where the table answers
    [loose_paraphrase] with confidence 70, and for no overlap at all does
    the table answer [close_paraphrase] at that score. *)
Theorem C1_heuristic_classify_ignores_overlap :
  let luke := Sample.luke_21_14 0.96 in
  let r96 := _heuristic_classify Sample.clement_text [luke] [source_of luke] in
  let john := Sample.john_3_16 0.87 in
  let r87 := _heuristic_classify Sample.query [john] [source_of john] in
  WordOverlap.count_shared_words GreekUCD.db Sample.clement_text (c_text luke) 3
  = 0%nat
  /\ (match_type r96, confidence r96, is_quotation r96) = (py "exact", 95, true)
  /\ Spec.classify GreekUCD.db Sample.clement_text [luke]
     = (py "non_biblical", 60)
  /\ WordOverlap.count_shared_words GreekUCD.db Sample.query (c_text john) 3
     = 6%nat
  /\ (match_type r87, confidence r87, is_quotation r87)
     = (py "close_paraphrase", 85, true)
  /\ Spec.classify GreekUCD.db Sample.query [john] = (py "loose_paraphrase", 70)
  /\ (forall o, Spec.classification_table 0.87 o = (py "loose_paraphrase", 70)
                \/ Spec.classification_table 0.87 o = (py "allusion", 55)
                \/ Spec.classification_table 0.87 o = (py "non_biblical", 60)).
Proof.
  cbv zeta. repeat split; try (vm_compute; reflexivity).
  intros o. unfold Spec.classification_table.
  replace (0.95 <=? 0.87)%float with false by reflexivity.
  replace (0.90 <=? 0.87)%float with false by reflexivity.
  replace (0.80 <=? 0.87)%float with true by reflexivity.
  replace (0.70 <=? 0.87)%float with true by reflexivity.
  cbn [andb]. destruct (3 <=? o)%nat; [now left |].
  destruct (2 <=? o)%nat; [now right; left | now right; right].
Qed.

(** ** C2: a failing vector store *)

(** C2, the claim refuted at a concrete input.  The vector store refuses
    the connection; [detect] raises nothing and returns the ordinary result
    for no candidates, the same result it returns when the store answers
    with an empty list. *)
Lemma C2_failure_returns_normal_result :
  let down := Sample.world None (inl Sample.connection_refused)
                           (inl Sample.connection_refused) in
  let empty := Sample.world None (inr []) (inl Sample.connection_refused) in
  retrieval_fails down (self (Sample.start false)) Sample.query
  /\ fst (detect GreekUCD.db down Sample.query 50 false (Sample.start false))
     = inr (no_candidates_result Sample.query 250)
  /\ fst (detect GreekUCD.db down Sample.query 50 false (Sample.start false))
     = fst (detect GreekUCD.db empty Sample.query 50 false
                   (Sample.start false)).
Proof.
  cbv zeta. split; [| split].
  - right. now exists Sample.connection_refused.
  - vm_compute. reflexivity.
  - vm_compute. reflexivity.
Qed.

Lemma retrieval_fails_retrieved w d text :
  retrieval_fails w d text -> fst (retrieved w d text) = [].
Proof.
  unfold retrieval_fails, retrieved, search_or_empty.
  intros [[Hm [e He]] | [e He]].
  - now rewrite Hm, He.
  - rewrite He. destruct (_qdrant_manager d); [reflexivity |].
    destruct (QdrantManager_new w); reflexivity.
Qed.

Lemma empty_search_retrieved w d text :
  QdrantManager_search w text (top_k d) (min_similarity d) = inr [] ->
  fst (retrieved w d text) = [].
Proof.
  unfold retrieved, search_or_empty. intros ->.
  destruct (_qdrant_manager d); [reflexivity |].
  destruct (QdrantManager_new w); reflexivity.
Qed.

(** [detect] on an empty retrieval, in either mode. *)
Lemma detect_no_candidates db w text mc iac s :
  fst (retrieved w (self s) text) = [] ->
  detect db w text mc iac s
  = (inr (no_candidates_result text (elapsed w s)),
     {| self := snd (retrieved w (self s) text);
        clock_reads := S (S (clock_reads s));
        llm_requests := llm_requests s |}).
Proof.
  intros E. unfold detect, bind at 1, time_time at 1.
  unfold bind at 1. rewrite vector_search_retrieved.
  cbn [self clock_reads llm_requests]. rewrite E. reflexivity.
Qed.

(** C2, amended.  When the retrieval fails, [_vector_search] catches the
    exception and [detect] returns a complete, ordinary result: not a
    quotation, confidence 90, [non_biblical], no sources and no best match.
    It is the result [detect] returns when the store answers with the empty
    list, so the caller cannot tell the two apart; no partial candidate list
    is ever returned. *)
Theorem C2_retrieval_failure_degrades db w text mc iac s :
  retrieval_fails w (self s) text
  \/ QdrantManager_search w text (top_k (self s)) (min_similarity (self s))
     = inr [] ->
  exists s',
    detect db w text mc iac s
    = (inr (no_candidates_result text (elapsed w s)), s').
Proof.
  intros H. eexists. apply detect_no_candidates.
  destruct H as [H | H].
  - now apply retrieval_fails_retrieved.
  - now apply empty_search_retrieved.
Qed.

(** The store refuses the connection of a fresh detector. *)
Lemma C2_retrieval_failure_degrades_witness :
  retrieval_fails (Sample.world None (inl Sample.connection_refused)
                                (inl Sample.connection_refused))
                  (self (Sample.start true)) Sample.query
  /\ exists s',
    detect GreekUCD.db
           (Sample.world None (inl Sample.connection_refused)
                         (inl Sample.connection_refused))
           Sample.query 50 false (Sample.start true)
    = (inr (no_candidates_result
              Sample.query
              (elapsed (Sample.world None (inl Sample.connection_refused)
                                     (inl Sample.connection_refused))
                       (Sample.start true))), s').
Proof.
  split.
  - right. exists Sample.connection_refused. reflexivity.
  - apply C2_retrieval_failure_degrades.
    left. right. exists Sample.connection_refused. reflexivity.
Defined.

(** ** C3: the match type of a result *)

(** C3.  With a usable API key and a candidate from the store, a request to
    the completion service that fails makes [verify_quotation] answer
    [UNCERTAIN] with confidence 0, and [detect] returns the match type
    ["uncertain"], which is none of the five; a reply whose [MATCH_TYPE] is
    not a member is returned as ["uncertain"] too, with the confidence the
    reply states. *)
Theorem C3_uncertain_is_returned :
  let cands := [Sample.john_3_16 0.87] in
  let failing := Sample.world (Some (py "sk-ant-key")) (inr cands)
                              (inl Sample.connection_refused) in
  let odd := Sample.world (Some (py "sk-ant-key")) (inr cands)
                          (inr (py "IS_QUOTATION: yes
MATCH_TYPE: probable
CONFIDENCE: 80
BEST_REFERENCE: John 3:16
EXPLANATION: Same words.")) in
  (exists r,
      fst (detect GreekUCD.db failing Sample.query 50 false (Sample.start true))
      = inr r
      /\ match_type r = py "uncertain" /\ confidence r = 0
      /\ ~ In (match_type r) Spec.match_types)
  /\ (exists r,
         fst (detect GreekUCD.db odd Sample.query 50 false (Sample.start true))
         = inr r
         /\ match_type r = py "uncertain" /\ confidence r = 80
         /\ is_quotation r = true
         /\ ~ In (match_type r) Spec.match_types).
Proof.
  cbv zeta. split.
  - eexists. split; [vm_compute; reflexivity |].
    repeat split; try reflexivity.
    vm_compute. intuition discriminate.
  - eexists. split; [vm_compute; reflexivity |].
    repeat split; try reflexivity.
    vm_compute. intuition discriminate.
Qed.

(** ** C4: the best match *)

(** C4, the claim refuted at concrete inputs.  The heuristic classifier on
    a top score of 0.5 answers [non_biblical] and still names the top
    candidate as best match.  On the LLM path a reply that says
    [non_biblical] and names a reference gives a result with a best match,
    and a reply that says [exact] without a reference and without
    [IS_QUOTATION: yes] gives a result without one. *)
Lemma C4_best_match_not_tied_to_match_type :
  let c := Sample.luke_21_14 0.5 in
  let h := _heuristic_classify Sample.clement_text [c] [source_of c] in
  let cands := [Sample.john_3_16 0.87] in
  let named := Sample.world (Some (py "sk-ant-key")) (inr cands)
                            (inr (py "IS_QUOTATION: no
MATCH_TYPE: non_biblical
CONFIDENCE: 90
BEST_REFERENCE: John 3:16
EXPLANATION: Similar theme only.")) in
  let unnamed := Sample.world (Some (py "sk-ant-key")) (inr cands)
                              (inr (py "MATCH_TYPE: exact
CONFIDENCE: 40
BEST_REFERENCE: none")) in
  (match_type h = py "non_biblical" /\ best_match h = Some (source_of c))
  /\ (exists r,
         fst (detect GreekUCD.db named Sample.query 50 false
                     (Sample.start true)) = inr r
         /\ match_type r = py "non_biblical"
         /\ best_match r = Some (source_of (Sample.john_3_16 0.87)))
  /\ (exists r,
         fst (detect GreekUCD.db unnamed Sample.query 50 false
                     (Sample.start true)) = inr r
         /\ match_type r = py "exact" /\ best_match r = None).
Proof.
  cbv zeta. split; [| split].
  - split; vm_compute; reflexivity.
  - eexists. split; [vm_compute; reflexivity |]. split; reflexivity.
  - eexists. split; [vm_compute; reflexivity |]. split; reflexivity.
Qed.

Lemma verify_quotation_returns db w client text cands s :
  exists v s', Claude.verify_quotation db w client text cands s = (inr v, s').
Proof.
  unfold Claude.verify_quotation. destruct cands as [| c cs].
  - now eexists _, _.
  - apply try_except_returns. intros e s'. now eexists _, _.
Qed.

Lemma find_best_match_in v srcs b :
  find_best_match v srcs = Some b -> In b srcs.
Proof.
  unfold find_best_match.
  destruct (v_best_match_reference v) as [r |].
  - destruct (Py.truthy r).
    + destruct (find _ srcs) as [b' |] eqn:F.
      * intros [= <-]. now apply find_some in F.
      * destruct (v_is_quotation v); [| discriminate].
        destruct srcs; [discriminate |]. intros [= <-]. now left.
    + destruct (v_is_quotation v); [| discriminate].
      destruct srcs; [discriminate |]. intros [= <-]. now left.
  - destruct (v_is_quotation v); [| discriminate].
    destruct srcs; [discriminate |]. intros [= <-]. now left.
Qed.

Lemma find_best_match_quotation v src srcs :
  v_is_quotation v = true -> find_best_match v (src :: srcs) <> None.
Proof.
  unfold find_best_match. intros ->.
  destruct (v_best_match_reference v) as [r |]; [| discriminate].
  destruct (Py.truthy r); [| discriminate].
  destruct (find _ (src :: srcs)); discriminate.
Qed.

(** [verify_quotation] on a non-empty list, in closed form: one request,
    answered by the parsed reply or by the verdict for an error. *)
Lemma verify_quotation_nonempty db w client text c cs s :
  Claude.verify_quotation db w client text (c :: cs) s
  = (inr (verdict db w (llm_requests s) text (c :: cs)),
     {| self := self s; clock_reads := clock_reads s;
        llm_requests := S (llm_requests s) |}).
Proof.
  unfold Claude.verify_quotation, try_except, bind, Claude.create, verdict.
  destruct (messages_create w (llm_requests s) _); reflexivity.
Qed.

(** What the property [claude_client] does: it returns the client it has,
    creates one when the key allows it, raises when the key is refused, and
    returns [None] in heuristic mode. *)
Lemma claude_client_spec w s r s1 :
  claude_client w s = (r, s1) ->
  clock_reads s1 = clock_reads s
  /\ llm_requests s1 = llm_requests s
  /\ same_config (self s) (self s1)
  /\ kept_clients (self s) (self s1)
  /\ match r with
     | inl _ =>
       _claude_client (self s) = None /\ use_llm (self s) = true
       /\ key_refused (getenv_ANTHROPIC_API_KEY w)
     | inr None =>
       _claude_client (self s) = None /\ use_llm (self s) = false
     | inr (Some _) =>
       _claude_client (self s) = None ->
       use_llm (self s) = true /\ key_usable (getenv_ANTHROPIC_API_KEY w)
     end.
Proof.
  unfold claude_client, bind at 1, get_self.
  destruct (_claude_client (self s)) as [client |] eqn:Ec.
  - intros [= <- <-]. repeat split; auto; discriminate.
  - destruct (use_llm (self s)) eqn:Eu.
    + unfold bind at 1, Claude.__init__.
      destruct (getenv_ANTHROPIC_API_KEY w) as [[| k0 key'] |] eqn:Ek.
      * intros [= <- <-]. repeat split; auto; try congruence.
        right. now left.
      * cbn [Py.truthy negb orb].
        destruct (Py.eqb (k0 :: key') (py "your_key_here")) eqn:Ee.
        -- intros [= <- <-]. repeat split; auto; try congruence.
           right. right. unfold Py.eqb in Ee.
           destruct (list_eq_dec N.eq_dec (k0 :: key') (py "your_key_here"));
             [congruence | discriminate].
        -- intros [= <- <-]. cbn [self clock_reads llm_requests].
           split; [reflexivity |]. split; [reflexivity |].
           split; [repeat split |].
           split; [split; cbn; [auto | congruence] |].
           intros _. split; [reflexivity |].
           exists (k0 :: key'). split; [reflexivity |].
           split; [discriminate |].
           intros Heq. rewrite Heq in Ee. vm_compute in Ee. discriminate.
      * intros [= <- <-]. repeat split; auto; try congruence. now left.
    + intros [= <- <-]. repeat split; auto; congruence.
Qed.

Lemma find_first_with_reference r srcs b :
  first_with_reference r srcs b ->
  find (fun source => Py.eqb (reference source) r) srcs = Some b.
Proof.
  intros (before & after & -> & Hb & Hbefore).
  induction Hbefore as [| a before Ha _ IH]; cbn [app find].
  - now rewrite Hb, py_eqb_refl.
  - now rewrite (py_eqb_false _ _ Ha).
Qed.

Lemma find_no_reference (r : Py.str) srcs :
  Forall (fun x => reference x <> r) srcs ->
  find (fun source => Py.eqb (reference source) r) srcs = None.
Proof.
  induction 1 as [| a srcs Ha _ IH]; [reflexivity |].
  cbn [find]. now rewrite (py_eqb_false _ _ Ha).
Qed.

(** The rule of [find_best_match], spelled out. *)
Lemma find_best_match_named v srcs r b :
  v_best_match_reference v = Some r -> r <> [] ->
  first_with_reference r srcs b ->
  find_best_match v srcs = Some b.
Proof.
  intros Hr Hne Hb. unfold find_best_match. rewrite Hr.
  destruct r as [| c r]; [congruence |]. cbn [Py.truthy].
  now rewrite (find_first_with_reference _ _ _ Hb).
Qed.

Lemma find_best_match_unnamed v srcs :
  names_no_source v srcs ->
  find_best_match v srcs = if v_is_quotation v then hd_error srcs else None.
Proof.
  unfold names_no_source, find_best_match.
  destruct (v_best_match_reference v) as [r |]; [| reflexivity].
  intros [-> | H]; [reflexivity |].
  destruct (Py.truthy r); [| reflexivity].
  now rewrite (find_no_reference _ _ H).
Qed.

Lemma key_usable_not_refused key : key_usable key -> ~ key_refused key.
Proof.
  intros (k & -> & Hne & Hph) [H | [H | H]]; congruence.
Qed.

(** A detector cannot both lack a client for good and have one at hand. *)
Lemma no_client_not_available w d :
  no_client w d -> client_available w d -> False.
Proof.
  intros [Hn Hm] [Ha | [Hu Hk]]; [contradiction |].
  destruct Hm as [Hm | Hm]; [congruence |].
  now apply (key_usable_not_refused _ Hk).
Qed.

(** The verdict of [verify_quotation] depends on the state only through
    the number of the request, and not on the client. *)
Lemma verify_quotation_verdict db w client client' text cands s s1 :
  llm_requests s1 = llm_requests s ->
  fst (Claude.verify_quotation db w client text cands s1)
  = fst (Claude.verify_quotation db w client' text cands s).
Proof.
  intros H. destruct cands as [| c cs]; [reflexivity |].
  rewrite !verify_quotation_nonempty. cbn [fst]. now rewrite H.
Qed.

(** C4, amended.  The heuristic classifier names the top candidate as best
    match in every branch, [non_biblical] included: the best match is absent
    exactly when there is no candidate, and then the match type is
    [non_biblical].  [_llm_verify] always returns.  When the detector has no
    client and gets none, its result is the heuristic one.  When it has a
    client or creates one, the result carries [is_quotation] and the match
    type of the verdict that [verify_quotation] gives, and its best match
    follows the verdict's reference and [is_quotation], never the match
    type: it is the first source whose reference is the non-empty reference
    the verdict names; when the verdict names no source, it is the top
    source if the verdict says quotation and absent if not.  One of the two
    cases always applies.  In both a best match is one of the sources, and
    a result that says quotation has one. *)
Theorem C4_best_match_rule db w text cands s :
  let srcs := map source_of cands in
  let top := option_map source_of (hd_error cands) in
  let h := _heuristic_classify text cands srcs in
  (best_match h = top
   /\ (best_match h = None <-> cands = [])
   /\ (best_match h = None -> match_type h = py "non_biblical"))
  /\ exists res s',
       _llm_verify db w text cands srcs s = (inr res, s')
       /\ (forall b, best_match res = Some b -> In b srcs)
       /\ (is_quotation res = true -> cands <> [] -> best_match res <> None)
       /\ (no_client w (self s) \/ client_available w (self s))
       /\ (no_client w (self s) -> res = h)
       /\ (client_available w (self s) ->
           exists v,
             (forall client,
                 fst (Claude.verify_quotation db w client text cands s)
                 = inr v)
             /\ is_quotation res = v_is_quotation v
             /\ match_type res = Claude.value (v_match_type v)
             /\ (forall r b,
                    v_best_match_reference v = Some r -> r <> [] ->
                    first_with_reference r srcs b ->
                    best_match res = Some b)
             /\ (names_no_source v srcs ->
                 best_match res = if v_is_quotation v then top else None)).
Proof.
  cbv zeta.
  assert (Hh : best_match (_heuristic_classify text cands (map source_of cands))
               = option_map source_of (hd_error cands)).
  { destruct cands as [| c cs]; [reflexivity |].
    now rewrite heuristic_best_match. }
  assert (Hin : forall b,
             best_match (_heuristic_classify text cands (map source_of cands))
             = Some b -> In b (map source_of cands)).
  { intros b. rewrite Hh. destruct cands as [| c cs]; [discriminate |].
    intros [= <-]. now left. }
  assert (Hq : cands <> [] ->
               best_match (_heuristic_classify text cands (map source_of cands))
               <> None).
  { rewrite Hh. destruct cands; [congruence | discriminate]. }
  split.
  { split; [exact Hh |]. split.
    - rewrite Hh. destruct cands; simpl; split; congruence.
    - rewrite Hh. destruct cands; [reflexivity | discriminate]. }
  unfold _llm_verify, try_except, bind at 1.
  destruct (claude_client w s) as [[e | [client |]] s1] eqn:Hc;
    apply claude_client_spec in Hc;
    destruct Hc as (_ & Hreq & _ & _ & H).
  - assert (N : no_client w (self s)).
    { destruct H as (H1 & _ & H3). split; [exact H1 | now right]. }
    eexists _, _. split; [reflexivity |].
    split; [exact Hin |]. split; [intros _; exact Hq |].
    split; [now left |]. split; [reflexivity |].
    intros A. destruct (no_client_not_available w (self s) N A).
  - assert (A : client_available w (self s)).
    { unfold client_available.
      destruct (_claude_client (self s)) eqn:Ec; [left; discriminate |].
      right. now apply H. }
    unfold bind.
    destruct (Claude.verify_quotation db w client text cands s1)
      as [[e | v] s2] eqn:Hv.
    + exfalso. destruct (verify_quotation_returns db w client text cands s1)
        as (v & s2' & Hv'). congruence.
    + eexists _, _. split; [reflexivity |].
      cbn [best_match is_quotation match_type].
      split; [intros b; apply find_best_match_in |].
      split.
      { intros Hqv Hne. destruct cands as [| c cs]; [congruence |].
        now apply find_best_match_quotation. }
      split; [now right |]. split.
      { intros N. destruct (no_client_not_available w (self s) N A). }
      intros _. exists v. split.
      { intros client'.
        rewrite <- (verify_quotation_verdict
                      db w client client' text cands s s1 Hreq).
        now rewrite Hv. }
      split; [reflexivity |]. split; [reflexivity |]. split.
      * intros r b. apply find_best_match_named.
      * intros Hn. rewrite (find_best_match_unnamed _ _ Hn).
        destruct cands; reflexivity.
  - assert (N : no_client w (self s)).
    { destruct H as (H1 & H2). split; [exact H1 | now left]. }
    eexists _, _. split; [reflexivity |].
    split; [exact Hin |]. split; [intros _; exact Hq |].
    split; [now left |]. split; [reflexivity |].
    intros A. destruct (no_client_not_available w (self s) N A).
Qed.

(** ** C5: final sigma in the normalizer *)

(** C5, the claim refuted at concrete inputs.  [normalize] has no step for
    sigma: final sigma comes out as final sigma, a word written with final
    sigma and the same word written with medial sigma keep different normal
    forms, and lower-casing a capital sigma at the end of a word even
    introduces U+03C2. *)
Lemma C5_final_sigma_is_kept :
  GreekProcessor.normalize GreekUCD.db (py "ς") = [0x3C2%N]
  /\ GreekProcessor.normalize GreekUCD.db (py "σ") = [0x3C3%N]
  /\ GreekProcessor.normalize GreekUCD.db (py "θεος")
     <> GreekProcessor.normalize GreekUCD.db (py "θεοσ")
  /\ GreekProcessor.normalize GreekUCD.db (py "ΘΕΟΣ") = py "θεος"
  /\ In 0x3C2%N (GreekProcessor.normalize GreekUCD.db (py "ΘΕΟΣ")).
Proof.
  repeat split; try (vm_compute; reflexivity).
  - vm_compute. discriminate.
  - vm_compute. auto.
Qed.

Lemma filter_filter_weak {A} (p q : A -> bool) l :
  (forall a, p a = true -> q a = true) ->
  filter p (filter q l) = filter p l.
Proof.
  intros H. induction l as [| a l IH]; [reflexivity |].
  simpl. destruct (q a) eqn:Eq.
  - simpl. now rewrite IH.
  - destruct (p a) eqn:Ep; [| exact IH].
    rewrite (H a Ep) in Eq. discriminate.
Qed.

Section Sigma.
Import Py Unicode GreekProcessor.
Variable db : UCD.
Variable p : codepoint -> bool.

Lemma filter_insert_mark c acc :
  p c = false -> filter p (insert_mark db c acc) = filter p acc.
Proof.
  intros Hc. induction acc as [| a acc IH]; simpl.
  - now rewrite Hc.
  - destruct ((0 <? combining db a)%N && (combining db c <? combining db a)%N).
    + simpl. now rewrite IH.
    + simpl. now rewrite Hc.
Qed.

Hypothesis Hp : forall c, p c = true -> combining db c = 0%N.

Lemma filter_order_step y : forall acc,
  filter p (fold_left (fun acc c => if (combining db c =? 0)%N then c :: acc
                                    else insert_mark db c acc) y acc)
  = rev (filter p y) ++ filter p acc.
Proof.
  induction y as [| c y IH]; intros acc; [reflexivity |].
  simpl. rewrite IH. destruct (combining db c =? 0)%N eqn:Ec.
  - simpl. destruct (p c); [| reflexivity].
    simpl. now rewrite <- app_assoc.
  - destruct (p c) eqn:Epc.
    + apply Hp in Epc. apply N.eqb_neq in Ec. contradiction.
    + now rewrite filter_insert_mark.
Qed.

(** Canonical ordering moves combining marks only. *)
Lemma filter_canonical_order y :
  filter p (canonical_order db y) = filter p y.
Proof.
  unfold canonical_order.
  rewrite filter_rev, filter_order_step, app_nil_r. apply rev_involutive.
Qed.

Hypothesis Hsp : forall c, p c = true -> isspace db c = false.

Lemma filter_lstrip s : filter p (lstrip (isspace db) s) = filter p s.
Proof.
  induction s as [| c s IH]; [reflexivity |].
  simpl. destruct (isspace db c) eqn:E; [| reflexivity].
  rewrite IH. destruct (p c) eqn:Epc; [| reflexivity].
  apply Hsp in Epc. congruence.
Qed.

Lemma filter_strip s : filter p (strip (isspace db) s) = filter p s.
Proof.
  unfold strip, rstrip.
  rewrite filter_rev, filter_lstrip, filter_rev, rev_involutive.
  apply filter_lstrip.
Qed.

End Sigma.

Lemma is_sigma_any c : is_sigma c = true -> any_sigma c = true.
Proof. unfold any_sigma. intros ->. apply orb_true_r. Qed.

Lemma any_sigma_lower c : c <> 0x3A3%N -> any_sigma c = is_sigma c.
Proof. intros H. unfold any_sigma. apply N.eqb_neq in H. now rewrite H. Qed.

Lemma handle_capital_sigma_is_sigma db before after :
  is_sigma (Unicode.handle_capital_sigma db before after) = true.
Proof.
  unfold Unicode.handle_capital_sigma.
  destruct (match Unicode.skip_ignorable db before with
            | Some _ => _ | None => _ end); reflexivity.
Qed.

(** Lower-casing keeps each final and medial sigma and turns each capital
    sigma into one of them. *)
Lemma lower_from_sigmas db :
  (forall c, c <> 0x3A3%N ->
             filter is_sigma (Unicode.tolower db c) = filter is_sigma [c]) ->
  forall y before,
    Forall2 kept_sigma (filter any_sigma y)
            (filter is_sigma (Unicode.lower_from db before y)).
Proof.
  intros Hl. induction y as [| c y IH]; intros before; [constructor |].
  cbn [Unicode.lower_from]. rewrite filter_app.
  destruct (c =? 0x3A3)%N eqn:Ec.
  - apply N.eqb_eq in Ec. subst c. cbn [filter].
    change (any_sigma 0x3A3%N) with true. cbv iota.
    rewrite handle_capital_sigma_is_sigma. cbn [app].
    constructor; [| apply IH].
    unfold kept_sigma. cbn [N.eqb Pos.eqb]. apply handle_capital_sigma_is_sigma.
  - apply N.eqb_neq in Ec. rewrite (Hl c Ec).
    cbn [filter]. rewrite (any_sigma_lower c Ec).
    destruct (is_sigma c); cbn [app]; [| apply IH].
    constructor; [| apply IH].
    unfold kept_sigma. apply N.eqb_neq in Ec. now rewrite Ec.
Qed.

Lemma normalize_sigmas db x :
  sigma_database db ->
  Forall2 kept_sigma (filter any_sigma x)
          (sigmas (GreekProcessor.normalize db x)).
Proof.
  intros (Hd & Hc & Hl & Hw).
  assert (E : filter any_sigma
                (filter (fun c => (Unicode.combining db c =? 0)%N)
                        (Unicode.normalize_NFD db x))
              = filter any_sigma x).
  { rewrite filter_filter_weak
      by (intros a Ha; apply N.eqb_eq; now apply Hc).
    unfold Unicode.normalize_NFD.
    rewrite (filter_canonical_order db any_sigma Hc).
    induction x as [| c x IH]; [reflexivity |].
    cbn [flat_map]. rewrite filter_app, Hd, IH.
    symmetry. apply (filter_app any_sigma [c] x). }
  unfold sigmas, GreekProcessor.normalize.
  rewrite (filter_strip db is_sigma (fun c H => proj2 (Hw c H))).
  rewrite filter_filter_weak.
  - rewrite <- E. apply lower_from_sigmas. exact Hl.
  - intros a Ha. unfold Unicode.re_word.
    now rewrite (proj1 (Hw a Ha)).
Qed.

Lemma kept_sigma_lower l : forall l',
  Forall2 kept_sigma l l' -> ~ In 0x3A3%N l -> l' = l.
Proof.
  induction l as [| a l IH]; intros l' H Hn; inversion H as [| ? b ? l2 Hk Hr]; subst;
    [reflexivity |].
  unfold kept_sigma in Hk.
  destruct (a =? 0x3A3)%N eqn:Ea.
  - apply N.eqb_eq in Ea. subst a. exfalso. apply Hn. now left.
  - subst b. f_equal. apply IH; [exact Hr |].
    intros Hin. apply Hn. now right.
Qed.

Lemma filter_any_sigma_lower x :
  ~ In 0x3A3%N x -> filter any_sigma x = sigmas x.
Proof.
  intros Hn. unfold sigmas. apply filter_ext_in.
  intros a Ha. apply any_sigma_lower. intros ->. contradiction.
Qed.

Lemma normalize_sigmas_lower db x :
  sigma_database db -> ~ In 0x3A3%N x ->
  sigmas (GreekProcessor.normalize db x) = sigmas x.
Proof.
  intros Hdb Hn.
  pose proof (normalize_sigmas db x Hdb) as H.
  rewrite <- (filter_any_sigma_lower x Hn).
  apply kept_sigma_lower; [exact H |].
  intros Hin. apply filter_In in Hin. now destruct Hin.
Qed.

Lemma decompositions_keep_sigma_holds : decompositions_keep_sigma = true.
Proof. vm_compute. reflexivity. Qed.

Lemma lower_cases_keep_sigma_holds : lower_cases_keep_sigma = true.
Proof. vm_compute. reflexivity. Qed.

Lemma GreekUCD_decomposition_sigma c :
  filter any_sigma (GreekUCD.lookup GreekUCD.decomposition_table c)
  = filter any_sigma [c].
Proof.
  destruct (lookup_in GreekUCD.decomposition_table c) as [E | E].
  - now rewrite E.
  - pose proof decompositions_keep_sigma_holds as C.
    unfold decompositions_keep_sigma in C.
    apply (proj1 (forallb_forall _ _))
      with (x := (c, GreekUCD.lookup GreekUCD.decomposition_table c)) in C;
      [| exact E].
    cbn [fst snd] in C. apply py_eqb_true in C. exact C.
Qed.

Lemma GreekUCD_lower_sigma c :
  c <> 0x3A3%N ->
  filter is_sigma (GreekUCD.lookup GreekUCD.tolower_table c)
  = filter is_sigma [c].
Proof.
  intros Hc.
  destruct (lookup_in GreekUCD.tolower_table c) as [E | E].
  - now rewrite E.
  - pose proof lower_cases_keep_sigma_holds as C.
    unfold lower_cases_keep_sigma in C.
    apply (proj1 (forallb_forall _ _))
      with (x := (c, GreekUCD.lookup GreekUCD.tolower_table c)) in C;
      [| exact E].
    cbn [fst snd] in C. apply N.eqb_neq in Hc. rewrite Hc in C.
    cbn [orb] in C. apply py_eqb_true in C. exact C.
Qed.

Lemma any_sigma_cases c :
  any_sigma c = true -> c = 0x3A3%N \/ c = 0x3C2%N \/ c = 0x3C3%N.
Proof.
  unfold any_sigma, is_sigma. intros H.
  apply orb_true_iff in H. destruct H as [H | H].
  - left. now apply N.eqb_eq.
  - apply orb_true_iff in H. destruct H as [H | H]; apply N.eqb_eq in H; auto.
Qed.

(** The tables of [GreekUCD] have the four facts. *)
Lemma GreekUCD_sigma : sigma_database GreekUCD.db.
Proof.
  split; [| split; [| split]].
  - exact GreekUCD_decomposition_sigma.
  - intros c H. apply any_sigma_cases in H.
    destruct H as [-> | [-> | ->]]; vm_compute; reflexivity.
  - exact GreekUCD_lower_sigma.
  - intros c H. apply is_sigma_any, any_sigma_cases in H.
    destruct H as [-> | [-> | ->]]; try discriminate;
      split; vm_compute; reflexivity.
Qed.

Lemma kept_sigma_final l l' :
  Forall2 kept_sigma l l' -> In 0x3C2%N l -> In 0x3C2%N l'.
Proof.
  induction 1 as [| a b l l' Hk _ IH]; [auto |].
  intros [-> | Hin]; [left; exact Hk | right; now apply IH].
Qed.

Lemma not_in_text (c : Py.codepoint) x :
  existsb (N.eqb c) x = false -> ~ In c x.
Proof.
  intros H Hin.
  assert (E : existsb (N.eqb c) x = true)
    by (apply existsb_exists; exists c; split; [exact Hin | apply N.eqb_refl]).
  congruence.
Qed.

(** C5, amended.  The normalizer has no step for sigma and leaves final and
    medial sigma as it finds them, in every text: on a Unicode database
    with the four facts of [sigma_database], the final and medial sigmas of
    the output are, in order, the sigmas of the input, each final or medial
    sigma as it was and each capital sigma as one of the two.  So a final
    sigma of the input is in the output; a text without capital sigma keeps
    exactly its sigmas; and two texts without capital sigma whose sigmas
    differ have different normal forms. *)
Theorem C5_normalize_keeps_sigma db x y :
  sigma_database db ->
  Forall2 kept_sigma (filter any_sigma x)
          (sigmas (GreekProcessor.normalize db x))
  /\ (In 0x3C2%N x -> In 0x3C2%N (GreekProcessor.normalize db x))
  /\ (~ In 0x3A3%N x ->
      sigmas (GreekProcessor.normalize db x) = sigmas x)
  /\ (~ In 0x3A3%N x -> ~ In 0x3A3%N y -> sigmas x <> sigmas y ->
      GreekProcessor.normalize db x <> GreekProcessor.normalize db y).
Proof.
  intros Hdb. pose proof (normalize_sigmas db x Hdb) as H.
  split; [exact H |]. split; [| split].
  - intros Hin.
    assert (Hf : In 0x3C2%N (filter any_sigma x))
      by (apply filter_In; split; [exact Hin | reflexivity]).
    apply (kept_sigma_final _ _ H) in Hf.
    apply filter_In in Hf. now destruct Hf.
  - now apply normalize_sigmas_lower.
  - intros Hx Hy Hne E. apply Hne.
    rewrite <- (normalize_sigmas_lower db x Hdb Hx),
            <- (normalize_sigmas_lower db y Hdb Hy).
    now rewrite E.
Qed.

(** Two verses with accents, a capital, punctuation and spaces, on the
    tables of [GreekUCD]. *)
Lemma C5_normalize_keeps_sigma_witness :
  sigma_database GreekUCD.db
  /\ sigmas (GreekProcessor.normalize GreekUCD.db
               (py "Ὁ θεὸς ἠγάπησεν, τὸν κόσμον"))
     = sigmas (py "Ὁ θεὸς ἠγάπησεν, τὸν κόσμον")
  /\ GreekProcessor.normalize GreekUCD.db (py "ὁ θεὸς ἀγάπη ἐστίν")
     <> GreekProcessor.normalize GreekUCD.db (py "ὁ θεὸσ ἀγάπη ἐστίν").
Proof.
  split; [exact GreekUCD_sigma |]. split.
  - apply (C5_normalize_keeps_sigma
             GreekUCD.db (py "Ὁ θεὸς ἠγάπησεν, τὸν κόσμον") []
             GreekUCD_sigma).
    apply not_in_text. vm_compute. reflexivity.
  - apply (C5_normalize_keeps_sigma
             GreekUCD.db (py "ὁ θεὸς ἀγάπη ἐστίν") (py "ὁ θεὸσ ἀγάπη ἐστίν")
             GreekUCD_sigma).
    + apply not_in_text. vm_compute. reflexivity.
    + apply not_in_text. vm_compute. reflexivity.
    + vm_compute. discriminate.
Defined.

(** ** C6: the confidence floor *)

(** C6.  [detect] always returns a result, and a result whose confidence is
    strictly below [min_confidence] has [is_quotation = false], in both
    modes and whatever the match type. *)
Theorem C6_confidence_floor db w text min_confidence include_all s :
  exists r s',
    detect db w text min_confidence include_all s = (inr r, s')
    /\ (confidence r < min_confidence -> is_quotation r = false).
Proof.
  destruct (detect_returns db w text min_confidence include_all s)
    as (r & s' & H & [[t ->] | (srcs & t & res & ->)]);
    eexists _, s'; (split; [exact H |]).
  - reflexivity.
  - rewrite shape_confidence. apply shape_floor.
Qed.

(** ** C7: heuristic mode is deterministic *)

Lemma retrieved_same_store w w' d text :
  QdrantManager_new w' = QdrantManager_new w ->
  (forall q k f, QdrantManager_search w' q k f = QdrantManager_search w q k f) ->
  retrieved w' d text = retrieved w d text.
Proof.
  intros Hn Hs. unfold retrieved, search_or_empty. now rewrite Hn, Hs.
Qed.

Lemma heuristic_outcome_time text mc iac cands t t' :
  set_processing_time_ms t' (heuristic_outcome text mc iac cands t)
  = heuristic_outcome text mc iac cands t'.
Proof. destruct cands; reflexivity. Qed.

(** C7.  Take a detector in heuristic mode and two calls of [detect] with
    the same text and options; the second call runs on the detector as it
    was before the first call or as the first call left it, at any later
    time, and its world may differ from the first in the clock, in the
    completion service, in the environment and in everything but the answers
    of the vector store.  Both calls return, and the two results are equal
    once [processing_time_ms] is set aside. *)
Theorem C7_heuristic_detect_deterministic
        db db' w w' text min_confidence include_all s s' :
  QdrantManager_new w' = QdrantManager_new w ->
  (forall q k f, QdrantManager_search w' q k f = QdrantManager_search w q k f) ->
  use_llm (self s) = false ->
  self s' = self s
  \/ self s' = self (snd (detect db w text min_confidence include_all s)) ->
  exists r r',
    fst (detect db w text min_confidence include_all s) = inr r
    /\ fst (detect db' w' text min_confidence include_all s') = inr r'
    /\ set_processing_time_ms 0 r' = set_processing_time_ms 0 r.
Proof.
  intros Hn Hs Hllm Hself.
  rewrite (detect_heuristic db w text min_confidence include_all s Hllm)
    in Hself |- *.
  cbn [fst snd self] in Hself |- *.
  assert (Hllm' : use_llm (self s') = false).
  { destruct Hself as [-> | ->]; [assumption |].
    now rewrite retrieved_use_llm. }
  rewrite (detect_heuristic db' w' text min_confidence include_all s' Hllm').
  cbn [fst].
  assert (Hc : fst (retrieved w' (self s') text)
               = fst (retrieved w (self s) text)).
  { rewrite (retrieved_same_store w w' (self s') text Hn Hs).
    destruct Hself as [-> | ->]; [reflexivity |].
    now rewrite retrieved_again. }
  eexists _, _. split; [reflexivity |]. split; [reflexivity |].
  now rewrite !heuristic_outcome_time, Hc.
Qed.

(** Two calls in a row on a fresh heuristic detector. *)
Lemma C7_heuristic_detect_deterministic_witness :
  let w := Sample.world None (inr [Sample.john_3_16 0.87])
                        (inl Sample.connection_refused) in
  let s := Sample.start false in
  let s' := snd (detect GreekUCD.db w Sample.query 50 false s) in
  use_llm (self s) = false
  /\ exists r r',
    fst (detect GreekUCD.db w Sample.query 50 false s) = inr r
    /\ fst (detect GreekUCD.db w Sample.query 50 false s') = inr r'
    /\ set_processing_time_ms 0 r' = set_processing_time_ms 0 r.
Proof.
  cbv zeta. split; [reflexivity |].
  apply C7_heuristic_detect_deterministic.
  - reflexivity.
  - reflexivity.
  - reflexivity.
  - right. reflexivity.
Defined.

(** ** C8: the confidences of heuristic mode *)

(** C8.  In heuristic mode [detect] returns, and the confidence of its
    result is one of 55, 60, 70, 85, 90 and 95; it is never below 55. *)
Theorem C8_heuristic_confidence_values
        db w text min_confidence include_all s :
  use_llm (self s) = false ->
  exists r s',
    detect db w text min_confidence include_all s = (inr r, s')
    /\ In (confidence r) [55; 60; 70; 85; 90; 95]
    /\ 55 <= confidence r.
Proof.
  intros Hllm. rewrite (detect_heuristic db w _ _ _ s Hllm).
  eexists _, _. split; [reflexivity |].
  unfold heuristic_outcome.
  destruct (fst (retrieved w (self s) text)) as [| c cs].
  - simpl. split; [auto 6 | lia].
  - rewrite shape_confidence.
    pose proof (heuristic_confidence text c cs (map source_of (c :: cs)))
      as H.
    simpl in H |- *.
    split; [intuition | intuition lia].
Qed.

(** A fresh heuristic detector on one candidate. *)
Lemma C8_heuristic_confidence_values_witness :
  use_llm (self (Sample.start false)) = false
  /\ exists r s',
    detect GreekUCD.db
           (Sample.world None (inr [Sample.john_3_16 0.87])
                         (inl Sample.connection_refused))
           Sample.query 50 false (Sample.start false) = (inr r, s')
    /\ In (confidence r) [55; 60; 70; 85; 90; 95]
    /\ 55 <= confidence r.
Proof.
  split; [reflexivity |].
  apply C8_heuristic_confidence_values. reflexivity.
Defined.

(** ** C9: a missing API key *)

Lemma claude_init_refused w s :
  key_refused (getenv_ANTHROPIC_API_KEY w) ->
  Claude.__init__ w s
  = (inl (ValueError (py "ANTHROPIC_API_KEY not set in environment")), s).
Proof.
  unfold Claude.__init__. intros [-> | [-> | ->]]; reflexivity.
Qed.

(** Without a usable key the lazy initialisation raises inside
    [_llm_verify], whose handler answers with the heuristic classification;
    the state is left as it was. *)
Lemma llm_verify_falls_back db w text cands srcs s :
  key_refused (getenv_ANTHROPIC_API_KEY w) ->
  use_llm (self s) = true ->
  _claude_client (self s) = None ->
  _llm_verify db w text cands srcs s
  = (inr (_heuristic_classify text cands srcs), s).
Proof.
  intros Hk Hllm Hc.
  unfold _llm_verify, try_except, bind at 1, claude_client, bind at 1,
    get_self.
  rewrite Hc, Hllm. unfold bind. rewrite (claude_init_refused w s Hk).
  reflexivity.
Qed.

Lemma detect_llm_refused db w text mc iac s :
  key_refused (getenv_ANTHROPIC_API_KEY w) ->
  use_llm (self s) = true ->
  _claude_client (self s) = None ->
  detect db w text mc iac s
  = (inr (heuristic_outcome text mc iac
                            (fst (retrieved w (self s) text)) (elapsed w s)),
     {| self := snd (retrieved w (self s) text);
        clock_reads := S (S (clock_reads s));
        llm_requests := llm_requests s |}).
Proof.
  intros Hk Hllm Hc. unfold detect, bind at 1, time_time at 1.
  unfold bind at 1. rewrite vector_search_retrieved.
  unfold heuristic_outcome, elapsed. cbn [self clock_reads llm_requests].
  destruct (fst (retrieved w (self s) text)) as [| c cs] eqn:E.
  - reflexivity.
  - unfold bind at 1, get_self. cbn [self with_self].
    rewrite retrieved_use_llm, Hllm.
    unfold bind at 1. rewrite llm_verify_falls_back.
    + destruct iac; reflexivity.
    + assumption.
    + cbn [self with_self]. now rewrite retrieved_use_llm.
    + cbn [self with_self]. now rewrite retrieved_claude_client.
Qed.

Lemma retrieved_heuristic_mode w d text :
  fst (retrieved w (heuristic_mode d) text) = fst (retrieved w d text).
Proof.
  unfold retrieved, search_or_empty, heuristic_mode; cbn.
  destruct (_qdrant_manager d); [reflexivity |].
  destruct (QdrantManager_new w); reflexivity.
Qed.

(** C9.  When the API key is unset, empty or the placeholder and the client
    has not been created, a call of [detect] in LLM mode raises nothing: it
    returns the result of the heuristic classification of the candidates the
    search retrieved, which is the result the same call returns on the
    detector switched to heuristic mode.  No request is sent, and the client
    is still missing afterwards, so the same holds for every later call. *)
Theorem C9_missing_key_falls_back db w text min_confidence include_all s :
  key_refused (getenv_ANTHROPIC_API_KEY w) ->
  use_llm (self s) = true ->
  _claude_client (self s) = None ->
  exists r s',
    detect db w text min_confidence include_all s = (inr r, s')
    /\ r = heuristic_outcome text min_confidence include_all
                             (fst (retrieved w (self s) text)) (elapsed w s)
    /\ fst (detect db w text min_confidence include_all
                   (with_self (heuristic_mode (self s)) s)) = inr r
    /\ use_llm (self s') = true
    /\ _claude_client (self s') = None
    /\ llm_requests s' = llm_requests s.
Proof.
  intros Hk Hllm Hc.
  rewrite (detect_llm_refused db w text min_confidence include_all s Hk Hllm Hc).
  eexists _, _. split; [reflexivity |]. split; [reflexivity |].
  split; [| split; [| split]].
  - rewrite detect_heuristic by reflexivity.
    cbn [fst self with_self]. now rewrite retrieved_heuristic_mode.
  - cbn [self]. now rewrite retrieved_use_llm.
  - cbn [self]. now rewrite retrieved_claude_client.
  - reflexivity.
Qed.

(** A fresh LLM-mode detector where the key is the placeholder. *)
Lemma C9_missing_key_falls_back_witness :
  let w := Sample.world (Some (py "your_key_here"))
                        (inr [Sample.john_3_16 0.87])
                        (inl Sample.connection_refused) in
  let s := Sample.start true in
  key_refused (getenv_ANTHROPIC_API_KEY w)
  /\ use_llm (self s) = true
  /\ _claude_client (self s) = None
  /\ exists r s',
    detect GreekUCD.db w Sample.query 50 false s = (inr r, s')
    /\ r = heuristic_outcome Sample.query 50 false
                             (fst (retrieved w (self s) Sample.query))
                             (elapsed w s)
    /\ fst (detect GreekUCD.db w Sample.query 50 false
                   (with_self (heuristic_mode (self s)) s)) = inr r
    /\ use_llm (self s') = true
    /\ _claude_client (self s') = None
    /\ llm_requests s' = llm_requests s.
Proof.
  cbv zeta. split; [right; right; reflexivity |].
  split; [reflexivity |]. split; [reflexivity |].
  apply C9_missing_key_falls_back.
  - right. right. reflexivity.
  - reflexivity.
  - reflexivity.
Defined.

(** ** C10: the batch *)

Lemma detect_batch_loop_mapM db w mc texts : forall results s,
  detect_batch_loop db w results texts mc s
  = match mapM (fun text => detect db w text mc false) texts s with
    | (inr rs, s') => (inr (results ++ rs), s')
    | (inl e, s') => (inl e, s')
    end.
Proof.
  induction texts as [| text texts IH]; intros results s.
  - simpl. unfold ret. now rewrite app_nil_r.
  - simpl. unfold bind, ret.
    destruct (detect db w text mc false s) as [[e | r] s1]; [reflexivity |].
    rewrite IH.
    destruct (mapM (fun text0 => detect db w text0 mc false) texts s1)
      as [[e | rs] s2]; [reflexivity |].
    now rewrite <- app_assoc.
Qed.

Lemma mapM_detect_returns db w mc texts : forall s,
  exists rs s',
    mapM (fun text => detect db w text mc false) texts s = (inr rs, s')
    /\ List.length rs = List.length texts.
Proof.
  induction texts as [| text texts IH]; intros s.
  - now exists [], s.
  - simpl. unfold bind at 1.
    destruct (detect_returns db w text mc false s) as (r & s1 & -> & _).
    unfold bind. destruct (IH s1) as (rs & s2 & -> & Hlen).
    exists (r :: rs), s2. simpl. now rewrite Hlen.
Qed.

(** C10.  [detect_batch] is the list comprehension
    [[detect(t, min_confidence) for t in texts]] with
    [include_all_candidates] at its default [False]: the same results in the
    same order, the same final state; it returns, and the list is as long as
    [texts]. *)
Theorem C10_detect_batch_is_map db w texts min_confidence s :
  detect_batch db w texts min_confidence s
  = mapM (fun text => detect db w text min_confidence false) texts s
  /\ exists rs s',
      detect_batch db w texts min_confidence s = (inr rs, s')
      /\ List.length rs = List.length texts.
Proof.
  assert (E : detect_batch db w texts min_confidence s
              = mapM (fun text => detect db w text min_confidence false)
                     texts s).
  { unfold detect_batch. rewrite detect_batch_loop_mapM.
    destruct (mapM _ texts s) as [[e | rs] s']; reflexivity. }
  split; [exact E |]. rewrite E. apply mapM_detect_returns.
Qed.

(* ================================================================== *)
(** * Further properties of the code *)
(* ================================================================== *)

(** ** The verifier of src/llm/claude_client.py *)

Lemma parse_confidence_bounds db reply cands :
  0 <= v_confidence (Claude._parse_verification_response db reply cands) <= 100.
Proof.
  unfold Claude._parse_verification_response. cbn [v_confidence].
  destruct (Unicode.int_of_str db _) as [n |]; lia.
Qed.

Lemma verdict_confidence_bounds db w n text cands :
  0 <= v_confidence (verdict db w n text cands) <= 100.
Proof.
  unfold verdict. destruct (messages_create w n _).
  - simpl. lia.
  - apply parse_confidence_bounds.
Qed.

(** X1.  [verify_quotation] never raises, whatever the completion service
    does.  On an empty candidate list it sends no request; on a non-empty
    one it sends exactly one.  It leaves the detector and the clock alone,
    and the confidence of its verdict lies between 0 and 100. *)
Theorem X1_verify_quotation_returns db w client text cands s :
  exists v,
    Claude.verify_quotation db w client text cands s
    = (inr v,
       {| self := self s; clock_reads := clock_reads s;
          llm_requests := (match cands with [] => 0 | _ :: _ => 1 end
                           + llm_requests s)%nat |})
    /\ 0 <= v_confidence v <= 100.
Proof.
  destruct cands as [| c cs].
  - eexists. split.
    + unfold Claude.verify_quotation, ret. destruct s; reflexivity.
    + simpl. lia.
  - exists (verdict db w (llm_requests s) text (c :: cs)). split.
    + apply verify_quotation_nonempty.
    + apply verdict_confidence_bounds.
Qed.

Lemma find_reference_sound (r : Py.str) cands c :
  find (fun c => Py.eqb (c_reference c) r) cands = Some c ->
  In c cands /\ c_reference c = r.
Proof.
  intros H. apply find_some in H. destruct H as [Hin He]. split; [exact Hin |].
  unfold Py.eqb in He.
  destruct (list_eq_dec N.eq_dec (c_reference c) r); [assumption | discriminate].
Qed.

(** X2.  In a parsed verdict the best-match text is never invented: when it
    is present, the verdict names a non-empty reference, and the text is the
    text of a candidate with exactly that reference.  A reference that reads
    [none] in any letter case is dropped. *)
Theorem X2_parse_best_match_text db reply cands :
  let v := Claude._parse_verification_response db reply cands in
  (forall t, v_best_match_text v = Some t ->
             exists r c, v_best_match_reference v = Some r /\ r <> []
                         /\ In c cands /\ c_reference c = r /\ c_text c = t)
  /\ (forall r, v_best_match_reference v = Some r ->
                Unicode.lower db r <> py "none").
Proof.
  cbv zeta. unfold Claude._parse_verification_response.
  cbn [v_best_match_text v_best_match_reference].
  set (r0 := Claude.dict_get _ (py "BEST_REFERENCE") (py "none")).
  destruct (Py.eqb (Unicode.lower db r0) (py "none")) eqn:E.
  - split; intros; discriminate.
  - split.
    + intros t Ht. destruct r0 as [| x r0']; [discriminate |].
      cbn [Py.truthy] in Ht.
      destruct (find _ cands) as [c |] eqn:F; [| discriminate].
      injection Ht as <-. apply find_reference_sound in F.
      destruct F as [Hin Hr].
      exists (x :: r0'), c. repeat split; try assumption. discriminate.
    + intros r [= <-] Hl. rewrite Hl in E. vm_compute in E. discriminate.
Qed.

(** *** Replies without a key *)

Lemma existsb_lstrip (f isspace : Py.codepoint -> bool) s :
  existsb f s = false -> existsb f (Py.lstrip isspace s) = false.
Proof.
  induction s as [| c s IH]; [reflexivity |].
  intros H. simpl. destruct (isspace c); [| exact H].
  simpl in H. apply orb_false_iff in H. now apply IH.
Qed.

Lemma existsb_rev {A} (f : A -> bool) (l : list A) :
  existsb f (rev l) = existsb f l.
Proof.
  induction l as [| a l IH]; [reflexivity |].
  simpl. rewrite existsb_app, IH. simpl.
  rewrite orb_false_r. apply orb_comm.
Qed.

Lemma existsb_strip (f isspace : Py.codepoint -> bool) s :
  existsb f s = false -> existsb f (Py.strip isspace s) = false.
Proof.
  intros H. unfold Py.strip, Py.rstrip.
  rewrite existsb_rev. apply existsb_lstrip.
  rewrite existsb_rev. now apply existsb_lstrip.
Qed.

Lemma split_on_lines (f : Py.codepoint -> bool) sep s :
  existsb f s = false ->
  Forall (fun line => existsb f line = false) (Py.split_on sep s).
Proof.
  induction s as [| c s IH]; intros H.
  - repeat constructor.
  - simpl in H. apply orb_false_iff in H. destruct H as [Hc Hs].
    specialize (IH Hs). simpl.
    destruct (N.eqb c sep).
    + constructor; [reflexivity | exact IH].
    + destruct (Py.split_on sep s) as [| l ls].
      * repeat constructor. simpl. now rewrite Hc.
      * inversion IH as [| ? ? Hl Hls]; subst.
        constructor; [| exact Hls]. simpl. now rewrite Hc, Hl.
Qed.

Lemma parse_lines_without_colon db lines : forall acc,
  Forall (fun line => Py.contains 0x3A%N line = false) lines ->
  fold_left
    (fun result_dict line =>
       if Py.contains 0x3A%N line then
         let '(key, value) := Py.split_once 0x3A%N line in
         Claude.dict_set (Unicode.upper db (Py.strip (Unicode.isspace db) key))
                         (Py.strip (Unicode.isspace db) value) result_dict
       else result_dict)
    lines acc = acc.
Proof.
  induction lines as [| l lines IH]; intros acc H; [reflexivity |].
  inversion H as [| ? ? Hl Hls]; subst. simpl. rewrite Hl. now apply IH.
Qed.

(** X3.  A reply in which no line has a colon sets no key, and the parser
    answers with its defaults: not a quotation, [NON_BIBLICAL], confidence
    50, the stock explanation, no reference and no text. *)
Theorem X3_parse_reply_without_keys db reply cands :
  reads_defaults db ->
  Py.contains 0x3A%N reply = false ->
  Claude._parse_verification_response db reply cands = default_verdict.
Proof.
  intros (Hno & Hnb & Hnone & H50) Hc.
  unfold Claude._parse_verification_response, Claude.parse_lines.
  rewrite parse_lines_without_colon.
  - unfold Claude.dict_get. cbn [find].
    rewrite Hno, Hnb, Hnone, H50. reflexivity.
  - apply split_on_lines. now apply existsb_strip.
Qed.

(** A reply of plain prose. *)
Lemma X3_parse_reply_without_keys_witness :
  reads_defaults GreekUCD.db
  /\ Py.contains 0x3A%N (py "I cannot tell.") = false
  /\ Claude._parse_verification_response
       GreekUCD.db (py "I cannot tell.") [Sample.john_3_16 0.87]
     = default_verdict.
Proof.
  assert (H : reads_defaults GreekUCD.db)
    by (repeat split; vm_compute; reflexivity).
  split; [exact H |]. split; [reflexivity |].
  exact (X3_parse_reply_without_keys GreekUCD.db (py "I cannot tell.")
           [Sample.john_3_16 0.87] H eq_refl).
Defined.

(** ** The paths of [detect] *)

Lemma same_config_refl d : same_config d d.
Proof. repeat split. Qed.

Lemma kept_clients_refl d : kept_clients d d.
Proof. split; auto. Qed.

Lemma same_config_trans d1 d2 d3 :
  same_config d1 d2 -> same_config d2 d3 -> same_config d1 d3.
Proof.
  intros (A1 & A2 & A3 & A4) (B1 & B2 & B3 & B4).
  repeat split; congruence.
Qed.

Lemma kept_clients_trans d1 d2 d3 :
  kept_clients d1 d2 -> kept_clients d2 d3 -> kept_clients d1 d3.
Proof. intros [A1 A2] [B1 B2]. split; auto. Qed.

Lemma retrieved_same_config w d text :
  same_config d (snd (retrieved w d text))
  /\ kept_clients d (snd (retrieved w d text)).
Proof.
  unfold retrieved. destruct (_qdrant_manager d) eqn:E.
  - split; [apply same_config_refl | apply kept_clients_refl].
  - destruct (QdrantManager_new w); cbn [snd].
    + split; [apply same_config_refl | apply kept_clients_refl].
    + split; [repeat split |]. split; cbn; [congruence | auto].
Qed.

(** The two ways out of [_llm_verify] on a non-empty candidate list: the
    heuristic classification without a request, when no client can be had,
    or the result of the verdict after exactly one request. *)
Lemma llm_verify_cases db w text c cs srcs s :
  exists res s',
    _llm_verify db w text (c :: cs) srcs s = (inr res, s')
    /\ clock_reads s' = clock_reads s
    /\ same_config (self s) (self s')
    /\ kept_clients (self s) (self s')
    /\ ((res = _heuristic_classify text (c :: cs) srcs
         /\ llm_requests s' = llm_requests s
         /\ _claude_client (self s) = None
         /\ (use_llm (self s) = true ->
             key_refused (getenv_ANTHROPIC_API_KEY w)))
        \/ (res = result_of_verdict
                    text srcs (verdict db w (llm_requests s) text (c :: cs))
            /\ llm_requests s' = S (llm_requests s)
            /\ (_claude_client (self s) = None ->
                use_llm (self s) = true
                /\ key_usable (getenv_ANTHROPIC_API_KEY w)))).
Proof.
  unfold _llm_verify, try_except, bind at 1.
  destruct (claude_client w s) as [[e | [client |]] s1] eqn:Hc;
    apply claude_client_spec in Hc;
    destruct Hc as (Hclk & Hreq & Hcfg & Hkept & H).
  - eexists _, _. split; [reflexivity |].
    split; [exact Hclk |]. split; [exact Hcfg |]. split; [exact Hkept |].
    left. destruct H as (H1 & H2 & H3). auto.
  - unfold bind. rewrite verify_quotation_nonempty.
    eexists _, _. split; [reflexivity |].
    cbn [self clock_reads llm_requests].
    split; [exact Hclk |]. split; [exact Hcfg |]. split; [exact Hkept |].
    right. rewrite Hreq. auto.
  - eexists _, _. split; [reflexivity |].
    split; [exact Hclk |]. split; [exact Hcfg |]. split; [exact Hkept |].
    left. destruct H as (H1 & H2). repeat split; auto. congruence.
Qed.

(** The three paths of [detect]: no candidate; the heuristic
    classification, in heuristic mode or as the fallback without a request;
    the verdict of the LLM after exactly one request. *)
Lemma detect_paths db w text mc iac s :
  let cands := fst (retrieved w (self s) text) in
  let srcs := map source_of cands in
  exists r s',
    detect db w text mc iac s = (inr r, s')
    /\ clock_reads s' = S (S (clock_reads s))
    /\ same_config (self s) (self s')
    /\ kept_clients (self s) (self s')
    /\ ((cands = []
         /\ r = no_candidates_result text (elapsed w s)
         /\ llm_requests s' = llm_requests s)
        \/ (cands <> []
            /\ r = heuristic_outcome text mc iac cands (elapsed w s)
            /\ llm_requests s' = llm_requests s
            /\ (use_llm (self s) = true ->
                _claude_client (self s) = None
                /\ key_refused (getenv_ANTHROPIC_API_KEY w)))
        \/ (cands <> []
            /\ use_llm (self s) = true
            /\ r = shape mc iac srcs (elapsed w s)
                       (result_of_verdict
                          text srcs
                          (verdict db w (llm_requests s) text cands))
            /\ llm_requests s' = S (llm_requests s)
            /\ (_claude_client (self s) = None ->
                key_usable (getenv_ANTHROPIC_API_KEY w)))).
Proof.
  cbv zeta.
  destruct (retrieved_same_config w (self s) text) as [Hcfg Hkept].
  destruct (fst (retrieved w (self s) text)) as [| c cs] eqn:E.
  - rewrite detect_no_candidates by exact E.
    eexists _, _. split; [reflexivity |]. cbn [self clock_reads llm_requests].
    split; [reflexivity |]. split; [exact Hcfg |]. split; [exact Hkept |].
    left. auto.
  - destruct (use_llm (self s)) eqn:Eu.
    + unfold detect, bind at 1, time_time at 1.
      unfold bind at 1. rewrite vector_search_retrieved.
      cbn [self clock_reads llm_requests]. rewrite E.
      unfold bind at 1, get_self. cbn [self with_self].
      rewrite retrieved_use_llm, Eu. unfold bind at 1.
      match goal with
      | |- context [_llm_verify db w text (c :: cs) ?srcs ?s0] =>
        destruct (llm_verify_cases db w text c cs srcs s0)
          as (res & s1 & -> & Hclk & Hcfg1 & Hkept1 & Hcase)
      end.
      cbn [self clock_reads llm_requests with_self]
        in Hclk, Hcfg1, Hkept1, Hcase.
      rewrite retrieved_claude_client, retrieved_use_llm in Hcase.
      unfold bind at 1, elapsed_ms, bind at 1, time_time, ret.
      eexists _, _. split; [reflexivity |].
      cbn [self clock_reads llm_requests].
      split; [now rewrite Hclk |].
      split; [now apply same_config_trans with (2 := Hcfg1) |].
      split; [now apply kept_clients_trans with (2 := Hkept1) |].
      right. destruct Hcase as [(-> & Hreq & Hnone & Hkey)
                               | (-> & Hreq & Hkey)].
      * left. split; [discriminate |]. split.
        -- unfold heuristic_outcome, shape, elapsed. rewrite Hclk.
           destruct iac; reflexivity.
        -- split; [exact Hreq |]. intros _. split; [exact Hnone |].
           now apply Hkey.
      * right. split; [discriminate |]. split; [reflexivity |]. split.
        -- unfold shape, elapsed. rewrite Hclk. destruct iac; reflexivity.
        -- split; [exact Hreq |]. intros Hn. now apply Hkey.
    + rewrite detect_heuristic by exact Eu. rewrite E.
      eexists _, _. split; [reflexivity |].
      cbn [self clock_reads llm_requests].
      split; [reflexivity |]. split; [exact Hcfg |]. split; [exact Hkept |].
      right. left. split; [discriminate |].
      split; [reflexivity |]. split; [reflexivity |]. discriminate.
Qed.

(** ** What [detect] returns *)

Lemma heuristic_outcome_confidence text mc iac cands t :
  55 <= confidence (heuristic_outcome text mc iac cands t) <= 95.
Proof.
  destruct cands as [| c cs]; [simpl; lia |].
  unfold heuristic_outcome. rewrite shape_confidence.
  pose proof (heuristic_confidence text c cs (map source_of (c :: cs))) as H.
  cbn [In] in H.
  destruct H as [H | [H | [H | [H | [H | []]]]]]; rewrite <- H; lia.
Qed.

(** X4.  In both modes the confidence [detect] reports lies between 0 and
    100: the heuristic gives 55 to 95, the parser clamps what the reply
    states, and a failed request gives 0. *)
Theorem X4_detect_confidence_range db w text min_confidence include_all s :
  exists r s',
    detect db w text min_confidence include_all s = (inr r, s')
    /\ 0 <= confidence r <= 100.
Proof.
  destruct (detect_paths db w text min_confidence include_all s)
    as (r & s' & H & _ & _ & _ & Hcase).
  exists r, s'. split; [exact H |].
  destruct Hcase as [(_ & -> & _) | [(_ & -> & _) | (_ & _ & -> & _)]].
  - simpl. lia.
  - pose proof (heuristic_outcome_confidence
                  text min_confidence include_all
                  (fst (retrieved w (self s) text)) (elapsed w s)). lia.
  - rewrite shape_confidence. apply verdict_confidence_bounds.
Qed.

Lemma shape_sources mc iac srcs t res :
  sources (shape mc iac srcs t res) = if iac then srcs else firstn 3 srcs.
Proof. unfold shape. destruct (confidence res <? mc); reflexivity. Qed.

Lemma shape_match_type_eq mc iac srcs t res :
  match_type (shape mc iac srcs t res) = match_type res.
Proof. unfold shape. destruct (confidence res <? mc); reflexivity. Qed.

Lemma shape_best_match mc iac srcs t res :
  best_match (shape mc iac srcs t res) = best_match res.
Proof. unfold shape. destruct (confidence res <? mc); reflexivity. Qed.

Lemma shape_is_quotation mc iac srcs t res :
  is_quotation (shape mc iac srcs t res)
  = negb (confidence res <? mc) && is_quotation res.
Proof. unfold shape. destruct (confidence res <? mc); reflexivity. Qed.

(** X5.  The sources of a result are the retrieved candidates, converted
    one by one and in the order of retrieval: all of them when
    [include_all_candidates] is set, the first three otherwise, in both
    modes; without the option there are never more than three. *)
Theorem X5_detect_sources db w text min_confidence include_all s :
  let srcs := map source_of (fst (retrieved w (self s) text)) in
  exists r s',
    detect db w text min_confidence include_all s = (inr r, s')
    /\ sources r = (if include_all then srcs else firstn 3 srcs)
    /\ (include_all = false -> (List.length (sources r) <= 3)%nat).
Proof.
  cbv zeta.
  destruct (detect_paths db w text min_confidence include_all s)
    as (r & s' & H & _ & _ & _ & Hcase).
  exists r, s'. split; [exact H |].
  assert (Hs : sources r
               = if include_all
                 then map source_of (fst (retrieved w (self s) text))
                 else firstn 3 (map source_of (fst (retrieved w (self s) text)))).
  { destruct Hcase as [(E & -> & _) | [(_ & -> & _) | (_ & _ & -> & _)]].
    - rewrite E. destruct include_all; reflexivity.
    - unfold heuristic_outcome.
      destruct (fst (retrieved w (self s) text)).
      + destruct include_all; reflexivity.
      + apply shape_sources.
    - apply shape_sources. }
  split; [exact Hs |]. intros ->. rewrite Hs. apply firstn_le_length.
Qed.

(** X6.  The best match of a result, when there is one, is one of the
    retrieved candidates, and a result that says quotation always has one.
    This holds in both modes and after the confidence floor. *)
Theorem X6_detect_best_match db w text min_confidence include_all s :
  let srcs := map source_of (fst (retrieved w (self s) text)) in
  exists r s',
    detect db w text min_confidence include_all s = (inr r, s')
    /\ (forall b, best_match r = Some b -> In b srcs)
    /\ (is_quotation r = true -> best_match r <> None).
Proof.
  cbv zeta.
  destruct (detect_paths db w text min_confidence include_all s)
    as (r & s' & H & _ & _ & _ & Hcase).
  exists r, s'. split; [exact H |].
  destruct Hcase as [(E & -> & _) | [(Hne & -> & _) | (Hne & _ & -> & _)]].
  - split; [discriminate | discriminate].
  - unfold heuristic_outcome.
    destruct (fst (retrieved w (self s) text)) as [| c cs]; [congruence |].
    rewrite shape_best_match, heuristic_best_match.
    split; [| discriminate]. intros b [= <-]. now left.
  - rewrite shape_best_match, shape_is_quotation.
    cbn [best_match is_quotation result_of_verdict]. split.
    + intros b. apply find_best_match_in.
    + intros Hq. apply andb_true_iff in Hq. destruct Hq as [_ Hq].
      destruct (fst (retrieved w (self s) text)) as [| c cs]; [congruence |].
      now apply find_best_match_quotation.
Qed.

(** X7.  What a call of [detect] does to its surroundings: it reads the
    clock exactly twice; it sends at most one request to the completion
    service, and none in heuristic mode or when the search finds nothing;
    it never changes the configuration of the detector and never drops or
    replaces a client it has created. *)
Theorem X7_detect_effects db w text min_confidence include_all s :
  exists r s',
    detect db w text min_confidence include_all s = (inr r, s')
    /\ clock_reads s' = S (S (clock_reads s))
    /\ (llm_requests s <= llm_requests s' <= S (llm_requests s))%nat
    /\ (use_llm (self s) = false \/ fst (retrieved w (self s) text) = [] ->
        llm_requests s' = llm_requests s)
    /\ same_config (self s) (self s')
    /\ kept_clients (self s) (self s').
Proof.
  destruct (detect_paths db w text min_confidence include_all s)
    as (r & s' & H & Hclk & Hcfg & Hkept & Hcase).
  exists r, s'. split; [exact H |]. split; [exact Hclk |].
  split; [| split; [| split; [exact Hcfg | exact Hkept]]].
  - destruct Hcase as [(_ & _ & ->) | [(_ & _ & -> & _) | (_ & _ & _ & -> & _)]];
      lia.
  - intros Hq.
    destruct Hcase as [(_ & _ & ->) | [(_ & _ & -> & _) | (Hne & Hu & _)]];
      try reflexivity.
    destruct Hq as [Hq | Hq]; congruence.
Qed.

(** X8.  In heuristic mode a result says quotation exactly when its match
    type is not [non_biblical] and its confidence reaches the floor of the
    request: the four matching rows set the flag, the floor alone clears
    it, and the match type stays as classified. *)
Theorem X8_heuristic_is_quotation db w text min_confidence include_all s :
  use_llm (self s) = false ->
  exists r s',
    detect db w text min_confidence include_all s = (inr r, s')
    /\ (is_quotation r = true
        <-> match_type r <> py "non_biblical"
            /\ min_confidence <= confidence r).
Proof.
  intros Hllm. rewrite (detect_heuristic db w _ _ _ s Hllm).
  eexists _, _. split; [reflexivity |].
  unfold heuristic_outcome.
  destruct (fst (retrieved w (self s) text)) as [| c cs].
  - simpl. split; [discriminate | intros [H _]; now elim H].
  - rewrite shape_is_quotation, shape_match_type_eq, shape_confidence.
    pose proof (heuristic_cases text c cs (map source_of (c :: cs))) as H.
    cbv zeta in H.
    remember (_heuristic_classify text (c :: cs) (map source_of (c :: cs)))
      as res eqn:Eres.
    clear Eres.
    destruct H as [H | [H | [H | [H | H]]]];
      injection H as Hm Hc Hq; rewrite Hm, Hc, Hq;
      match goal with
      | |- context [?n <? ?m] => destruct (Z.ltb_spec0 n m)
      end;
      cbn [negb andb];
      (split; [intros Hq' | intros [Hm' Hc']]);
      try discriminate; try reflexivity; try lia; try (now elim Hm');
      (split; [vm_compute; discriminate | lia]).
Qed.

(** A fresh heuristic detector on one candidate. *)
Lemma X8_heuristic_is_quotation_witness :
  use_llm (self (Sample.start false)) = false
  /\ exists r s',
      detect GreekUCD.db
             (Sample.world None (inr [Sample.john_3_16 0.87])
                           (inl Sample.connection_refused))
             Sample.query 50 false (Sample.start false) = (inr r, s')
      /\ (is_quotation r = true
          <-> match_type r <> py "non_biblical" /\ 50 <= confidence r).
Proof.
  split; [reflexivity |].
  apply X8_heuristic_is_quotation. reflexivity.
Defined.

(** X9.  With a client at hand (one already created, or a key the
    constructor accepts) a failing request is not turned into the heuristic
    classification: the result carries the match type ["uncertain"],
    confidence 0, no best match, and the message of the exception in its
    explanation. *)
Theorem X9_failed_request_is_uncertain
        db w text min_confidence include_all s e :
  use_llm (self s) = true ->
  _claude_client (self s) <> None
  \/ key_usable (getenv_ANTHROPIC_API_KEY w) ->
  fst (retrieved w (self s) text) <> [] ->
  messages_create
    w (llm_requests s)
    (Claude._build_verification_prompt text (fst (retrieved w (self s) text)))
  = inl e ->
  exists r s',
    detect db w text min_confidence include_all s = (inr r, s')
    /\ match_type r = py "uncertain"
    /\ confidence r = 0
    /\ is_quotation r = false
    /\ best_match r = None
    /\ explanation r = py "Error during verification: " ++ exc_message e.
Proof.
  intros Hllm Hclient Hne Hfail.
  destruct (detect_paths db w text min_confidence include_all s)
    as (r & s' & H & _ & _ & _ & Hcase).
  exists r, s'. split; [exact H |].
  destruct Hcase as [(E & _) | [(_ & _ & _ & Hk) | (_ & _ & -> & _)]].
  - congruence.
  - destruct (Hk Hllm) as [Hnone Href].
    destruct Hclient as [Hc | Hc]; [congruence |].
    now elim (key_usable_not_refused _ Hc).
  - rewrite shape_match_type_eq, shape_confidence, shape_is_quotation,
      shape_best_match.
    unfold verdict. rewrite Hfail.
    cbn [result_of_verdict verdict_on_error match_type confidence
         is_quotation best_match v_match_type v_confidence v_is_quotation].
    repeat split; try reflexivity.
    + apply andb_false_r.
    + unfold shape.
      destruct (confidence _ <? min_confidence); reflexivity.
Qed.

(** A fresh LLM-mode detector with a key, and a service that is down. *)
Lemma X9_failed_request_is_uncertain_witness :
  let w := Sample.world (Some (py "sk-ant-key")) (inr [Sample.john_3_16 0.87])
                        (inl Sample.connection_refused) in
  let s := Sample.start true in
  use_llm (self s) = true
  /\ key_usable (getenv_ANTHROPIC_API_KEY w)
  /\ exists r s',
      detect GreekUCD.db w Sample.query 50 false s = (inr r, s')
      /\ match_type r = py "uncertain"
      /\ confidence r = 0
      /\ is_quotation r = false
      /\ best_match r = None
      /\ explanation r
         = py "Error during verification: "
              ++ exc_message Sample.connection_refused.
Proof.
  cbv zeta.
  assert (Hk : key_usable (Some (py "sk-ant-key"))).
  { exists (py "sk-ant-key"). split; [reflexivity |].
    split; vm_compute; discriminate. }
  split; [reflexivity |]. split; [exact Hk |].
  apply X9_failed_request_is_uncertain.
  - reflexivity.
  - right. exact Hk.
  - vm_compute. discriminate.
  - reflexivity.
Defined.

(** ** The batch *)

Lemma shape_input_text mc iac srcs t res :
  input_text (shape mc iac srcs t res) = input_text res.
Proof. unfold shape. destruct (confidence res <? mc); reflexivity. Qed.

Lemma heuristic_input_text text cands srcs :
  input_text (_heuristic_classify text cands srcs) = text.
Proof.
  unfold _heuristic_classify. destruct cands as [| c cs]; [reflexivity |].
  destruct (0.95 <=? c_score c)%float; [reflexivity |].
  destruct (0.85 <=? c_score c)%float; [reflexivity |].
  destruct (0.75 <=? c_score c)%float; [reflexivity |].
  destruct (0.65 <=? c_score c)%float; reflexivity.
Qed.

(** One call of [detect], with what the batch needs of it. *)
Lemma detect_step db w text mc iac s :
  exists r s',
    detect db w text mc iac s = (inr r, s')
    /\ input_text r = text
    /\ clock_reads s' = S (S (clock_reads s))
    /\ (llm_requests s <= llm_requests s' <= S (llm_requests s))%nat
    /\ (use_llm (self s) = false -> llm_requests s' = llm_requests s)
    /\ same_config (self s) (self s')
    /\ kept_clients (self s) (self s').
Proof.
  destruct (detect_paths db w text mc iac s)
    as (r & s' & H & Hclk & Hcfg & Hkept & Hcase).
  exists r, s'. split; [exact H |].
  split; [| split; [exact Hclk | split; [| split; [| split; assumption]]]].
  - destruct Hcase as [(_ & -> & _) | [(_ & -> & _) | (_ & _ & -> & _)]].
    + reflexivity.
    + unfold heuristic_outcome.
      destruct (fst (retrieved w (self s) text)); [reflexivity |].
      rewrite shape_input_text. apply heuristic_input_text.
    + rewrite shape_input_text. reflexivity.
  - destruct Hcase as [(_ & _ & ->) | [(_ & _ & -> & _) | (_ & _ & _ & -> & _)]];
      lia.
  - intros Hu.
    destruct Hcase as [(_ & _ & ->) | [(_ & _ & -> & _) | (_ & Hu' & _)]];
      congruence.
Qed.

Lemma mapM_detect_effects db w mc texts : forall s,
  exists rs s',
    mapM (fun text => detect db w text mc false) texts s = (inr rs, s')
    /\ map input_text rs = texts
    /\ clock_reads s' = (2 * List.length texts + clock_reads s)%nat
    /\ (llm_requests s <= llm_requests s'
        <= List.length texts + llm_requests s)%nat
    /\ (use_llm (self s) = false -> llm_requests s' = llm_requests s)
    /\ same_config (self s) (self s')
    /\ kept_clients (self s) (self s').
Proof.
  induction texts as [| text texts IH]; intros s.
  - exists [], s. repeat split; auto; simpl; lia.
  - simpl mapM. unfold bind at 1.
    destruct (detect_step db w text mc false s)
      as (r & s1 & -> & Hin & Hclk & Hreq & Hh & Hcfg & Hkept).
    unfold bind.
    destruct (IH s1) as (rs & s2 & -> & Hins & Hclk2 & Hreq2 & Hh2 & Hcfg2 & Hkept2).
    exists (r :: rs), s2. split; [reflexivity |].
    split; [simpl; congruence |].
    split; [simpl List.length; lia |].
    split; [simpl List.length; lia |].
    split.
    + intros Hu. rewrite Hh2, Hh; auto.
      destruct Hcfg as (Hu1 & _). congruence.
    + split; [eapply same_config_trans | eapply kept_clients_trans];
        eassumption.
Qed.

(** X10.  A batch returns one result per text, in the order of the texts
    (the [input_text] fields spell the input list).  It reads the clock
    twice per text and sends at most one request per text, none at all in
    heuristic mode; the configuration of the detector is unchanged and its
    clients are kept. *)
Theorem X10_detect_batch_effects db w texts min_confidence s :
  exists rs s',
    detect_batch db w texts min_confidence s = (inr rs, s')
    /\ map input_text rs = texts
    /\ clock_reads s' = (2 * List.length texts + clock_reads s)%nat
    /\ (llm_requests s <= llm_requests s'
        <= List.length texts + llm_requests s)%nat
    /\ (use_llm (self s) = false -> llm_requests s' = llm_requests s)
    /\ same_config (self s) (self s')
    /\ kept_clients (self s) (self s').
Proof.
  unfold detect_batch. rewrite detect_batch_loop_mapM.
  destruct (mapM_detect_effects db w min_confidence texts s)
    as (rs & s' & -> & H).
  exists rs, s'. split; [reflexivity | exact H].
Qed.

(** ** The raw search *)

Lemma qdrant_manager_eq w s :
  qdrant_manager w s
  = match _qdrant_manager (self s) with
    | Some m => (inr m, s)
    | None =>
      match QdrantManager_new w with
      | inl e => (inl e, s)
      | inr m => (inr m, with_self (set_qdrant_manager m (self s)) s)
      end
    end.
Proof.
  unfold qdrant_manager, bind, get_self, put_self, lift, ret, raise,
    with_self.
  destruct (_qdrant_manager (self s)); [reflexivity |].
  destruct (QdrantManager_new w); reflexivity.
Qed.

(** X11.  [search_similar] has no handler: when the manager cannot be
    created it raises that exception and leaves the state alone, and when
    the search of the store raises it raises the same exception.  Otherwise
    it returns one source per candidate, in the order of the store, for the
    score floor 0.0 whatever [min_similarity] is. *)
Theorem X11_search_similar_raises w text limit s :
  (forall e, _qdrant_manager (self s) = None ->
             QdrantManager_new w = inl e ->
             search_similar w text limit s = (inl e, s))
  /\ (forall e, manager_available w (self s) ->
                QdrantManager_search w text limit 0.0%float = inl e ->
                fst (search_similar w text limit s) = inl e)
  /\ (forall cands, manager_available w (self s) ->
                    QdrantManager_search w text limit 0.0%float = inr cands ->
                    fst (search_similar w text limit s)
                    = inr (map source_of cands)).
Proof.
  unfold search_similar, bind. rewrite qdrant_manager_eq.
  split; [| split].
  - intros e Hm Hn. now rewrite Hm, Hn.
  - intros e Ha Hs.
    destruct (_qdrant_manager (self s)) as [m |] eqn:Em.
    + rewrite Hs. reflexivity.
    + destruct Ha as [Ha | [m Hn]]; [congruence |].
      rewrite Hn, Hs. reflexivity.
  - intros cands Ha Hs.
    destruct (_qdrant_manager (self s)) as [m |] eqn:Em.
    + rewrite Hs. reflexivity.
    + destruct Ha as [Ha | [m Hn]]; [congruence |].
      rewrite Hn, Hs. reflexivity.
Qed.

(** ** The normalizer of scripts/process_greek.py *)

Section Strip.
Variable isspace : Py.codepoint -> bool.

Lemma lstrip_head s c r :
  Py.lstrip isspace s = c :: r -> isspace c = false.
Proof.
  induction s as [| a s IH]; [discriminate |].
  simpl. destruct (isspace a) eqn:E; [exact IH |].
  intros [= <- _]. exact E.
Qed.

Lemma lstrip_suffix s : exists p, s = p ++ Py.lstrip isspace s.
Proof.
  induction s as [| a s [p IH]]; [now exists [] |].
  simpl. destruct (isspace a).
  - exists (a :: p). simpl. now rewrite <- IH.
  - now exists [].
Qed.

Lemma lstrip_fixed s :
  (forall c r, s = c :: r -> isspace c = false) -> Py.lstrip isspace s = s.
Proof.
  destruct s as [| a s]; [reflexivity |].
  intros H. simpl. now rewrite (H a s eq_refl).
Qed.

Lemma Forall_lstrip (P : Py.codepoint -> Prop) s :
  Forall P s -> Forall P (Py.lstrip isspace s).
Proof.
  intros H. destruct (lstrip_suffix s) as [p E].
  rewrite E in H. now apply Forall_app in H.
Qed.

Lemma Forall_strip (P : Py.codepoint -> Prop) s :
  Forall P s -> Forall P (Py.strip isspace s).
Proof.
  intros H. unfold Py.strip, Py.rstrip.
  apply Forall_rev, Forall_lstrip, Forall_rev, Forall_lstrip, H.
Qed.

(** A stripped string starts and ends with no whitespace. *)
Lemma strip_ends s :
  (forall c r, Py.strip isspace s = c :: r -> isspace c = false)
  /\ (forall c r, rev (Py.strip isspace s) = c :: r -> isspace c = false).
Proof.
  unfold Py.strip, Py.rstrip. split.
  - intros c r H.
    destruct (lstrip_suffix (rev (Py.lstrip isspace s))) as [p E].
    apply (f_equal (@rev _)) in E.
    rewrite rev_involutive, rev_app_distr, H in E. simpl in E.
    now apply lstrip_head in E.
  - intros c r H. rewrite rev_involutive in H.
    now apply lstrip_head in H.
Qed.

Lemma strip_fixed s :
  (forall c r, s = c :: r -> isspace c = false) ->
  (forall c r, rev s = c :: r -> isspace c = false) ->
  Py.strip isspace s = s.
Proof.
  intros Hh Hl. unfold Py.strip, Py.rstrip.
  rewrite (lstrip_fixed s Hh), (lstrip_fixed (rev s) Hl).
  apply rev_involutive.
Qed.
End Strip.

Lemma Forall_filter_in {A} (P : A -> Prop) (f : A -> bool) l :
  Forall P l -> Forall P (filter f l).
Proof.
  induction 1 as [| a l Ha _ IH]; [constructor |].
  simpl. destruct (f a); [now constructor | exact IH].
Qed.

Lemma Forall_filter_true {A} (f : A -> bool) l :
  Forall (fun a => f a = true) (filter f l).
Proof.
  induction l as [| a l IH]; [constructor |].
  simpl. destruct (f a) eqn:E; [now constructor | exact IH].
Qed.

Lemma filter_fixed {A} (f : A -> bool) l :
  Forall (fun a => f a = true) l -> filter f l = l.
Proof.
  induction 1 as [| a l Ha _ IH]; [reflexivity |].
  simpl. now rewrite Ha, IH.
Qed.

(** X12.  Whatever the input, the output of [normalize] consists of word
    characters and whitespace only, and it neither starts nor ends with
    whitespace. *)
Theorem X12_normalize_output_shape db x :
  let out := GreekProcessor.normalize db x in
  Forall (fun c => Unicode.re_word db c || Unicode.re_space db c = true) out
  /\ (forall c r, out = c :: r -> Unicode.isspace db c = false)
  /\ (forall c r, rev out = c :: r -> Unicode.isspace db c = false).
Proof.
  cbv zeta. unfold GreekProcessor.normalize. split.
  - apply Forall_strip.
    apply (Forall_filter_true
             (fun c => Unicode.re_word db c || Unicode.re_space db c)).
  - apply strip_ends.
Qed.

Section Settled.
Import Py Unicode GreekProcessor.
Variable db : UCD.

Lemma Forall_insert_mark (P : codepoint -> Prop) c acc :
  P c -> Forall P acc -> Forall P (insert_mark db c acc).
Proof.
  intros Hc. induction 1 as [| a acc Ha Hacc IH]; simpl.
  - now constructor.
  - destruct ((0 <? combining db a)%N && (combining db c <? combining db a)%N).
    + now constructor.
    + repeat constructor; assumption.
Qed.

Lemma Forall_canonical_order (P : codepoint -> Prop) s :
  Forall P s -> Forall P (canonical_order db s).
Proof.
  intros H. unfold canonical_order. apply Forall_rev.
  assert (G : forall acc, Forall P acc ->
                          Forall P (fold_left
                                      (fun acc c =>
                                         if (combining db c =? 0)%N
                                         then c :: acc
                                         else insert_mark db c acc)
                                      s acc)).
  { induction H as [| c s Hc _ IH]; intros acc Hacc; [exact Hacc |].
    simpl. apply IH. destruct (combining db c =? 0)%N.
    - now constructor.
    - now apply Forall_insert_mark. }
  apply G. constructor.
Qed.

Lemma settled_decomposition x :
  Forall (settled db) x -> flat_map (decomposition db) x = x.
Proof.
  induction 1 as [| c x Hc _ IH]; [reflexivity |].
  destruct Hc as (Hd & _). simpl. now rewrite Hd, IH.
Qed.

Lemma settled_order_step x : forall acc,
  Forall (settled db) x ->
  fold_left (fun acc c => if (combining db c =? 0)%N then c :: acc
                          else insert_mark db c acc) x acc
  = rev x ++ acc.
Proof.
  induction x as [| c x IH]; intros acc H; [reflexivity |].
  inversion H as [| ? ? Hc Hx]; subst.
  destruct Hc as (_ & Hc & _). simpl. rewrite Hc. simpl.
  rewrite IH by assumption. now rewrite <- app_assoc.
Qed.

Lemma settled_no_marks x :
  Forall (settled db) x -> filter (fun c => (combining db c =? 0)%N) x = x.
Proof.
  induction 1 as [| c x Hc _ IH]; [reflexivity |].
  destruct Hc as (_ & Hc & _). simpl. now rewrite Hc, IH.
Qed.

Lemma settled_lower x : forall before,
  Forall (settled db) x -> lower_from db before x = x.
Proof.
  induction x as [| c x IH]; intros before H; [reflexivity |].
  inversion H as [| ? ? Hc Hx]; subst.
  destruct Hc as (_ & _ & Hl & Hs). simpl.
  apply N.eqb_neq in Hs. rewrite Hs, Hl. simpl. now rewrite IH.
Qed.

Hypothesis Hdb : stable_database db.

(** After the lower-casing every code point is settled. *)
Lemma lower_settles x : forall before,
  Forall (fun c => decomposition db c = [c] /\ combining db c = 0%N) x ->
  Forall (settled db) (lower_from db before x).
Proof.
  destruct Hdb as (_ & HL & Hfin & Hmed).
  induction x as [| c x IH]; intros before H; [constructor |].
  inversion H as [| ? ? [Hd Hc] Hx]; subst. simpl.
  apply Forall_app. split; [| now apply IH].
  destruct (c =? 0x3A3)%N eqn:E.
  - constructor; [| constructor]. unfold handle_capital_sigma.
    match goal with |- settled db (if ?b then _ else _) => destruct b end;
      assumption.
  - apply N.eqb_neq in E. apply Forall_forall. intros d Hin.
    now apply (HL c d).
Qed.

Lemma normalize_settled x : Forall (settled db) (normalize db x).
Proof.
  unfold normalize, normalize_NFD, lower.
  apply Forall_strip, Forall_filter_in, lower_settles.
  apply Forall_and.
  - apply Forall_filter_in, Forall_canonical_order.
    apply Forall_flat_map. apply Forall_forall. intros c _.
    apply Forall_forall. intros d Hin.
    destruct Hdb as (HD & _). now apply (HD c d).
  - apply (Forall_impl _ (fun c H => proj1 (N.eqb_eq _ _) H)).
    apply (Forall_filter_true (fun c => (combining db c =? 0)%N)).
Qed.
End Settled.

Lemma settledb_settled c : settledb c = true -> settled GreekUCD.db c.
Proof.
  unfold settledb, settled. intros H.
  apply andb_true_iff in H. destruct H as [H H4].
  apply andb_true_iff in H. destruct H as [H H3].
  apply andb_true_iff in H. destruct H as [H1 H2].
  apply py_eqb_true in H1, H3. apply N.eqb_eq in H2.
  apply negb_true_iff, N.eqb_neq in H4.
  split; [exact H1 |]. split; [exact H2 |]. split; [exact H3 | exact H4].
Qed.

Lemma decompositions_final_holds : decompositions_final = true.
Proof. vm_compute. reflexivity. Qed.

Lemma lower_cases_settled_holds : lower_cases_settled = true.
Proof. vm_compute. reflexivity. Qed.

Lemma GreekUCD_decomposition_final c d :
  In d (GreekUCD.lookup GreekUCD.decomposition_table c) ->
  GreekUCD.lookup GreekUCD.decomposition_table d = [d].
Proof.
  intros Hin.
  destruct (lookup_in GreekUCD.decomposition_table c) as [E | E].
  - rewrite E in Hin. destruct Hin as [<- | []]. exact E.
  - pose proof decompositions_final_holds as C.
    unfold decompositions_final in C.
    apply (proj1 (forallb_forall _ _)) with (x := (c, GreekUCD.lookup GreekUCD.decomposition_table c)) in C;
      [| exact E].
    cbn [snd] in C.
    apply (proj1 (forallb_forall _ _)) with (x := d) in C; [| exact Hin].
    apply py_eqb_true in C. exact C.
Qed.

Lemma GreekUCD_lower_settled c d :
  GreekUCD.lookup GreekUCD.decomposition_table c = [c] ->
  GreekUCD.combining_class c = 0%N ->
  c <> 0x3A3%N ->
  In d (GreekUCD.lookup GreekUCD.tolower_table c) ->
  settled GreekUCD.db d.
Proof.
  intros Hd Hc Hs Hin.
  destruct (lookup_in GreekUCD.tolower_table c) as [E | E].
  - rewrite E in Hin. destruct Hin as [<- | []].
    split; [exact Hd |]. split; [exact Hc |]. split; [exact E | exact Hs].
  - pose proof lower_cases_settled_holds as C.
    unfold lower_cases_settled in C.
    apply (proj1 (forallb_forall _ _))
      with (x := (c, GreekUCD.lookup GreekUCD.tolower_table c)) in C;
      [| exact E].
    cbn [fst snd] in C.
    change (Unicode.decomposition GreekUCD.db c)
      with (GreekUCD.lookup GreekUCD.decomposition_table c) in C.
    change (Unicode.combining GreekUCD.db c)
      with (GreekUCD.combining_class c) in C.
    rewrite Hd, Hc, py_eqb_refl in C.
    apply N.eqb_neq in Hs. rewrite Hs in C. cbn [N.eqb andb negb] in C.
    apply (proj1 (forallb_forall _ _)) with (x := d) in C; [| exact Hin].
    now apply settledb_settled.
Qed.

(** The tables of [GreekUCD] have the three facts. *)
Lemma GreekUCD_stable : stable_database GreekUCD.db.
Proof.
  split; [| split; [| split]].
  - exact GreekUCD_decomposition_final.
  - exact GreekUCD_lower_settled.
  - apply settledb_settled. vm_compute. reflexivity.
  - apply settledb_settled. vm_compute. reflexivity.
Qed.

(** X13.  [normalize] is idempotent: on a Unicode database in which full
    decompositions are final and the lower case of a decomposed base
    character is settled, normalizing a normalized string changes
    nothing. *)
Theorem X13_normalize_idempotent db x :
  stable_database db ->
  GreekProcessor.normalize db (GreekProcessor.normalize db x)
  = GreekProcessor.normalize db x.
Proof.
  intros Hdb.
  pose proof (normalize_settled db Hdb x) as Hs.
  assert (Hw : Forall (fun c => Unicode.re_word db c || Unicode.re_space db c
                                = true)
                      (GreekProcessor.normalize db x)).
  { unfold GreekProcessor.normalize. apply Forall_strip.
    apply (Forall_filter_true
             (fun c => Unicode.re_word db c || Unicode.re_space db c)). }
  assert (He : Py.strip (Unicode.isspace db) (GreekProcessor.normalize db x)
               = GreekProcessor.normalize db x).
  { unfold GreekProcessor.normalize.
    apply strip_fixed; apply strip_ends. }
  remember (GreekProcessor.normalize db x) as t eqn:Et. clear Et.
  unfold GreekProcessor.normalize, Unicode.normalize_NFD, Unicode.lower,
    Unicode.canonical_order.
  rewrite (settled_decomposition db t Hs), (settled_order_step db t [] Hs),
    app_nil_r, rev_involutive, (settled_no_marks db t Hs),
    (settled_lower db t [] Hs), (filter_fixed _ t Hw).
  exact He.
Qed.

(** A verse with accents, a capital and punctuation. *)
Lemma X13_normalize_idempotent_witness :
  stable_database GreekUCD.db
  /\ GreekProcessor.normalize
       GreekUCD.db
       (GreekProcessor.normalize GreekUCD.db (py "Ἐν ἀρχῇ ἦν ὁ λόγος, καὶ"))
     = GreekProcessor.normalize GreekUCD.db (py "Ἐν ἀρχῇ ἦν ὁ λόγος, καὶ").
Proof.
  split.
  - exact GreekUCD_stable.
  - apply X13_normalize_idempotent. exact GreekUCD_stable.
Defined.

(** ** The lemmatizer of scripts/process_greek.py *)

Section Words.
Import Py Unicode GreekProcessor.
Variable db : UCD.

Lemma split_ws_aux_words s : forall cur,
  Forall (fun c => isspace db c = false) cur ->
  Forall (is_word db) (split_ws_aux (isspace db) cur s).
Proof.
  induction s as [| c s IH]; intros cur Hcur; simpl.
  - destruct cur as [| a cur]; [constructor |].
    constructor; [| constructor]. split.
    + intros E. apply (f_equal (@rev _)) in E.
      rewrite rev_involutive in E. discriminate.
    + now apply Forall_rev.
  - destruct (isspace db c) eqn:E.
    + destruct cur as [| a cur].
      * apply IH. constructor.
      * constructor; [| apply IH; constructor]. split.
        -- intros E'. apply (f_equal (@rev _)) in E'.
           rewrite rev_involutive in E'. discriminate.
        -- now apply Forall_rev.
    + apply IH. now constructor.
Qed.

Lemma split_ws_words s : Forall (is_word db) (split_ws (isspace db) s).
Proof. apply split_ws_aux_words. constructor. Qed.

Lemma split_ws_aux_word w : forall cur s,
  Forall (fun c => isspace db c = false) w ->
  split_ws_aux (isspace db) cur (w ++ s)
  = split_ws_aux (isspace db) (rev w ++ cur) s.
Proof.
  induction w as [| c w IH]; intros cur s H; [reflexivity |].
  inversion H as [| ? ? Hc Hw]; subst. simpl. rewrite Hc.
  rewrite IH by assumption. now rewrite <- app_assoc.
Qed.

Hypothesis Hspace : isspace db 0x20%N = true.

(** Splitting a joined list of words gives the words back. *)
Lemma split_join ws :
  Forall (is_word db) ws ->
  split_ws (isspace db) (join_space ws) = ws.
Proof.
  unfold split_ws.
  induction 1 as [| w ws [Hne Hw] Hws IH]; [reflexivity |].
  destruct ws as [| w' ws].
  - simpl join_space. rewrite <- (app_nil_r w) at 1.
    rewrite split_ws_aux_word by assumption. simpl.
    rewrite app_nil_r.
    destruct (rev w) eqn:E.
    + apply (f_equal (@rev _)) in E. rewrite rev_involutive in E.
      now elim Hne.
    + now rewrite <- E, rev_involutive.
  - change (join_space (w :: w' :: ws))
      with (w ++ 0x20%N :: join_space (w' :: ws)).
    rewrite split_ws_aux_word by assumption.
    cbn [split_ws_aux]. rewrite Hspace, app_nil_r.
    destruct (rev w) eqn:E.
    + apply (f_equal (@rev _)) in E. rewrite rev_involutive in E.
      now elim Hne.
    + rewrite <- E, rev_involutive. now rewrite IH.
Qed.
End Words.

Lemma strip_first_ending_cases es word :
  Forall (fun e => List.length e = 2%nat) es ->
  GreekProcessor.strip_first_ending es word = word
  \/ GreekProcessor.strip_first_ending es word
     = firstn (List.length word - 2) word.
Proof.
  induction 1 as [| e es He _ IH]; [now left |].
  simpl. destruct (GreekProcessor.endswith word e); [| exact IH].
  right. unfold GreekProcessor.drop_last. now rewrite He.
Qed.

Lemma endings_length :
  Forall (fun e => List.length e = 2%nat) GreekProcessor.endings.
Proof. repeat constructor. Qed.

Lemma lemmatize_word_cases w :
  lemmatize_word w = w
  \/ ((4 < List.length w)%nat
      /\ lemmatize_word w = firstn (List.length w - 2) w).
Proof.
  unfold lemmatize_word.
  destruct (4 <? List.length w)%nat eqn:E; [| now left].
  apply Nat.ltb_lt in E.
  destruct (strip_first_ending_cases GreekProcessor.endings w endings_length)
    as [H | H]; [now left | right; now split].
Qed.

Lemma Forall_prefix {A} (P : A -> Prop) (l : list A) : forall n,
  Forall P l -> Forall P (firstn n l).
Proof.
  induction l as [| a l IH]; intros n H.
  - now rewrite firstn_nil.
  - destruct n; [constructor |].
    inversion H; subst. simpl. constructor; auto.
Qed.

Lemma lemmatize_word_is_word db w :
  is_word db w -> is_word db (lemmatize_word w).
Proof.
  intros [Hne Hw].
  destruct (lemmatize_word_cases w) as [-> | [Hlen ->]]; [now split |].
  split.
  - intros E. apply (f_equal (@List.length _)) in E.
    rewrite length_firstn in E. simpl in E. lia.
  - now apply Forall_prefix.
Qed.

(** X14.  [simple_lemmatize] works word by word: its output has as many
    words as its input, in the same order, and each is the input word
    itself or the input word without its last two code points; words of at
    most four code points are never touched. *)
Theorem X14_simple_lemmatize_words db text :
  Unicode.isspace db 0x20%N = true ->
  Py.split_ws (Unicode.isspace db) (GreekProcessor.simple_lemmatize db text)
  = map lemmatize_word (Py.split_ws (Unicode.isspace db) text)
  /\ (forall w, lemmatize_word w = w
                \/ ((4 < List.length w)%nat
                    /\ lemmatize_word w = firstn (List.length w - 2) w)).
Proof.
  intros Hsp. split; [| exact lemmatize_word_cases].
  unfold GreekProcessor.simple_lemmatize.
  change (fun word : Py.str =>
            if (4 <? List.length word)%nat
            then GreekProcessor.strip_first_ending GreekProcessor.endings word
            else word)
    with lemmatize_word.
  apply split_join; [exact Hsp |].
  apply Forall_map.
  apply (Forall_impl _ (lemmatize_word_is_word db)).
  apply split_ws_words.
Qed.

(** Three words, one of them short. *)
Lemma X14_simple_lemmatize_words_witness :
  Unicode.isspace GreekUCD.db 0x20%N = true
  /\ Py.split_ws (Unicode.isspace GreekUCD.db)
                 (GreekProcessor.simple_lemmatize
                    GreekUCD.db (py "ανθρωπος  λογος θεου"))
     = map lemmatize_word
           (Py.split_ws (Unicode.isspace GreekUCD.db)
                        (py "ανθρωπος  λογος θεου")).
Proof.
  split; [reflexivity |].
  apply X14_simple_lemmatize_words. reflexivity.
Defined.

(** ** The response of the API *)

Lemma SourceMatch_of_located s :
  (exists m, Api.SourceMatch_of s = inr m) <-> located s.
Proof.
  unfold Api.SourceMatch_of, located.
  destruct (chapter s), (verse s); split.
  - intros _. split; discriminate.
  - intros _. now eexists.
  - intros [m H]. discriminate.
  - intros [_ H]. now elim H.
  - intros [m H]. discriminate.
  - intros [H _]. now elim H.
  - intros [m H]. discriminate.
  - intros [H _]. now elim H.
Qed.

Lemma SourceMatches_of_located l :
  (exists ms, Api.SourceMatches_of l = inr ms
              /\ List.length ms = List.length l)
  <-> Forall located l.
Proof.
  induction l as [| s l IH]; simpl.
  - split; [constructor | intros _; now exists []].
  - split.
    + intros (ms & H & _).
      destruct (Api.SourceMatch_of s) as [e | m] eqn:Es; [discriminate |].
      destruct (Api.SourceMatches_of l) as [e | ms'] eqn:El; [discriminate |].
      constructor.
      * apply SourceMatch_of_located. now exists m.
      * apply IH. exists ms'. split; [reflexivity |].
        destruct (proj2 IH) as (ms'' & E & Hlen).
        { apply IH. exists ms'. split; [reflexivity |].
          clear - El. revert ms' El.
          induction l as [| a l IHl]; intros ms' El; simpl in El.
          - now injection El as <-.
          - destruct (Api.SourceMatch_of a); [discriminate |].
            destruct (Api.SourceMatches_of l) eqn:E'; [discriminate |].
            injection El as <-. simpl. f_equal. now apply IHl. }
        congruence.
    + intros H. inversion H as [| ? ? Hs Hl]; subst.
      apply SourceMatch_of_located in Hs. destruct Hs as [m ->].
      apply IH in Hl. destruct Hl as (ms & -> & Hlen).
      exists (m :: ms). split; [reflexivity |]. simpl. now rewrite Hlen.
Qed.

Lemma MatchType_of_value_member s :
  (exists m, Api.MatchType_of_value s = inr m /\ Api.value m = s)
  <-> In s Spec.match_types.
Proof.
  unfold Api.MatchType_of_value. split.
  - intros (m & H & Hv).
    subst s. destruct m; simpl; auto 6.
  - intros H. simpl in H.
    destruct H as [<- | [<- | [<- | [<- | [<- | []]]]]];
      eexists; split; reflexivity.
Qed.

Lemma MatchType_of_value_sound s m :
  Api.MatchType_of_value s = inr m -> Api.value m = s.
Proof.
  unfold Api.MatchType_of_value.
  destruct (find _ Api.members) as [m' |] eqn:F; [| discriminate].
  intros [= <-]. apply find_some in F. now apply py_eqb_true.
Qed.

(** X15.  [result_to_response] answers exactly for the presentable
    results: a match type among the five, a confidence between 0 and 100,
    and a chapter and a verse on every source and on the best match.  Any
    other result raises; in particular the match type ["uncertain"] does.
    A response repeats the verdict of the result and has one entry per
    source. *)
Theorem X15_result_to_response r :
  ((exists resp, Api.result_to_response r = inr resp) <-> presentable r)
  /\ (forall resp, Api.result_to_response r = inr resp ->
                   Api.value (Api.r_match_type resp) = match_type r
                   /\ Api.r_confidence resp = confidence r
                   /\ Api.r_is_quotation resp = is_quotation r
                   /\ List.length (Api.r_sources resp)
                      = List.length (sources r)).
Proof.
  unfold Api.result_to_response, presentable. split; [split |].
  - intros [resp H].
    destruct (Api.SourceMatches_of (sources r)) as [e | ms] eqn:Es;
      [discriminate |].
    destruct (Api.MatchType_of_value (match_type r)) as [e | m] eqn:Em.
    { destruct (best_match r) as [b |];
        [destruct (Api.SourceMatch_of b) |]; discriminate. }
    destruct ((0 <=? confidence r) && (confidence r <=? 100)) eqn:Ec.
    2:{ destruct (best_match r) as [b |];
          [destruct (Api.SourceMatch_of b) |]; discriminate. }
    apply andb_true_iff in Ec. destruct Ec as [E0 E100].
    apply Z.leb_le in E0, E100.
    split; [| split; [lia | split]].
    + apply MatchType_of_value_member. exists m. split; [exact Em |].
      now apply MatchType_of_value_sound.
    + clear - Es. revert ms Es.
      induction (sources r) as [| a l IHl]; intros ms Es; [constructor |].
      simpl in Es.
      destruct (Api.SourceMatch_of a) as [e | m] eqn:Ea; [discriminate |].
      destruct (Api.SourceMatches_of l) as [e | ms'] eqn:El; [discriminate |].
      constructor; [apply SourceMatch_of_located; now exists m |].
      now apply (IHl ms').
    + intros b Hb. rewrite Hb in H.
      destruct (Api.SourceMatch_of b) as [e | mb] eqn:Eb; [discriminate |].
      apply SourceMatch_of_located. now exists mb.
  - intros (Hm & Hc & Hs & Hb).
    apply SourceMatches_of_located in Hs. destruct Hs as (ms & -> & _).
    apply MatchType_of_value_member in Hm. destruct Hm as (m & -> & _).
    replace ((0 <=? confidence r) && (confidence r <=? 100)) with true
      by (symmetry; apply andb_true_iff; split; apply Z.leb_le; lia).
    destruct (best_match r) as [b |]; [| now eexists].
    destruct (proj2 (SourceMatch_of_located b) (Hb b eq_refl)) as [mb ->].
    now eexists.
  - intros resp H.
    destruct (Api.SourceMatches_of (sources r)) as [e | ms] eqn:Es;
      [discriminate |].
    assert (Hlen : List.length ms = List.length (sources r)).
    { clear - Es. revert ms Es.
      induction (sources r) as [| a l IHl]; intros ms Es; simpl in Es.
      - now injection Es as <-.
      - destruct (Api.SourceMatch_of a); [discriminate |].
        destruct (Api.SourceMatches_of l) eqn:E'; [discriminate |].
        injection Es as <-. simpl. f_equal. now apply IHl. }
    destruct (Api.MatchType_of_value (match_type r)) as [e | m] eqn:Em.
    { destruct (best_match r) as [b |];
        [destruct (Api.SourceMatch_of b) |]; discriminate. }
    apply MatchType_of_value_sound in Em.
    destruct ((0 <=? confidence r) && (confidence r <=? 100)).
    2:{ destruct (best_match r) as [b |];
          [destruct (Api.SourceMatch_of b) |]; discriminate. }
    destruct (best_match r) as [b |];
      [destruct (Api.SourceMatch_of b); [discriminate |] |];
      injection H as <-; cbn; auto.
Qed.

Lemma presentable_response r :
  presentable r ->
  exists resp,
    Api.result_to_response r = inr resp
    /\ Api.r_confidence resp = confidence r
    /\ Api.r_is_quotation resp = is_quotation r.
Proof.
  unfold Api.result_to_response. intros (Hm & Hc & Hs & Hb).
  apply SourceMatches_of_located in Hs. destruct Hs as (ms & -> & _).
  apply MatchType_of_value_member in Hm. destruct Hm as (m & -> & _).
  replace ((0 <=? confidence r) && (confidence r <=? 100)) with true
    by (symmetry; apply andb_true_iff; split; apply Z.leb_le; lia).
  destruct (best_match r) as [b |]; [| now eexists].
  destruct (proj2 (SourceMatch_of_located b) (Hb b eq_refl)) as [mb ->].
  now eexists.
Qed.

Lemma heuristic_match_type text c cs srcs :
  In (match_type (_heuristic_classify text (c :: cs) srcs)) Spec.match_types.
Proof.
  pose proof (heuristic_cases text c cs srcs) as H. cbv zeta in H.
  remember (_heuristic_classify text (c :: cs) srcs) as res eqn:E. clear E.
  destruct H as [H | [H | [H | [H | H]]]];
    injection H as Hm _ _; rewrite Hm; simpl; auto 6.
Qed.

(** The result of heuristic mode is presentable when every retrieved
    candidate has a chapter and a verse. *)
Lemma heuristic_outcome_presentable text mc iac cands t :
  Forall (fun c => c_chapter c <> None /\ c_verse c <> None) cands ->
  presentable (heuristic_outcome text mc iac cands t).
Proof.
  intros Hc.
  assert (Hs : Forall located (map source_of cands)).
  { apply Forall_map. exact Hc. }
  unfold presentable. split; [| split; [| split]].
  - destruct cands as [| c cs]; [simpl; auto 6 |].
    unfold heuristic_outcome. rewrite shape_match_type_eq.
    apply heuristic_match_type.
  - pose proof (heuristic_outcome_confidence text mc iac cands t). lia.
  - destruct cands as [| c cs]; [constructor |].
    unfold heuristic_outcome. rewrite shape_sources.
    destruct iac; [exact Hs | now apply Forall_prefix].
  - destruct cands as [| c cs]; [discriminate |].
    unfold heuristic_outcome. rewrite shape_best_match, heuristic_best_match.
    intros b [= <-]. now inversion Hs.
Qed.

Lemma get_detector_heuristic st :
  api_wf st -> use_llm (Api.get_detector false st) = false.
Proof.
  intros [_ H]. unfold Api.get_detector.
  destruct (Api._detector_heuristic st) as [d |] eqn:E; [now apply H |].
  reflexivity.
Qed.

Lemma get_detector_llm st :
  api_wf st -> use_llm (Api.get_detector true st) = true.
Proof.
  intros [H _]. unfold Api.get_detector.
  destruct (Api._detector_llm st) as [d |] eqn:E; [now apply H |].
  reflexivity.
Qed.

(** X16.  In heuristic mode the endpoint never answers with an error when
    every retrieved candidate carries a chapter and a verse: it returns a
    response whose confidence lies between 55 and 95 and which says
    quotation only with a confidence at or above the requested floor; the
    detectors of the routes stay in their modes. *)
Theorem X16_heuristic_endpoint_answers db w request st :
  Api.mode request = Api.heuristic ->
  api_wf st ->
  Forall (fun c => c_chapter c <> None /\ c_verse c <> None)
         (fst (retrieved w (Api.get_detector false st) (Api.text request))) ->
  exists resp st',
    Api.detect_quotation db w request st = (inr resp, st')
    /\ api_wf st'
    /\ 55 <= Api.r_confidence resp <= 95
    /\ (Api.r_is_quotation resp = true ->
        Api.min_confidence request <= Api.r_confidence resp).
Proof.
  intros Hmode Hwf Hc.
  pose proof (get_detector_heuristic st Hwf) as Hu.
  unfold Api.detect_quotation. rewrite Hmode.
  rewrite detect_heuristic by exact Hu. cbn [self clock_reads llm_requests].
  destruct (presentable_response _
              (heuristic_outcome_presentable
                 (Api.text request) (Api.min_confidence request)
                 (Api.include_all_candidates request) _
                 (elapsed w {| self := Api.get_detector false st;
                               clock_reads := Api.api_clock_reads st;
                               llm_requests := Api.api_llm_requests st |})
                 Hc))
    as (resp & -> & Hconf & Hq).
  eexists _, _. split; [reflexivity |]. split; [| split].
  - destruct Hwf as [Hl Hh]. split; cbn.
    + exact Hl.
    + intros d [= <-]. now rewrite retrieved_use_llm.
  - rewrite Hconf. apply heuristic_outcome_confidence.
  - rewrite Hconf, Hq. intros Hisq.
    destruct (fst (retrieved w (Api.get_detector false st) (Api.text request)))
      as [| c cs]; [discriminate |].
    unfold heuristic_outcome in *.
    rewrite shape_is_quotation in Hisq. rewrite shape_confidence.
    apply andb_true_iff in Hisq. destruct Hisq as [Hf _].
    apply negb_true_iff, Z.ltb_ge in Hf. exact Hf.
Qed.

(** A first request in heuristic mode. *)
Lemma X16_heuristic_endpoint_answers_witness :
  let w := Sample.world None (inr [Sample.john_3_16 0.87])
                        (inl Sample.connection_refused) in
  let request := {| Api.text := Sample.query; Api.min_confidence := 50;
                    Api.mode := Api.heuristic;
                    Api.include_all_candidates := false |} in
  let st := {| Api._detector_llm := None; Api._detector_heuristic := None;
               Api.api_clock_reads := 0; Api.api_llm_requests := 0 |} in
  api_wf st
  /\ exists resp st',
      Api.detect_quotation GreekUCD.db w request st = (inr resp, st')
      /\ api_wf st'
      /\ 55 <= Api.r_confidence resp <= 95
      /\ (Api.r_is_quotation resp = true ->
          Api.min_confidence request <= Api.r_confidence resp).
Proof.
  cbv zeta.
  assert (Hwf : api_wf {| Api._detector_llm := None;
                          Api._detector_heuristic := None;
                          Api.api_clock_reads := 0;
                          Api.api_llm_requests := 0 |})
    by (split; intros d H; discriminate H).
  split; [exact Hwf |].
  apply X16_heuristic_endpoint_answers.
  - reflexivity.
  - exact Hwf.
  - repeat constructor; vm_compute; discriminate.
Defined.

Lemma uncertain_is_refused r :
  match_type r = py "uncertain" ->
  exists e, Api.result_to_response r = inl e.
Proof.
  intros Hm. unfold Api.result_to_response. rewrite Hm.
  destruct (Api.SourceMatches_of (sources r)); [now eexists |].
  destruct (best_match r) as [b |];
    [destruct (Api.SourceMatch_of b) |]; now eexists.
Qed.

(** X17.  In LLM mode, with a client at hand and at least one candidate, a
    failing request to the completion service makes the endpoint answer
    with the HTTP error 500: [detect] returns the match type ["uncertain"],
    which the response model refuses. *)
Theorem X17_llm_endpoint_error db w request st e :
  Api.mode request = Api.llm ->
  api_wf st ->
  _claude_client (Api.get_detector true st) <> None
  \/ key_usable (getenv_ANTHROPIC_API_KEY w) ->
  fst (retrieved w (Api.get_detector true st) (Api.text request)) <> [] ->
  messages_create
    w (Api.api_llm_requests st)
    (Claude._build_verification_prompt
       (Api.text request)
       (fst (retrieved w (Api.get_detector true st) (Api.text request))))
  = inl e ->
  exists message st',
    Api.detect_quotation db w request st
    = (inl {| Api.status_code := 500; Api.detail := message |}, st').
Proof.
  intros Hmode Hwf Hclient Hne Hfail.
  pose proof (get_detector_llm st Hwf) as Hu.
  unfold Api.detect_quotation. rewrite Hmode.
  destruct (detect_paths db w (Api.text request) (Api.min_confidence request)
                         (Api.include_all_candidates request)
                         {| self := Api.get_detector true st;
                            clock_reads := Api.api_clock_reads st;
                            llm_requests := Api.api_llm_requests st |})
    as (r & s' & -> & _ & _ & _ & Hcase).
  cbn [self clock_reads llm_requests] in Hcase.
  assert (Hm : match_type r = py "uncertain").
  { destruct Hcase as [(E & _) | [(_ & _ & _ & Hk) | (_ & _ & -> & _)]].
    - congruence.
    - destruct (Hk Hu) as [Hnone Href].
      destruct Hclient as [Hc | Hc]; [congruence |].
      now elim (key_usable_not_refused _ Hc).
    - rewrite shape_match_type_eq. unfold verdict. rewrite Hfail.
      reflexivity. }
  destruct (uncertain_is_refused r Hm) as [e' ->].
  now eexists _, _.
Qed.

(** A first request in LLM mode while the service is down. *)
Lemma X17_llm_endpoint_error_witness :
  let w := Sample.world (Some (py "sk-ant-key")) (inr [Sample.john_3_16 0.87])
                        (inl Sample.connection_refused) in
  let request := {| Api.text := Sample.query; Api.min_confidence := 50;
                    Api.mode := Api.llm;
                    Api.include_all_candidates := false |} in
  let st := {| Api._detector_llm := None; Api._detector_heuristic := None;
               Api.api_clock_reads := 0; Api.api_llm_requests := 0 |} in
  api_wf st
  /\ key_usable (getenv_ANTHROPIC_API_KEY w)
  /\ exists message st',
      Api.detect_quotation GreekUCD.db w request st
      = (inl {| Api.status_code := 500; Api.detail := message |}, st').
Proof.
  cbv zeta.
  assert (Hwf : api_wf {| Api._detector_llm := None;
                          Api._detector_heuristic := None;
                          Api.api_clock_reads := 0;
                          Api.api_llm_requests := 0 |})
    by (split; intros d H; discriminate H).
  assert (Hk : key_usable (Some (py "sk-ant-key"))).
  { exists (py "sk-ant-key"). split; [reflexivity |].
    split; vm_compute; discriminate. }
  split; [exact Hwf |]. split; [exact Hk |].
  apply (X17_llm_endpoint_error GreekUCD.db _ _ _ Sample.connection_refused).
  - reflexivity.
  - exact Hwf.
  - right. exact Hk.
  - vm_compute. discriminate.
  - reflexivity.
Defined.
